(** * drawn-website: window manager, sketch filter, freeze controller, gallery

    A shallow embedding of the algorithmic core of the simulated desktop:

    - [WM]       the [WindowManager] class (centering, dragging, z-order);
    - [Freeze]   [DrawingModeManager.blockInteractions] / [unblockInteractions]
                 and the [toggle] that drives them;
    - [Sketch]   [DesktopApps.applySketchFilter], in IEEE binary64 arithmetic
                 with the 8-bit clamped pixel buffers of a canvas;
    - [Gallery]  [DesktopApps.submitDrawing] / [renderGallery];
    - [Windows]  the remaining methods of [WindowManager] (resizing,
                 hiding, resetting) and the timer of [stopDrag];
    - [Blockers] the bodies of the four interceptors and their dispatch;
    - [Mode]     the mode flag, what the page shows of it, what is stored;
    - [Icons]    [swapToDrawnIcons] / [restoreOriginalIcons];
    - [Illustration] [showDrawnComputer] / [makeDrawnComputerDraggable];
    - [Notepad]  [startDrawing] / [draw] / [stopDrawing];
    - [Examples], [Scenes] concrete pages, frames and events on which the
                 facts are run.

    Conventions.  The browser is an explicit state record that every handler
    receives and returns.  DOM elements are named by their [id]; a JavaScript
    reference that may be [null] is an [option].  A call that can throw
    returns an [outcome]: the state it left behind, and how it ended.  CSS pixel lengths are
    rationals ([Q]), the z-index counter is an integer ([Z]), the numbers of
    the pixel filter are binary64 floats ([spec_float]). *)

From Stdlib Require Import ZArith QArith Qminmax Lia Lqa.
From Stdlib Require Import Floats.SpecFloat.
From stdpp Require Import gmap strings list pretty.

Local Open Scope string_scope.

(* ===================================================================== *)
(** * The window manager                                                 *)
(* ===================================================================== *)

Module WM.

(** [element.getBoundingClientRect()] *)
Record rect := { r_left : Q; r_top : Q; r_width : Q; r_height : Q }.

(** The [.window-header] child of a window and the inline styles the manager
    writes on it; [hd_listeners] counts its [pointerdown] listeners. *)
Record header := {
  hd_cursor : string;
  hd_userSelect : string;
  hd_webkitUserSelect : string;
  hd_touchAction : string;
  hd_listeners : nat
}.

(** A window element.  [el_left] and [el_top] are the inline [style.left] and
    [style.top] in pixels ([None] is the empty string), [el_zIndex] the inline
    [style.zIndex], [el_active] whether [classList] contains ['active']. *)
Record element := {
  el_active : bool;
  el_left : option Q;
  el_top : option Q;
  el_transform : string;
  el_margin : string;
  el_transition : string;
  el_zIndex : option Z;
  el_header : option header;
  el_listeners : nat
}.

(** The two bound methods the manager installs on [document]. *)
Inductive doc_handler := HandleDrag | StopDrag.

#[export] Instance doc_handler_eq_dec : EqDecision doc_handler.
Proof. solve_decision. Defined.

(** The part of the page the manager reads and writes. *)
Record browser := {
  elements : gmap string element;            (* document.getElementById *)
  innerWidth : Q;                            (* window.innerWidth *)
  innerHeight : Q;                           (* window.innerHeight *)
  doc_listeners : list (string * doc_handler);
  body_userSelect : string;
  body_webkitUserSelect : string;
  timers : nat                               (* pending setTimeout callbacks *)
}.

(** An entry of [this.windows]; the element reference is the map key. *)
Record window_info := { zIndex : Z }.

(** The fields of a [WindowManager] instance. *)
Record manager := {
  windows : gmap string window_info;
  baseZIndex : Z;
  currentZIndex : Z;
  activeWindow : option string;
  isDragging : bool;
  dragStartX : Q;
  dragStartY : Q;
  windowStartX : Q;
  windowStartY : Q
}.

Record sys := { mgr : manager; dom : browser }.

(** A pointer event with the two flags its methods set. *)
Record pointer_event := {
  clientX : Q;
  clientY : Q;
  defaultPrevented : bool;
  propagationStopped : bool
}.

Definition preventDefault (e : pointer_event) : pointer_event :=
  {| clientX := clientX e; clientY := clientY e;
     defaultPrevented := true; propagationStopped := propagationStopped e |}.

Definition stopPropagation (e : pointer_event) : pointer_event :=
  {| clientX := clientX e; clientY := clientY e;
     defaultPrevented := defaultPrevented e; propagationStopped := true |}.

(** ** Field updates *)

Definition with_elements (f : gmap string element → gmap string element)
    (b : browser) : browser :=
  {| elements := f (elements b);
     innerWidth := innerWidth b; innerHeight := innerHeight b;
     doc_listeners := doc_listeners b;
     body_userSelect := body_userSelect b;
     body_webkitUserSelect := body_webkitUserSelect b;
     timers := timers b |}.

Definition with_doc_listeners
    (f : list (string * doc_handler) → list (string * doc_handler))
    (b : browser) : browser :=
  {| elements := elements b;
     innerWidth := innerWidth b; innerHeight := innerHeight b;
     doc_listeners := f (doc_listeners b);
     body_userSelect := body_userSelect b;
     body_webkitUserSelect := body_webkitUserSelect b;
     timers := timers b |}.

Definition with_body_select (v : string) (b : browser) : browser :=
  {| elements := elements b;
     innerWidth := innerWidth b; innerHeight := innerHeight b;
     doc_listeners := doc_listeners b;
     body_userSelect := v;
     body_webkitUserSelect := v;
     timers := timers b |}.

Definition with_timer (b : browser) : browser :=
  {| elements := elements b;
     innerWidth := innerWidth b; innerHeight := innerHeight b;
     doc_listeners := doc_listeners b;
     body_userSelect := body_userSelect b;
     body_webkitUserSelect := body_webkitUserSelect b;
     timers := S (timers b) |}.

(** Writing through an element reference. *)
Definition update_element (w : string) (f : element → element)
    (b : browser) : browser :=
  with_elements (alter f w) b.

Definition set_position (x y : Q) (el : element) : element :=
  {| el_active := el_active el;
     el_left := Some x; el_top := Some y;
     el_transform := el_transform el; el_margin := el_margin el;
     el_transition := el_transition el; el_zIndex := el_zIndex el;
     el_header := el_header el; el_listeners := el_listeners el |}.

Definition set_transform_margin (t m : string) (el : element) : element :=
  {| el_active := el_active el;
     el_left := el_left el; el_top := el_top el;
     el_transform := t; el_margin := m;
     el_transition := el_transition el; el_zIndex := el_zIndex el;
     el_header := el_header el; el_listeners := el_listeners el |}.

Definition set_transition (t : string) (el : element) : element :=
  {| el_active := el_active el;
     el_left := el_left el; el_top := el_top el;
     el_transform := el_transform el; el_margin := el_margin el;
     el_transition := t; el_zIndex := el_zIndex el;
     el_header := el_header el; el_listeners := el_listeners el |}.

Definition set_zIndex (z : Z) (el : element) : element :=
  {| el_active := el_active el;
     el_left := el_left el; el_top := el_top el;
     el_transform := el_transform el; el_margin := el_margin el;
     el_transition := el_transition el; el_zIndex := Some z;
     el_header := el_header el; el_listeners := el_listeners el |}.

Definition set_active (a : bool) (el : element) : element :=
  {| el_active := a;
     el_left := el_left el; el_top := el_top el;
     el_transform := el_transform el; el_margin := el_margin el;
     el_transition := el_transition el; el_zIndex := el_zIndex el;
     el_header := el_header el; el_listeners := el_listeners el |}.

Definition set_cursor (c : string) (h : header) : header :=
  {| hd_cursor := c; hd_userSelect := hd_userSelect h;
     hd_webkitUserSelect := hd_webkitUserSelect h;
     hd_touchAction := hd_touchAction h; hd_listeners := hd_listeners h |}.

(** [const header = el.querySelector('.window-header');
     if (header) header.style.cursor = c;] *)
Definition set_header_cursor (c : string) (el : element) : element :=
  {| el_active := el_active el;
     el_left := el_left el; el_top := el_top el;
     el_transform := el_transform el; el_margin := el_margin el;
     el_transition := el_transition el; el_zIndex := el_zIndex el;
     el_header := set_cursor c <$> el_header el;
     el_listeners := el_listeners el |}.

(** The header set-up of [makeWindowDraggable]: selection off, grab cursor,
    touch scrolling off, one more [pointerdown] listener. *)
Definition grab_header (h : header) : header :=
  {| hd_cursor := "grab"; hd_userSelect := "none";
     hd_webkitUserSelect := "none"; hd_touchAction := "none";
     hd_listeners := S (hd_listeners h) |}.

Definition make_draggable (el : element) : element :=
  match el_header el with
  | None => el
  | Some h =>
    {| el_active := el_active el;
       el_left := el_left el; el_top := el_top el;
       el_transform := el_transform el; el_margin := el_margin el;
       el_transition := el_transition el; el_zIndex := el_zIndex el;
       el_header := Some (grab_header h);
       el_listeners := S (el_listeners el) |}
  end.

Definition with_mgr (f : manager → manager) (s : sys) : sys :=
  {| mgr := f (mgr s); dom := dom s |}.

Definition with_dom (f : browser → browser) (s : sys) : sys :=
  {| mgr := mgr s; dom := f (dom s) |}.

Definition set_windows (ws : gmap string window_info) (m : manager) : manager :=
  {| windows := ws; baseZIndex := baseZIndex m;
     currentZIndex := currentZIndex m; activeWindow := activeWindow m;
     isDragging := isDragging m;
     dragStartX := dragStartX m; dragStartY := dragStartY m;
     windowStartX := windowStartX m; windowStartY := windowStartY m |}.

Definition set_currentZIndex (z : Z) (m : manager) : manager :=
  {| windows := windows m; baseZIndex := baseZIndex m;
     currentZIndex := z; activeWindow := activeWindow m;
     isDragging := isDragging m;
     dragStartX := dragStartX m; dragStartY := dragStartY m;
     windowStartX := windowStartX m; windowStartY := windowStartY m |}.

Definition set_drag (d : bool) (w : option string) (m : manager) : manager :=
  {| windows := windows m; baseZIndex := baseZIndex m;
     currentZIndex := currentZIndex m; activeWindow := w;
     isDragging := d;
     dragStartX := dragStartX m; dragStartY := dragStartY m;
     windowStartX := windowStartX m; windowStartY := windowStartY m |}.

Definition set_drag_origin (px py wx wy : Q) (m : manager) : manager :=
  {| windows := windows m; baseZIndex := baseZIndex m;
     currentZIndex := currentZIndex m; activeWindow := activeWindow m;
     isDragging := isDragging m;
     dragStartX := px; dragStartY := py;
     windowStartX := wx; windowStartY := wy |}.

(** [document.addEventListener(type, fn)]: a listener already present with
    the same type and callback is not added again. *)
Definition addEventListener (ty : string) (h : doc_handler)
    (l : list (string * doc_handler)) : list (string * doc_handler) :=
  if decide ((ty, h) ∈ l) then l else l ++ [(ty, h)].

Definition removeEventListener (ty : string) (h : doc_handler)
    (l : list (string * doc_handler)) : list (string * doc_handler) :=
  filter (λ p, p ≠ (ty, h)) l.

(** ** The methods *)

Section Methods.

(** The layout engine: the geometry [getBoundingClientRect] reports for an
    element in a given page state, and whether its computed [display] is
    ['none']. *)
Variable layout : browser → string → rect.
Variable display_none : browser → string → bool.

(** [new WindowManager()] before any window is set up. *)
Definition init_manager : manager :=
  {| windows := ∅; baseZIndex := 100; currentZIndex := 100;
     activeWindow := None; isDragging := false;
     dragStartX := 0; dragStartY := 0;
     windowStartX := 0; windowStartY := 0 |}.

Definition centerWindowNow (windowEl : option string) (s : sys) : sys :=
  match windowEl with
  | None => s
  | Some w =>
    let rect := layout (dom s) w in
    let windowWidth := r_width rect in
    let windowHeight := r_height rect in
    let centerX := ((innerWidth (dom s) - windowWidth) / 2)%Q in
    let centerY := ((innerHeight (dom s) - windowHeight) / 2)%Q in
    with_dom (update_element w
      (λ el, set_transform_margin "none" "0" (set_position centerX centerY el))) s
  end.

Definition is_active (b : browser) (w : string) : bool :=
  match elements b !! w with
  | Some el => el_active el
  | None => false
  end.

Definition setupWindow (windowEl : option string) (s : sys) : sys :=
  match windowEl with
  | None => s
  | Some w =>
    let s1 :=
      if is_active (dom s) w || negb (display_none (dom s) w)
      then centerWindowNow (Some w) s
      else s in
    with_mgr (λ m,
      set_windows (<[w := {| zIndex := baseZIndex m |}]> (windows m)) m) s1
  end.

Definition makeWindowDraggable (windowEl : option string) (s : sys) : sys :=
  match windowEl with
  | None => s
  | Some w => with_dom (update_element w make_draggable) s
  end.

Definition bringToFront (windowEl : option string) (s : sys) : sys :=
  match windowEl with
  | None => s
  | Some w =>
    let z := (currentZIndex (mgr s) + 1)%Z in
    let s1 := with_mgr (set_currentZIndex z) s in
    let s2 := with_dom (update_element w (set_zIndex z)) s1 in
    match windows (mgr s2) !! w with
    | Some _ =>
      with_mgr (λ m, set_windows (<[w := {| zIndex := z |}]> (windows m)) m) s2
    | None => s2
    end
  end.

Definition startDrag (w : string) (e : pointer_event) (s : sys)
    : sys * pointer_event :=
  let e := stopPropagation (preventDefault e) in
  let s := with_mgr (set_drag true (Some w)) s in
  let s := with_dom (update_element w (set_header_cursor "grabbing")) s in
  let rect := layout (dom s) w in
  let s := with_mgr
    (set_drag_origin (clientX e) (clientY e) (r_left rect) (r_top rect)) s in
  let s := with_dom (update_element w
    (λ el, set_transition "none"
      (set_transform_margin "none" "0"
        (set_position (windowStartX (mgr s)) (windowStartY (mgr s)) el)))) s in
  let s := bringToFront (Some w) s in
  let s := with_dom (with_doc_listeners (λ l,
    addEventListener "pointercancel" StopDrag
      (addEventListener "pointerup" StopDrag
        (addEventListener "pointermove" HandleDrag l)))) s in
  (with_dom (with_body_select "none") s, e).

Definition handleDrag (e : pointer_event) (s : sys) : sys * pointer_event :=
  match isDragging (mgr s), activeWindow (mgr s) with
  | true, Some windowEl =>
    let e := stopPropagation (preventDefault e) in
    let deltaX := (clientX e - dragStartX (mgr s))%Q in
    let deltaY := (clientY e - dragStartY (mgr s))%Q in
    let newX := (windowStartX (mgr s) + deltaX)%Q in
    let newY := (windowStartY (mgr s) + deltaY)%Q in
    let rect := layout (dom s) windowEl in
    let windowWidth := r_width rect in
    let windowHeight := r_height rect in
    let minX := (- windowWidth + 100)%Q in
    let minY := 0%Q in
    let maxX := (innerWidth (dom s) - 100)%Q in
    let maxY := (innerHeight (dom s) - 50)%Q in
    let newX := Qmax minX (Qmin newX maxX) in
    let newY := Qmax minY (Qmin newY maxY) in
    (with_dom (update_element windowEl (set_position newX newY)) s, e)
  | _, _ => (s, e)
  end.

Definition stopDrag (e : pointer_event) (s : sys) : sys * pointer_event :=
  if isDragging (mgr s) then
    let e := preventDefault e in
    let s := with_mgr (λ m, set_drag false (activeWindow m) m) s in
    let s :=
      match activeWindow (mgr s) with
      | Some w =>
        with_dom with_timer
          (with_dom (update_element w (set_header_cursor "grab")) s)
      | None => s
      end in
    let s := with_mgr (set_drag false None) s in
    let s := with_dom (with_doc_listeners (λ l,
      removeEventListener "pointercancel" StopDrag
        (removeEventListener "pointerup" StopDrag
          (removeEventListener "pointermove" HandleDrag l)))) s in
    (with_dom (with_body_select "") s, e)
  else (s, e).

(** The application hook [showWindow] fires once the window is in front. *)
Inductive app_hook := NoHook | StartWebcam | SetupDrawingCanvas.

Definition showWindow (windowId : string) (desktopApps : bool) (s : sys)
    : sys * app_hook :=
  match elements (dom s) !! windowId with
  | None => (s, NoHook)
  | Some _ =>
    let windowEl := Some windowId in
    let s :=
      match windows (mgr s) !! windowId with
      | Some _ => s
      | None => makeWindowDraggable windowEl (setupWindow windowEl s)
      end in
    let s := with_dom (update_element windowId (set_active true)) s in
    let s := centerWindowNow windowEl s in
    let s := bringToFront windowEl s in
    (s,
     if String.eqb windowId "cameraWindow" && desktopApps then StartWebcam
     else if String.eqb windowId "notepadWindow" && desktopApps
          then SetupDrawingCanvas
          else NoHook)
  end.

(** The page state in which [showWindow] measures the window: the window is
    registered and carries the ['active'] class, nothing is centered yet. *)
Definition shown (windowId : string) (s : sys) : sys :=
  let windowEl := Some windowId in
  let s :=
    match windows (mgr s) !! windowId with
    | Some _ => s
    | None => makeWindowDraggable windowEl (setupWindow windowEl s)
    end in
  with_dom (update_element windowId (set_active true)) s.

(** A drag session: pointer-down on [w], the pointer moves in order, then
    pointer-up. *)
Definition drag_moves (moves : list pointer_event) (s : sys) : sys :=
  fold_left (λ s e, (handleDrag e s).1) moves s.

Definition drag_session (w : string) (down : pointer_event)
    (moves : list pointer_event) (up : pointer_event) (s : sys) : sys :=
  (stopDrag up (drag_moves moves (startDrag w down s).1)).1.

(** A run of [bringToFront] calls, in call order. *)
Definition bringToFront_all (ids : list string) (s : sys) : sys :=
  fold_left (λ s w, bringToFront (Some w) s) ids s.

End Methods.

(** Reading an element's inline position and z-index. *)
Definition left_of (s : sys) (w : string) : option Q :=
  elements (dom s) !! w ≫= el_left.

Definition top_of (s : sys) (w : string) : option Q :=
  elements (dom s) !! w ≫= el_top.

Definition zIndex_of (s : sys) (w : string) : option Z :=
  elements (dom s) !! w ≫= el_zIndex.

(** The state of an ongoing drag of [w] on a [vw] by [vh] viewport. *)
Definition dragging (w : string) (vw vh : Q) (s : sys) : Prop :=
  isDragging (mgr s) = true ∧ activeWindow (mgr s) = Some w ∧
  is_Some (elements (dom s) !! w) ∧
  innerWidth (dom s) = vw ∧ innerHeight (dom s) = vh.

(** No inline z-index on the page exceeds the counter. *)
Definition zIndex_ok (c : Z) (el : element) : bool :=
  match el_zIndex el with
  | Some z => (z <=? c)%Z
  | None => true
  end.

Definition below_counter (s : sys) : Prop :=
  map_Forall (λ _ el, zIndex_ok (currentZIndex (mgr s)) el = true)
             (elements (dom s)).

End WM.

(* ===================================================================== *)
(** * The mode freeze controller                                         *)
(* ===================================================================== *)

Module Freeze.

(** The function expressions of the page.  Every evaluation of an arrow
    function creates a new function object; [cl_id] is its identity and
    [cl_code] says which expression it came from.  [Foreign] stands for the
    callbacks other code registers on [document]. *)
Inductive code :=
  InteractionBlocker | KeyBlocker | SubmitBlocker | ContextMenuBlocker | Foreign.

#[export] Instance code_eq_dec : EqDecision code.
Proof. solve_decision. Defined.

Record closure := { cl_code : code; cl_id : nat }.

#[export] Instance closure_eq_dec : EqDecision closure.
Proof. solve_decision. Defined.

(** One entry of the listener list of [document]. *)
Record listener := { l_type : string; l_callback : closure; l_capture : bool }.

#[export] Instance listener_eq_dec : EqDecision listener.
Proof. solve_decision. Defined.

Inductive icon := Pencil | Computer.

(** The fields of a [DrawingModeManager] together with the page state it
    writes: the [drawn-mode] class of [body], the [drawingMode] key of
    [localStorage], the listeners of [document] and the next fresh function
    identity.  [toggleButton] is [None] while the field is [null]; the
    button it refers to is given by the text of its [.toggle-icon] child,
    [None] when the button has no such child. *)
Record state := {
  isDrawingMode : bool;
  interactionBlocker : option closure;
  keyBlocker : option closure;
  submitBlocker : option closure;
  contextMenuBlocker : option closure;
  body_drawn_mode : bool;
  toggleButton : option (option icon);
  storage : option string;
  listeners : list listener;
  next_closure : nat
}.

(** [document.addEventListener(type, cb, capture)] ignores a listener that
    is already there with the same type, callback and phase. *)
Definition addEventListener (ty : string) (cb : closure) (capture : bool)
    (l : list listener) : list listener :=
  let entry := {| l_type := ty; l_callback := cb; l_capture := capture |} in
  if decide (entry ∈ l) then l else l ++ [entry].

Definition removeEventListener (ty : string) (cb : closure) (capture : bool)
    (l : list listener) : list listener :=
  filter (λ x, x ≠ {| l_type := ty; l_callback := cb; l_capture := capture |}) l.

Definition set_listeners (l : list listener) (s : state) : state :=
  {| isDrawingMode := isDrawingMode s;
     interactionBlocker := interactionBlocker s; keyBlocker := keyBlocker s;
     submitBlocker := submitBlocker s;
     contextMenuBlocker := contextMenuBlocker s;
     body_drawn_mode := body_drawn_mode s; toggleButton := toggleButton s;
     storage := storage s; listeners := l; next_closure := next_closure s |}.

Definition set_interactionBlocker (c : option closure) (s : state) : state :=
  {| isDrawingMode := isDrawingMode s;
     interactionBlocker := c; keyBlocker := keyBlocker s;
     submitBlocker := submitBlocker s;
     contextMenuBlocker := contextMenuBlocker s;
     body_drawn_mode := body_drawn_mode s; toggleButton := toggleButton s;
     storage := storage s; listeners := listeners s;
     next_closure := next_closure s |}.

Definition set_keyBlocker (c : option closure) (s : state) : state :=
  {| isDrawingMode := isDrawingMode s;
     interactionBlocker := interactionBlocker s; keyBlocker := c;
     submitBlocker := submitBlocker s;
     contextMenuBlocker := contextMenuBlocker s;
     body_drawn_mode := body_drawn_mode s; toggleButton := toggleButton s;
     storage := storage s; listeners := listeners s;
     next_closure := next_closure s |}.

Definition set_submitBlocker (c : option closure) (s : state) : state :=
  {| isDrawingMode := isDrawingMode s;
     interactionBlocker := interactionBlocker s; keyBlocker := keyBlocker s;
     submitBlocker := c;
     contextMenuBlocker := contextMenuBlocker s;
     body_drawn_mode := body_drawn_mode s; toggleButton := toggleButton s;
     storage := storage s; listeners := listeners s;
     next_closure := next_closure s |}.

Definition set_contextMenuBlocker (c : option closure) (s : state) : state :=
  {| isDrawingMode := isDrawingMode s;
     interactionBlocker := interactionBlocker s; keyBlocker := keyBlocker s;
     submitBlocker := submitBlocker s;
     contextMenuBlocker := c;
     body_drawn_mode := body_drawn_mode s; toggleButton := toggleButton s;
     storage := storage s; listeners := listeners s;
     next_closure := next_closure s |}.

Definition set_mode (m : bool) (s : state) : state :=
  {| isDrawingMode := m;
     interactionBlocker := interactionBlocker s; keyBlocker := keyBlocker s;
     submitBlocker := submitBlocker s;
     contextMenuBlocker := contextMenuBlocker s;
     body_drawn_mode := body_drawn_mode s; toggleButton := toggleButton s;
     storage := storage s; listeners := listeners s;
     next_closure := next_closure s |}.

Definition set_body_drawn_mode (cls : bool) (s : state) : state :=
  {| isDrawingMode := isDrawingMode s;
     interactionBlocker := interactionBlocker s; keyBlocker := keyBlocker s;
     submitBlocker := submitBlocker s;
     contextMenuBlocker := contextMenuBlocker s;
     body_drawn_mode := cls; toggleButton := toggleButton s;
     storage := storage s; listeners := listeners s;
     next_closure := next_closure s |}.

Definition set_toggleButton (b : option (option icon)) (s : state) : state :=
  {| isDrawingMode := isDrawingMode s;
     interactionBlocker := interactionBlocker s; keyBlocker := keyBlocker s;
     submitBlocker := submitBlocker s;
     contextMenuBlocker := contextMenuBlocker s;
     body_drawn_mode := body_drawn_mode s; toggleButton := b;
     storage := storage s; listeners := listeners s;
     next_closure := next_closure s |}.

Definition set_storage (v : option string) (s : state) : state :=
  {| isDrawingMode := isDrawingMode s;
     interactionBlocker := interactionBlocker s; keyBlocker := keyBlocker s;
     submitBlocker := submitBlocker s;
     contextMenuBlocker := contextMenuBlocker s;
     body_drawn_mode := body_drawn_mode s; toggleButton := toggleButton s;
     storage := v; listeners := listeners s;
     next_closure := next_closure s |}.

(** Evaluating a function expression: a new object with a fresh identity. *)
Definition new_closure (c : code) (s : state) : closure * state :=
  ({| cl_code := c; cl_id := next_closure s |},
   {| isDrawingMode := isDrawingMode s;
      interactionBlocker := interactionBlocker s; keyBlocker := keyBlocker s;
      submitBlocker := submitBlocker s;
      contextMenuBlocker := contextMenuBlocker s;
      body_drawn_mode := body_drawn_mode s; toggleButton := toggleButton s;
      storage := storage s; listeners := listeners s;
      next_closure := S (next_closure s) |}).

Definition add_all (types : list string) (cb : closure) (s : state) : state :=
  fold_left (λ s ty, set_listeners (addEventListener ty cb true (listeners s)) s)
            types s.

Definition remove_all (types : list string) (cb : closure) (s : state) : state :=
  fold_left (λ s ty, set_listeners (removeEventListener ty cb true (listeners s)) s)
            types s.

Definition click_family : list string :=
  ["click"; "dblclick"; "mousedown"; "mouseup"].

Definition key_family : list string := ["keydown"; "keypress"; "keyup"].

Definition blockInteractions (s : state) : state :=
  let '(f, s) := new_closure InteractionBlocker s in
  let s := set_interactionBlocker (Some f) s in
  let s := add_all click_family f s in
  let '(k, s) := new_closure KeyBlocker s in
  let s := set_keyBlocker (Some k) s in
  let s := add_all key_family k s in
  let '(b, s) := new_closure SubmitBlocker s in
  let s := set_submitBlocker (Some b) s in
  let s := add_all ["submit"] b s in
  let '(c, s) := new_closure ContextMenuBlocker s in
  let s := set_contextMenuBlocker (Some c) s in
  add_all ["contextmenu"] c s.

Definition unblockInteractions (s : state) : state :=
  let s :=
    match interactionBlocker s with
    | Some f => set_interactionBlocker None (remove_all click_family f s)
    | None => s
    end in
  let s :=
    match keyBlocker s with
    | Some k => set_keyBlocker None (remove_all key_family k s)
    | None => s
    end in
  let s :=
    match submitBlocker s with
    | Some b => set_submitBlocker None (remove_all ["submit"] b s)
    | None => s
    end in
  match contextMenuBlocker s with
  | Some c => set_contextMenuBlocker None (remove_all ["contextmenu"] c s)
  | None => s
  end.

(** One of the four steps of [unblockInteractions]: when the callback
    field [get] holds a function, its listeners are removed and the field is
    cleared. *)
Definition unblock_step (get : state → option closure)
    (set : option closure → state → state) (types : list string)
    (s : state) : state :=
  match get s with
  | Some f => set None (remove_all types f s)
  | None => s
  end.

(** How a call ends: it returns, or a [TypeError] reaches its caller.  Either
    way the page keeps what the call has written so far. *)
Inductive outcome := Returns (s : state) | Throws (s : state).

Definition state_of (o : outcome) : state :=
  match o with Returns s | Throws s => s end.

Definition and_then (o : outcome) (f : state → outcome) : outcome :=
  match o with Returns s => f s | Throws s => Throws s end.

(** [updateButtonIcon]: [this.toggleButton.querySelector] throws when the
    field is [null]; the text is written when the icon element exists. *)
Definition updateButtonIcon (emoji : icon) (s : state) : outcome :=
  match toggleButton s with
  | None => Throws s
  | Some iconElement =>
    Returns (set_toggleButton
               (Some (if iconElement is Some _ then Some emoji else None)) s)
  end.

(** [enableDrawingMode] and [disableDrawingMode]: the class of [body], the
    button icon, then the interceptors.  (Swapping the desktop icons and
    placing the illustration touch none of the fields of [state].) *)
Definition enableDrawingMode (s : state) : outcome :=
  let s := set_body_drawn_mode true s in
  and_then (updateButtonIcon Computer s)
           (λ s, Returns (blockInteractions s)).

Definition disableDrawingMode (s : state) : outcome :=
  let s := set_body_drawn_mode false s in
  and_then (updateButtonIcon Pencil s)
           (λ s, Returns (unblockInteractions s)).

Definition savePreference (s : state) : state :=
  set_storage (Some (if isDrawingMode s then "enabled" else "disabled")) s.

Definition toggle (s : state) : outcome :=
  let s := set_mode (negb (isDrawingMode s)) s in
  and_then (if isDrawingMode s then enableDrawingMode s
            else disableDrawingMode s)
           (λ s, Returns (savePreference s)).

(** [loadSavedPreference] catches what its body throws. *)
Definition loadSavedPreference (s : state) : state :=
  match storage s with
  | Some v =>
    if String.eqb v "enabled"
    then
      let s := set_body_drawn_mode true s in
      let s := set_mode true s in
      match updateButtonIcon Computer s with
      | Returns s => blockInteractions s
      | Throws s => s
      end
    else s
  | None => s
  end.

(** [setup]; [button] is what [document.getElementById('drawingModeToggle')]
    finds.  Without the button it returns at once.  With it, it loads the
    preference, then listens for the Ctrl/Cmd+D shortcut with a new arrow
    function (the click listener goes on the button, not on [document]). *)
Definition setup (button : option (option icon)) (s : state) : state :=
  let s := set_toggleButton button s in
  match toggleButton s with
  | None => s
  | Some _ =>
    let s := loadSavedPreference s in
    let '(shortcut, s) := new_closure Foreign s in
    set_listeners (addEventListener "keydown" shortcut false (listeners s)) s
  end.

(** The manager once its constructor and [setup] have run, on a page with
    the toggle button [button] (if any) whose [document] carries the
    listeners [others] of the rest of the site. *)
Definition constructed (button : option (option icon))
    (saved : option string) (others : list listener) (fresh : nat) : state :=
  setup button
    {| isDrawingMode := false;
       interactionBlocker := None; keyBlocker := None;
       submitBlocker := None; contextMenuBlocker := None;
       body_drawn_mode := false; toggleButton := None;
       storage := saved; listeners := others; next_closure := fresh |}.

(** [n] calls of [toggle], one after the other; a call that throws leaves
    its writes behind. *)
Definition toggles (n : nat) (s : state) : state :=
  Nat.iter n (λ s, state_of (toggle s)) s.

(** The interceptors on [document]: the listeners whose callback was made by
    [blockInteractions]; and those of one event type. *)
Definition is_interceptor (x : listener) : bool :=
  bool_decide (cl_code (l_callback x) ≠ Foreign).

Definition interceptors (s : state) : list listener :=
  filter (λ x, is_interceptor x = true) (listeners s).

Definition interceptors_on (ty : string) (s : state) : list listener :=
  filter (λ x, l_type x = ty) (interceptors s).

(** A capture-phase listener, and the nine that one call of
    [blockInteractions] installs for its four new callbacks. *)
Definition capturing (cb : closure) (ty : string) : listener :=
  {| l_type := ty; l_callback := cb; l_capture := true |}.

Definition installed (f k b c : closure) : list listener :=
  (capturing f <$> click_family) ++ (capturing k <$> key_family) ++
  (capturing b <$> ["submit"]) ++ (capturing c <$> ["contextmenu"]).

(** What [removeEventListener] keeps when called for the capture-phase
    listeners of [cb] on [types]. *)
Definition kept (types : list string) (cb : closure) (x : listener) : Prop :=
  ¬ (l_callback x = cb ∧ l_capture x = true ∧ l_type x ∈ types).

(** The manager's view of its interceptors: the four callback fields. *)
Definition blockers (s : state) : list (option closure) :=
  [interactionBlocker s; keyBlocker s; submitBlocker s; contextMenuBlocker s].

(** The four function objects one call of [blockInteractions] creates. *)
Definition made (n : nat) : list closure :=
  [ {| cl_code := InteractionBlocker; cl_id := n |};
    {| cl_code := KeyBlocker; cl_id := n + 1 |};
    {| cl_code := SubmitBlocker; cl_id := n + 2 |};
    {| cl_code := ContextMenuBlocker; cl_id := n + 3 |} ].

(** None of the listeners is an interceptor. *)
Definition all_foreign (l : list listener) : Prop :=
  Forall (λ x, is_interceptor x = false) l.

(** The two states of the page.  Unfrozen: the flag is off, no callback is
    held and no interceptor is on [document].  Frozen: the flag is on, the
    four callbacks of one [blockInteractions] call are held and their nine
    listeners sit among listeners that are no interceptors. *)
Definition unfrozen (s : state) : Prop :=
  isDrawingMode s = false ∧ blockers s = [None; None; None; None] ∧
  all_foreign (listeners s).

Definition armed (pre post : list listener) (s : state) : Prop :=
  ∃ n, blockers s = Some <$> made n ∧
       listeners s = (pre ++
         installed {| cl_code := InteractionBlocker; cl_id := n |}
                   {| cl_code := KeyBlocker; cl_id := n + 1 |}
                   {| cl_code := SubmitBlocker; cl_id := n + 2 |}
                   {| cl_code := ContextMenuBlocker; cl_id := n + 3 |}
         ++ post)%list.

Definition frozen (s : state) : Prop :=
  isDrawingMode s = true ∧
  ∃ pre post, all_foreign pre ∧ all_foreign post ∧ armed pre post s.

(** The nine event types [blockInteractions] listens to. *)
Definition intercepted : list string :=
  click_family ++ key_family ++ ["submit"; "contextmenu"].

End Freeze.

(* ===================================================================== *)
(** * Notepad submissions and the gallery                                *)
(* ===================================================================== *)

Module Gallery.

Record drawing := { id : Z; dataURL : string; timestamp : string }.

(** A child of [#galleryGrid]: the "no drawings yet" paragraph, or a
    [div.gallery-item] holding an image and its caption. *)
Inductive node :=
  | Placeholder
  | Item (src alt caption : string).

Section Canvas.

(** The bitmap of a canvas, its encoding by [canvas.toDataURL(mime)], and the
    effect of filling it with white. *)
Variable bitmap : Type.
Variable toDataURL : string → bitmap → string.
Variable fill_white : bitmap → bitmap.

(** [this.drawings], [this.canvas] with its 2-D context, the children of
    [#galleryGrid] when that element exists, and the alerts shown. *)
Record apps := {
  drawings : list drawing;
  canvas : option bitmap;
  galleryGrid : option (list node);
  alerts : list string
}.

Definition alert (msg : string) (a : apps) : apps :=
  {| drawings := drawings a; canvas := canvas a;
     galleryGrid := galleryGrid a; alerts := alerts a ++ [msg] |}.

Definition clearNotepad (a : apps) : apps :=
  {| drawings := drawings a; canvas := fill_white <$> canvas a;
     galleryGrid := galleryGrid a; alerts := alerts a |}.

Definition render_item (index : nat) (d : drawing) : node :=
  Item (dataURL d) ("Drawing " ++ pretty (index + 1)%nat) (timestamp d).

Definition renderGallery (a : apps) : apps :=
  match galleryGrid a with
  | None => a
  | Some _ =>
    let children :=
      match drawings a with
      | [] => [Placeholder]
      | _ => imap render_item (drawings a)
      end in
    {| drawings := drawings a; canvas := canvas a;
       galleryGrid := Some children; alerts := alerts a |}
  end.

(** [openGallery] shows the gallery window (the window manager's business)
    and renders. *)
Definition openGallery (a : apps) : apps := renderGallery a.

(** [now] is [Date.now()] and [stamp] is [new Date().toLocaleString()]. *)
Definition submitDrawing (now : Z) (stamp : string) (a : apps) : apps :=
  match canvas a with
  | None => alert "No drawing to submit!" a
  | Some c =>
    let dataURL := toDataURL "image/png" c in
    let drawing := {| id := now; dataURL := dataURL; timestamp := stamp |} in
    let a := {| drawings := drawings a ++ [drawing]; canvas := canvas a;
                galleryGrid := galleryGrid a; alerts := alerts a |} in
    let a := clearNotepad a in
    let a := openGallery a in
    alert "Drawing submitted to gallery!" a
  end.

(** The operations of the session that can reach [this.drawings]. *)
Inductive op :=
  | Submit (now : Z) (stamp : string)
  | Clear
  | Open
  | Render.

Definition step (a : apps) (o : op) : apps :=
  match o with
  | Submit now stamp => submitDrawing now stamp a
  | Clear => clearNotepad a
  | Open => openGallery a
  | Render => renderGallery a
  end.

Definition run (os : list op) (a : apps) : apps := fold_left step os a.

(** The [div.gallery-item] children of the grid. *)
Definition is_item (n : node) : bool :=
  match n with Item _ _ _ => true | Placeholder => false end.

Definition gallery_items (a : apps) : list node :=
  match galleryGrid a with
  | Some children => filter (λ n, is_item n = true) children
  | None => []
  end.

End Canvas.

Arguments drawings {bitmap} a.
Arguments canvas {bitmap} a.
Arguments galleryGrid {bitmap} a.
Arguments alerts {bitmap} a.
Arguments renderGallery {bitmap} a.
Arguments gallery_items {bitmap} a.

End Gallery.

(* ===================================================================== *)
(** * The pixel filter                                                   *)
(* ===================================================================== *)

Module Sketch.

(** ** JavaScript numbers: IEEE 754 binary64 *)

Definition prec : Z := 53.
Definition emax : Z := 1024.

Abbreviation number := spec_float.
Abbreviation NaN := S754_nan.

Definition add : number → number → number := SFadd prec emax.
Definition sub : number → number → number := SFsub prec emax.
Definition mul : number → number → number := SFmul prec emax.
Definition div : number → number → number := SFdiv prec emax.
Definition sqrt : number → number := SFsqrt prec emax.

(** An integer as a number (exact up to 2^53). *)
Definition of_Z (z : Z) : number := binary_normalize prec emax z 0 false.

(** The decimal literal [n/1000]: division rounds correctly, so the quotient
    of the exact numbers [n] and [1000] is the double the literal denotes. *)
Definition thousandths (n : Z) : number := div (of_Z n) (of_Z 1000).

(** [a > b] *)
Definition gt (a b : number) : bool := SFltb b a.

(** [Math.max(a, b)] and [Math.min(a, b)]: [NaN] if either is, and [+0]
    counts as larger than [-0]. *)
Definition Math_max (a b : number) : number :=
  match SFcompare a b with
  | None => NaN
  | Some Lt => b
  | Some Gt => a
  | Some Eq => match a with S754_zero true => b | _ => a end
  end.

Definition Math_min (a b : number) : number :=
  match SFcompare a b with
  | None => NaN
  | Some Lt => a
  | Some Gt => b
  | Some Eq => match a with S754_zero false => b | _ => a end
  end.

(** ** Pixel buffers

    [ImageData.data] is a [Uint8ClampedArray]: reading gives an integer in
    [0, 255], reading out of range gives [undefined] (a [NaN] in arithmetic),
    writing converts the number by clamping to [0, 255] and rounding to the
    nearest integer, ties to even, and writing out of range does nothing. *)

(** [m * 2^e] rounded to the nearest integer, ties to even. *)
Definition round_half_even (m : positive) (e : Z) : Z :=
  match e with
  | Zneg p =>
    let d := Z.pow_pos 2 p in
    let q := (Zpos m / d)%Z in
    let r := (Zpos m mod d)%Z in
    match (2 * r ?= d)%Z with
    | Lt => q
    | Gt => (q + 1)%Z
    | Eq => if Z.even q then q else (q + 1)%Z
    end
  | _ => (Zpos m * 2 ^ e)%Z
  end.

Definition to_uint8_clamp (v : number) : Z :=
  match v with
  | S754_nan => 0
  | S754_zero _ => 0
  | S754_infinity s => if s then 0 else 255
  | S754_finite true _ _ => 0
  | S754_finite false m e => Z.min 255 (round_half_even m e)
  end.

Definition get (data : list Z) (i : nat) : number :=
  match data !! i with
  | Some b => of_Z b
  | None => NaN
  end.

Definition put (i : nat) (v : number) (out : list Z) : list Z :=
  <[i := to_uint8_clamp v]> out.

(** The canvas bitmap read by [getImageData]: [4 * width * height] bytes,
    row by row, four per pixel. *)
Record image := { width : nat; height : nat; data : list Z }.

(** [ctx.createImageData(width, height)]: transparent black. *)
Definition createImageData (width height : nat) : list Z :=
  replicate (4 * width * height) 0%Z.

(** ** The filter *)

(** [data[i] * 0.299 + data[i + 1] * 0.587 + data[i + 2] * 0.114] *)
Definition gray_at (data : list Z) (i : nat) : number :=
  add (add (mul (get data i) (thousandths 299))
           (mul (get data (i + 1)) (thousandths 587)))
      (mul (get data (i + 2)) (thousandths 114)).

Definition index (width x y : nat) : nat := (y * width + x) * 4.

Definition threshold : number := of_Z 30.

(** The gradient magnitude at pixel [(x, y)]; the loops call it with
    [x >= 1] and [y >= 1]. *)
Definition magnitude (data : list Z) (width x y : nat) : number :=
  let tl := index width (x - 1) (y - 1) in
  let tr := index width (x + 1) (y - 1) in
  let bl := index width (x - 1) (y + 1) in
  let br := index width (x + 1) (y + 1) in
  let grayTL := gray_at data tl in
  let grayTR := gray_at data tr in
  let grayBL := gray_at data bl in
  let grayBR := gray_at data br in
  let gx := sub (add grayTR grayBR) (add grayTL grayBL) in
  let gy := sub (add grayBL grayBR) (add grayTL grayTR) in
  sqrt (add (mul gx gx) (mul gy gy)).

Definition isEdge (data : list Z) (width x y : nat) : bool :=
  gt (magnitude data width x y) threshold.

(** The [value] the loop body computes for pixel [(x, y)]. *)
Definition value (data : list Z) (width x y : nat) : number :=
  let gray := gray_at data (index width x y) in
  if isEdge data width x y
  then Math_max (of_Z 0) (sub (of_Z 255) (magnitude data width x y))
  else Math_min (of_Z 255) (add gray (of_Z 30)).

(** The body of the inner loop. *)
Definition process_pixel (data : list Z) (width : nat) (out : list Z)
    (p : nat * nat) : list Z :=
  let '(x, y) := p in
  let idx := index width x y in
  let v := value data width x y in
  put (idx + 3) (of_Z 255) (put (idx + 2) v (put (idx + 1) v (put idx v out))).

(** [for (let x = 1; x < width - 1; x++)] *)
Definition process_row (data : list Z) (width : nat) (out : list Z)
    (y : nat) : list Z :=
  fold_left (λ out x, process_pixel data width out (x, y))
            (seq 1 (width - 2)) out.

(** The output buffer handed to [putImageData]. *)
Definition applySketchFilter (img : image) : list Z :=
  fold_left (process_row (data img) (width img))
            (seq 1 (height img - 2))
            (createImageData (width img) (height img)).

(** The bytes of [getImageData] for a frame of the right size. *)
Definition well_formed (img : image) : Prop :=
  length (data img) = (4 * width img * height img)%nat ∧
  Forall (λ b, 0 ≤ b ≤ 255)%Z (data img).

Definition interior (img : image) (x y : nat) : Prop :=
  (1 ≤ x ∧ x + 1 < width img ∧ 1 ≤ y ∧ y + 1 < height img)%nat.

Definition border (img : image) (x y : nat) : Prop :=
  (x < width img ∧ y < height img)%nat ∧
  (x = 0 ∨ y = 0 ∨ x + 1 = width img ∨ y + 1 = height img)%nat.

(** A frame all of whose pixels have the colour [(r, g, b)]. *)
Definition uniform (img : image) (r g b : Z) : Prop :=
  ∀ k, (k < width img * height img)%nat →
    data img !! (4 * k)%nat = Some r ∧
    data img !! (4 * k + 1)%nat = Some g ∧
    data img !! (4 * k + 2)%nat = Some b.

(** The luminance of the colour [(r, g, b)]. *)
Definition luminance (r g b : Z) : number :=
  add (add (mul (of_Z r) (thousandths 299)) (mul (of_Z g) (thousandths 587)))
      (mul (of_Z b) (thousandths 114)).

(** The pixels the two loops visit, in visiting order. *)
Definition visited (width height : nat) : list (nat * nat) :=
  y ← seq 1 (height - 2); (λ x, (x, y)) <$> seq 1 (width - 2).

(** Byte [i] belongs to pixel [p]. *)
Definition covers (width : nat) (p : nat * nat) (i : nat) : Prop :=
  (index width p.1 p.2 ≤ i < index width p.1 p.2 + 4)%nat.

(** A frame filled with one RGBA pixel. *)
Definition solid (width height : nat) (r g b a : Z) : image :=
  {| width := width; height := height;
     data := mjoin (replicate (width * height) [r; g; b; a]) |}.

End Sketch.

(* ===================================================================== *)
(** * Concrete pages and frames                                          *)
(* ===================================================================== *)

Module Examples.

Import WM.

(** A hidden window with a header and no inline position. *)
Definition window : element :=
  {| el_active := false; el_left := None; el_top := None;
     el_transform := ""; el_margin := ""; el_transition := "";
     el_zIndex := None;
     el_header := Some {| hd_cursor := ""; hd_userSelect := "";
                          hd_webkitUserSelect := ""; hd_touchAction := "";
                          hd_listeners := 0 |};
     el_listeners := 0 |}.

(** A window the page has placed at [(x, y)]. *)
Definition window_at (x y : Q) : element := set_position x y window.

(** A desktop of the given viewport with a gallery window at [(100, 100)]
    and a notepad window, and a fresh manager. *)
Definition desktop (vw vh : Q) : sys :=
  {| mgr := init_manager;
     dom := {| elements := {[ "galleryWindow" := window_at 100 100;
                              "notepadWindow" := window ]};
               innerWidth := vw; innerHeight := vh;
               doc_listeners := [];
               body_userSelect := ""; body_webkitUserSelect := "";
               timers := 0 |} |}.

(** A layout engine for windows of one fixed size: a window sits at its
    inline position, or centered when it has none. *)
Definition sized (w h : Q) (b : browser) (id : string) : rect :=
  match elements b !! id with
  | Some el =>
    {| r_left := default ((innerWidth b - w) / 2)%Q (el_left el);
       r_top := default ((innerHeight b - h) / 2)%Q (el_top el);
       r_width := w; r_height := h |}
  | None => {| r_left := 0; r_top := 0; r_width := 0; r_height := 0 |}
  end.

Definition never_hidden (b : browser) (id : string) : bool := false.

Definition pointer (x y : Q) : pointer_event :=
  {| clientX := x; clientY := y;
     defaultPrevented := false; propagationStopped := false |}.

(** The toggle button of the page, showing the pencil. *)
Definition toggle_button : option (option Freeze.icon) :=
  Some (Some Freeze.Pencil).

(** The listener of the desktop that closes the context menu on a click,
    one that is no interceptor. *)
Definition menu_closer : Freeze.listener :=
  {| Freeze.l_type := "click";
     Freeze.l_callback := {| Freeze.cl_code := Freeze.Foreign;
                             Freeze.cl_id := 0 |};
     Freeze.l_capture := false |}.

(** A 3 by 3 frame, black but for a grey top-right pixel. *)
Definition corner_frame : Sketch.image :=
  {| Sketch.width := 3; Sketch.height := 3;
     Sketch.data :=
       [0; 0; 0; 255;   0; 0; 0; 255;   100; 100; 100; 255;
        0; 0; 0; 255;   0; 0; 0; 255;   0; 0; 0; 255;
        0; 0; 0; 255;   0; 0; 0; 255;   0; 0; 0; 255]%Z |}.

(** A notepad with a drawing on its canvas and an empty gallery; bitmaps
    are given by their base64 text. *)
Definition encode (mime bitmap : string) : string :=
  "data:" ++ mime ++ ";base64," ++ bitmap.

Definition notepad : Gallery.apps string :=
  {| Gallery.drawings := []; Gallery.canvas := Some "iVBORw0KGgo=";
     Gallery.galleryGrid := Some []; Gallery.alerts := [] |}.

End Examples.

(* ===================================================================== *)
(** * The window manager: resizing, hiding, resetting                    *)
(* ===================================================================== *)

Module Windows.

Import WM.

(** [style.left = ''; style.top = ''; style.transform = '';] *)
Definition clear_position (el : element) : element :=
  {| el_active := el_active el;
     el_left := None; el_top := None;
     el_transform := ""; el_margin := el_margin el;
     el_transition := el_transition el; el_zIndex := el_zIndex el;
     el_header := el_header el; el_listeners := el_listeners el |}.

Definition set_timers (n : nat) (b : browser) : browser :=
  {| elements := elements b;
     innerWidth := innerWidth b; innerHeight := innerHeight b;
     doc_listeners := doc_listeners b;
     body_userSelect := body_userSelect b;
     body_webkitUserSelect := body_webkitUserSelect b;
     timers := n |}.

(** [a < b] on pixel lengths. *)
Definition Qltb (a b : Q) : bool := negb (Qle_bool b a).

(** [rect.left < -100 || rect.top < 0 ||
     rect.right > window.innerWidth + 100 ||
     rect.bottom > window.innerHeight + 100] *)
Definition out_of_bounds (b : browser) (r : rect) : bool :=
  Qltb (r_left r) (-100) || Qltb (r_top r) 0 ||
  Qltb (innerWidth b + 100) (r_left r + r_width r) ||
  Qltb (innerHeight b + 100) (r_top r + r_height r).

(** The three listeners [startDrag] puts on [document]. *)
Definition drag_listeners : list (string * doc_handler) :=
  [("pointermove", HandleDrag); ("pointerup", StopDrag);
   ("pointercancel", StopDrag)].

Section Methods.

Variable layout : browser → string → rect.
Variable display_none : browser → string → bool.

(** The callback of [this.windows.forEach] in [handleResize]. *)
Definition resize_window (windowId : string) (s : sys) : sys :=
  if is_active (dom s) windowId then
    let rect := layout (dom s) windowId in
    if out_of_bounds (dom s) rect
    then centerWindowNow layout (Some windowId) s
    else s
  else s.

(** [handleResize]; [order] is the keys of [this.windows] in insertion
    order, the order in which a [Map] is traversed. *)
Definition handleResize (order : list string) (s : sys) : sys :=
  fold_left (λ s windowId, resize_window windowId s) order s.

(** [initializeWindows]; [found] is the result of
    [querySelectorAll('.app-window, .browser-window')]. *)
Definition initializeWindows (found : list string) (s : sys) : sys :=
  fold_left (λ s w,
    makeWindowDraggable (Some w) (setupWindow layout display_none (Some w) s))
    found s.


Definition centerWindow (windowId : string) (s : sys) : sys :=
  match elements (dom s) !! windowId with
  | None => s
  | Some _ => centerWindowNow layout (Some windowId) s
  end.

Definition resetWindowPosition (windowId : string) (s : sys) : sys :=
  match elements (dom s) !! windowId with
  | None => s
  | Some _ =>
    setupWindow layout display_none (Some windowId)
      (with_dom (update_element windowId clear_position) s)
  end.

End Methods.

(** The callback [stopDrag] hands to [setTimeout]:
    [if (this.activeWindow) this.activeWindow.style.transition = '';] *)
Definition restore_transition (s : sys) : sys :=
  match activeWindow (mgr s) with
  | Some w => with_dom (update_element w (set_transition "")) s
  | None => s
  end.

(** A pending timer fires. *)
Definition fire_timer (s : sys) : sys :=
  match timers (dom s) with
  | O => s
  | S n => restore_transition (with_dom (set_timers n) s)
  end.

(** The layout of a window depends on its own element and the viewport
    only (windows are positioned independently of each other). *)
Definition local_layout (layout : browser → string → rect) : Prop :=
  ∀ b b' w,
    elements b !! w = elements b' !! w →
    innerWidth b = innerWidth b' → innerHeight b = innerHeight b' →
    layout b w = layout b' w.

Definition transition_of (s : sys) (w : string) : option string :=
  el_transition <$> elements (dom s) !! w.

Definition stored_zIndex (s : sys) (w : string) : option Z :=
  zIndex <$> windows (mgr s) !! w.


End Windows.

(* ===================================================================== *)
(** * What the interceptors do to an event                               *)
(* ===================================================================== *)

Module Blockers.

Import Freeze.

(** An event on its way through [document]: its type, the ids of its target
    and of the target's ancestors (innermost first), what the key handlers
    read of it, and the three flags its methods set. *)
Record event := {
  ev_type : string;
  ev_path : list string;
  ev_tagName : string;
  ev_isContentEditable : bool;
  ev_key : string;
  ev_metaKey : bool;
  ev_ctrlKey : bool;
  ev_defaultPrevented : bool;
  ev_propagationStopped : bool;
  ev_immediateStopped : bool
}.

Definition preventDefault (e : event) : event :=
  {| ev_type := ev_type e; ev_path := ev_path e; ev_tagName := ev_tagName e;
     ev_isContentEditable := ev_isContentEditable e; ev_key := ev_key e;
     ev_metaKey := ev_metaKey e; ev_ctrlKey := ev_ctrlKey e;
     ev_defaultPrevented := true;
     ev_propagationStopped := ev_propagationStopped e;
     ev_immediateStopped := ev_immediateStopped e |}.

Definition stopPropagation (e : event) : event :=
  {| ev_type := ev_type e; ev_path := ev_path e; ev_tagName := ev_tagName e;
     ev_isContentEditable := ev_isContentEditable e; ev_key := ev_key e;
     ev_metaKey := ev_metaKey e; ev_ctrlKey := ev_ctrlKey e;
     ev_defaultPrevented := ev_defaultPrevented e;
     ev_propagationStopped := true;
     ev_immediateStopped := ev_immediateStopped e |}.

(** [stopImmediatePropagation] also stops the propagation. *)
Definition stopImmediatePropagation (e : event) : event :=
  {| ev_type := ev_type e; ev_path := ev_path e; ev_tagName := ev_tagName e;
     ev_isContentEditable := ev_isContentEditable e; ev_key := ev_key e;
     ev_metaKey := ev_metaKey e; ev_ctrlKey := ev_ctrlKey e;
     ev_defaultPrevented := ev_defaultPrevented e;
     ev_propagationStopped := true;
     ev_immediateStopped := true |}.

(** [e.target.closest('#' + id)] is not [null]. *)
Definition closest (id : string) (e : event) : bool :=
  bool_decide (id ∈ ev_path e).

Definition interactionBlocker (e : event) : event :=
  if closest "drawingModeToggle" e then e
  else if closest "drawnComputerWindow" e then e
  else if closest "cameraWindow" e || closest "notepadWindow" e ||
          closest "galleryWindow" e || closest "cameraIcon" e ||
          closest "notepadIcon" e || closest "galleryIcon" e
  then e
  else stopImmediatePropagation (stopPropagation (preventDefault e)).

Definition keyBlocker (e : event) : event :=
  if (ev_metaKey e || ev_ctrlKey e) && String.eqb (ev_key e) "d" then e
  else if String.eqb (ev_tagName e) "INPUT" ||
          String.eqb (ev_tagName e) "TEXTAREA" ||
          ev_isContentEditable e
  then stopPropagation (preventDefault e)
  else e.

Definition submitBlocker (e : event) : event :=
  stopPropagation (preventDefault e).

Definition contextMenuBlocker (e : event) : event :=
  if negb (closest "drawingModeToggle" e) then preventDefault e else e.

(** Calling a function object made by [blockInteractions].  The bodies of
    the callbacks of other code are not part of this development. *)
Definition call (c : closure) (e : event) : event :=
  match cl_code c with
  | InteractionBlocker => interactionBlocker e
  | KeyBlocker => keyBlocker e
  | SubmitBlocker => submitBlocker e
  | ContextMenuBlocker => contextMenuBlocker e
  | Foreign => e
  end.

(** The interceptors registered for the type of the event run in
    registration order, until one stops the immediate propagation. *)
Definition run_interceptors (e : event) (s : state) : event :=
  fold_left (λ e l, if ev_immediateStopped e then e else call (l_callback l) e)
            (interceptors_on (ev_type e) s) e.

(** The elements whose events the click interceptor lets through. *)
Definition allow_list : list string :=
  ["drawingModeToggle"; "drawnComputerWindow"; "cameraWindow";
   "notepadWindow"; "galleryWindow"; "cameraIcon"; "notepadIcon";
   "galleryIcon"].

Definition allowed (e : event) : bool :=
  existsb (λ id, closest id e) allow_list.

Definition shortcut (e : event) : bool :=
  (ev_metaKey e || ev_ctrlKey e) && String.eqb (ev_key e) "d".

Definition text_target (e : event) : bool :=
  String.eqb (ev_tagName e) "INPUT" || String.eqb (ev_tagName e) "TEXTAREA" ||
  ev_isContentEditable e.

(** The interceptor, if any, that [blockInteractions] registers for an event
    type. *)
Definition blocker_for (ty : string) : option code :=
  if bool_decide (ty ∈ click_family) then Some InteractionBlocker
  else if bool_decide (ty ∈ key_family) then Some KeyBlocker
  else if String.eqb ty "submit" then Some SubmitBlocker
  else if String.eqb ty "contextmenu" then Some ContextMenuBlocker
  else None.

End Blockers.

(* ===================================================================== *)
(** * The mode, what the page shows of it, and what is stored            *)
(* ===================================================================== *)

Module Mode.

Import Freeze.



(** The state but for the listeners, the callback fields and the function
    identities. *)
Definition rest (s : state)
    : bool * bool * option (option icon) * option string :=
  (isDrawingMode s, body_drawn_mode s, toggleButton s, storage s).

(** The nine listeners of the four callbacks that a call of
    [blockInteractions] makes when the next function identity is [n]. *)
Definition installed_by (n : nat) : list listener :=
  installed {| cl_code := InteractionBlocker; cl_id := n |}
            {| cl_code := KeyBlocker; cl_id := n + 1 |}
            {| cl_code := SubmitBlocker; cl_id := n + 2 |}
            {| cl_code := ContextMenuBlocker; cl_id := n + 3 |}.

(** Every interceptor on [document] was made before the next function
    identity. *)
Definition older (s : state) : Prop :=
  ∀ x, x ∈ listeners s → cl_code (l_callback x) ≠ Foreign →
    (cl_id (l_callback x) < next_closure s)%nat.

End Mode.

(* ===================================================================== *)
(** * The desktop icons in drawing mode                                  *)
(* ===================================================================== *)

Module Icons.

(** The [.icon-image] child of a desktop icon: its text and the inline
    background styles the manager writes. *)
Record icon_image := {
  textContent : string;
  backgroundImage : string;
  backgroundSize : string;
  backgroundRepeat : string;
  backgroundPosition : string
}.

(** [icons] maps the id of an element to its [.icon-image] child ([None]
    when it has none); [originalIcons] is the object of that name, its keys
    in insertion order. *)
Record page := {
  icons : gmap string (option icon_image);
  originalIcons : list (string * string)
}.

(** [obj[key] = value]: an existing key keeps its place. *)
Fixpoint assign (key value : string) (obj : list (string * string))
    : list (string * string) :=
  match obj with
  | [] => [(key, value)]
  | (k, v) :: rest =>
    if String.eqb k key then (k, value) :: rest
    else (k, v) :: assign key value rest
  end.

(** Reading [obj[key]]. *)
Fixpoint read (key : string) (obj : list (string * string)) : option string :=
  match obj with
  | [] => None
  | (k, v) :: rest => if String.eqb k key then Some v else read key rest
  end.

(** The ids and image paths of [iconMappings]. *)
Definition iconMappings : list (string * string) :=
  [ ("cameraIcon", "assets/drawn/drawn-camera.png");
    ("notepadIcon", "assets/drawn/drawn-pencil.png");
    ("galleryIcon", "assets/drawn/drawn-gallery-frame.png") ].

Definition drawn (imagePath : string) : icon_image :=
  {| textContent := "";
     backgroundImage := "url('" ++ imagePath ++ "')";
     backgroundSize := "contain";
     backgroundRepeat := "no-repeat";
     backgroundPosition := "center" |}.

(** The callback of [iconMappings.forEach] in [swapToDrawnIcons]. *)
Definition swap_icon (p : page) (mapping : string * string) : page :=
  let '(id, imagePath) := mapping in
  match icons p !! id with
  | Some (Some iconImage) =>
    {| icons := <[id := Some (drawn imagePath)]> (icons p);
       originalIcons := assign id (textContent iconImage) (originalIcons p) |}
  | _ => p
  end.

Definition swapToDrawnIcons (p : page) : page :=
  fold_left swap_icon iconMappings p.

Definition restored (text : string) (iconImage : icon_image) : icon_image :=
  {| textContent := text;
     backgroundImage := "";
     backgroundSize := backgroundSize iconImage;
     backgroundRepeat := backgroundRepeat iconImage;
     backgroundPosition := backgroundPosition iconImage |}.

(** The callback of [Object.keys(this.originalIcons).forEach] in
    [restoreOriginalIcons]; the object is not written during the loop. *)
Definition restore_icon (saved : list (string * string)) (p : page)
    (iconId : string) : page :=
  match icons p !! iconId with
  | Some (Some iconImage) =>
    {| icons := <[iconId := Some (restored (default "" (read iconId saved))
                                          iconImage)]> (icons p);
       originalIcons := originalIcons p |}
  | _ => p
  end.

Definition restoreOriginalIcons (p : page) : page :=
  let saved := originalIcons p in
  let p := fold_left (restore_icon saved) saved.*1 p in
  {| icons := icons p; originalIcons := [] |}.

(** The text an icon shows, if the icon and its image element exist. *)
Definition text_of (p : page) (id : string) : option string :=
  match icons p !! id with
  | Some (Some iconImage) => Some (textContent iconImage)
  | _ => None
  end.

Definition background_of (p : page) (id : string) : option string :=
  match icons p !! id with
  | Some (Some iconImage) => Some (backgroundImage iconImage)
  | _ => None
  end.

Definition mapped (id : string) : bool :=
  bool_decide (id ∈ iconMappings.*1).

End Icons.

(* ===================================================================== *)
(** * The drawn computer illustration                                    *)
(* ===================================================================== *)

Module Illustration.

(** The [#drawnComputerWindow] element: its inline position and selection
    styles, and the number of its [pointerdown] listeners. *)
Record illustration := {
  left : option Q;
  top : option Q;
  userSelect : string;
  webkitUserSelect : string;
  touchAction : string;
  pointerdown_listeners : nat
}.

(** The viewport, the illustration if the page has it, and whether
    [window.windowManager] is set. *)
Record page := {
  innerWidth : Q;
  innerHeight : Q;
  drawnComputer : option illustration;
  windowManager : bool
}.

(** [WindowManager.makeDrawnComputerDraggable] on an element that exists:
    every call adds a listener with a new arrow function. *)
Definition makeDrawnComputerDraggable (el : illustration) : illustration :=
  {| left := left el; top := top el;
     userSelect := "none"; webkitUserSelect := "none"; touchAction := "none";
     pointerdown_listeners := S (pointerdown_listeners el) |}.

Definition set_position (x y : Q) (el : illustration) : illustration :=
  {| left := Some x; top := Some y;
     userSelect := userSelect el; webkitUserSelect := webkitUserSelect el;
     touchAction := touchAction el;
     pointerdown_listeners := pointerdown_listeners el |}.

Definition showDrawnComputer (p : page) : page :=
  match drawnComputer p with
  | None => p
  | Some el =>
    let imgWidth := 900%Q in
    let imgHeight := 600%Q in
    let centerX := ((innerWidth p - imgWidth) / 2)%Q in
    let centerY := ((innerHeight p - imgHeight) / 2)%Q in
    let el := set_position (Qmax 0 centerX) (Qmax 0 centerY) el in
    let el := if windowManager p then makeDrawnComputerDraggable el else el in
    {| innerWidth := innerWidth p; innerHeight := innerHeight p;
       drawnComputer := Some el; windowManager := windowManager p |}
  end.

End Illustration.

(* ===================================================================== *)
(** * Drawing on the notepad                                             *)
(* ===================================================================== *)

Module Notepad.

(** A mouse event on the canvas, with the bounding rectangle the canvas has
    when the handler reads it. *)
Record pen_event := {
  clientX : Q; clientY : Q;
  rect_left : Q; rect_top : Q
}.

(** A stroke segment as [draw] hands it to the 2-D context. *)
Record segment := {
  from_x : Q; from_y : Q; to_x : Q; to_y : Q;
  strokeStyle : string; lineWidth : Z
}.

(** The pen fields of [DesktopApps], whether [this.canvas] (with its
    context) is set, the segments stroked so far, and the values of the
    colour and size inputs when the page has them. *)
Record pad := {
  isDrawing : bool;
  lastX : Q;
  lastY : Q;
  canvas : bool;
  strokes : list segment;
  penColor : option string;
  penSize : option Z
}.

(** How a handler ends: it returns, or reading [this.canvas] while it is
    [null] throws. *)
Inductive outcome := Returns (p : pad) | Throws (p : pad).

Definition state_of (o : outcome) : pad :=
  match o with Returns p | Throws p => p end.

Definition set_isDrawing (d : bool) (p : pad) : pad :=
  {| isDrawing := d; lastX := lastX p; lastY := lastY p;
     canvas := canvas p; strokes := strokes p;
     penColor := penColor p; penSize := penSize p |}.

Definition startDrawing (e : pen_event) (p : pad) : outcome :=
  let p := set_isDrawing true p in
  if canvas p then
    Returns {| isDrawing := isDrawing p;
               lastX := clientX e - rect_left e;
               lastY := clientY e - rect_top e;
               canvas := canvas p; strokes := strokes p;
               penColor := penColor p; penSize := penSize p |}
  else Throws p.

Definition draw (e : pen_event) (p : pad) : outcome :=
  if negb (isDrawing p) then Returns p
  else if canvas p then
    let x := (clientX e - rect_left e)%Q in
    let y := (clientY e - rect_top e)%Q in
    let color := default "#000000" (penColor p) in
    let size := default 3%Z (penSize p) in
    Returns {| isDrawing := isDrawing p;
               lastX := x; lastY := y;
               canvas := canvas p;
               strokes := strokes p ++
                 [ {| from_x := lastX p; from_y := lastY p;
                      to_x := x; to_y := y;
                      strokeStyle := color; lineWidth := size |} ];
               penColor := penColor p; penSize := penSize p |}
  else Throws p.

Definition stopDrawing (p : pad) : pad := set_isDrawing false p.

(** A pen stroke: press, the moves in order, release. *)
Definition stroke (down : pen_event) (moves : list pen_event) (p : pad)
    : pad :=
  stopDrawing
    (fold_left (λ p e, state_of (draw e p)) moves
               (state_of (startDrawing down p))).

(** The segments join end to start, beginning at [(x, y)]. *)
Fixpoint chained (x y : Q) (l : list segment) : Prop :=
  match l with
  | [] => True
  | s :: l => from_x s = x ∧ from_y s = y ∧ chained (to_x s) (to_y s) l
  end.

(** Where the line drawn so far ends. *)
Definition end_of (x y : Q) (l : list segment) : Q * Q :=
  match last l with
  | Some s => (to_x s, to_y s)
  | None => (x, y)
  end.

End Notepad.

(* ===================================================================== *)
(** * More concrete pages and events                                     *)
(* ===================================================================== *)

Module Scenes.

Import Examples.

(** The desktop with its gallery window open at [(1150, 100)], past the
    right edge of a 1200 by 800 viewport. *)
Definition stray_desktop : WM.sys :=
  WM.with_dom
    (WM.update_element "galleryWindow"
       (λ el, WM.set_active true (WM.set_position 1150 100 el)))
    (desktop 1200 800).

(** The page as a visitor who left it in drawing mode finds it again. *)
Definition frozen_page : Freeze.state :=
  Freeze.constructed toggle_button (Some "enabled") [menu_closer] 1.

(** An event of type [ty] whose target lies in the elements [path]. *)
Definition event_on (ty : string) (path : list string) : Blockers.event :=
  {| Blockers.ev_type := ty; Blockers.ev_path := path;
     Blockers.ev_tagName := "DIV"; Blockers.ev_isContentEditable := false;
     Blockers.ev_key := ""; Blockers.ev_metaKey := false;
     Blockers.ev_ctrlKey := false; Blockers.ev_defaultPrevented := false;
     Blockers.ev_propagationStopped := false;
     Blockers.ev_immediateStopped := false |}.

(** The key [key] pressed in an input field inside the elements [path]. *)
Definition typing (key : string) (path : list string) : Blockers.event :=
  {| Blockers.ev_type := "keydown"; Blockers.ev_path := path;
     Blockers.ev_tagName := "INPUT"; Blockers.ev_isContentEditable := false;
     Blockers.ev_key := key; Blockers.ev_metaKey := false;
     Blockers.ev_ctrlKey := false; Blockers.ev_defaultPrevented := false;
     Blockers.ev_propagationStopped := false;
     Blockers.ev_immediateStopped := false |}.

(** The corner frame with every pixel fully transparent. *)
Definition clear_corner_frame : Sketch.image :=
  {| Sketch.width := 3; Sketch.height := 3;
     Sketch.data :=
       [0; 0; 0; 0;   0; 0; 0; 0;   100; 100; 100; 0;
        0; 0; 0; 0;   0; 0; 0; 0;   0; 0; 0; 0;
        0; 0; 0; 0;   0; 0; 0; 0;   0; 0; 0; 0]%Z |}.

(** A strip two pixels wide. *)
Definition strip : Sketch.image := Sketch.solid 2 5 200 200 200 255.

(** The three desktop icons with their emoji, and a trash icon. *)
Definition emoji (text : string) : option Icons.icon_image :=
  Some {| Icons.textContent := text; Icons.backgroundImage := "";
          Icons.backgroundSize := ""; Icons.backgroundRepeat := "";
          Icons.backgroundPosition := "" |}.

Definition desk_icons : Icons.page :=
  {| Icons.icons := {[ "cameraIcon" := emoji "camera";
                       "notepadIcon" := emoji "pencil";
                       "galleryIcon" := emoji "frame";
                       "trashIcon" := emoji "bin" ]};
     Icons.originalIcons := [] |}.

(** The illustration before its first showing, on an 800 by 500
    viewport. *)
Definition hidden_computer : Illustration.illustration :=
  {| Illustration.left := None; Illustration.top := None;
     Illustration.userSelect := ""; Illustration.webkitUserSelect := "";
     Illustration.touchAction := "";
     Illustration.pointerdown_listeners := 0 |}.

Definition small_screen : Illustration.page :=
  {| Illustration.innerWidth := 800; Illustration.innerHeight := 700;
     Illustration.drawnComputer := Some hidden_computer;
     Illustration.windowManager := true |}.

(** An empty notepad with its canvas at [(40, 60)], and a pen event
    there. *)
Definition blank_pad : Notepad.pad :=
  {| Notepad.isDrawing := false; Notepad.lastX := 0; Notepad.lastY := 0;
     Notepad.canvas := true; Notepad.strokes := [];
     Notepad.penColor := Some "#ff0000"; Notepad.penSize := None |}.

Definition pen (x y : Q) : Notepad.pen_event :=
  {| Notepad.clientX := x; Notepad.clientY := y;
     Notepad.rect_left := 40; Notepad.rect_top := 60 |}.

End Scenes.

(* ===================================================================== *)
(** * Facts about the window manager                                     *)
(* ===================================================================== *)

Section WMFacts.

Import WM.

Variable layout : browser → string → rect.
Variable display_none : browser → string → bool.

(** ** Frames: what each method leaves alone *)

Lemma lookup_update_element w f b :
  elements (update_element w f b) !! w = f <$> elements b !! w.
Proof. unfold update_element; simpl. by rewrite lookup_alter_eq. Qed.

Lemma lookup_update_element_ne w w' f b :
  w ≠ w' → elements (update_element w f b) !! w' = elements b !! w'.
Proof. intros ?. unfold update_element; simpl. by rewrite lookup_alter_ne. Qed.

(** ** The drag controller *)

Lemma bringToFront_dom w s :
  dom (bringToFront (Some w) s)
  = update_element w (set_zIndex (currentZIndex (mgr s) + 1)) (dom s).
Proof. unfold bringToFront; simpl. by destruct (windows (mgr s) !! w). Qed.

Lemma bringToFront_isDragging w s :
  isDragging (mgr (bringToFront (Some w) s)) = isDragging (mgr s).
Proof. unfold bringToFront; simpl. by destruct (windows (mgr s) !! w). Qed.

Lemma bringToFront_activeWindow w s :
  activeWindow (mgr (bringToFront (Some w) s)) = activeWindow (mgr s).
Proof. unfold bringToFront; simpl. by destruct (windows (mgr s) !! w). Qed.

Lemma startDrag_dragging w down s :
  is_Some (elements (dom s) !! w) →
  dragging w (innerWidth (dom s)) (innerHeight (dom s))
           (startDrag layout w down s).1.
Proof.
  intros [el Hel]. unfold dragging, startDrag. cbv zeta. cbn [fst].
  cbn [with_dom dom mgr with_body_select with_doc_listeners
       elements innerWidth innerHeight].
  rewrite bringToFront_isDragging, bringToFront_activeWindow.
  rewrite bringToFront_dom. simpl.
  rewrite !lookup_alter_eq, Hel. simpl. eauto 10.
Qed.

Lemma handleDrag_dragging w vw vh e s :
  dragging w vw vh s → dragging w vw vh (handleDrag layout e s).1.
Proof.
  intros (Hd & Ha & [el Hel] & Hw & Hh). unfold dragging, handleDrag.
  rewrite Hd, Ha. simpl. rewrite lookup_alter_eq, Hel. simpl. eauto 10.
Qed.

Lemma drag_moves_dragging w vw vh ms s :
  dragging w vw vh s → dragging w vw vh (drag_moves layout ms s).
Proof.
  revert s. induction ms as [|e ms IH]; intros s Hs; [done|].
  apply IH. by apply handleDrag_dragging.
Qed.

(** The position a pointer move writes while [w] is dragged. *)
Lemma handleDrag_position w vw vh e s :
  dragging w vw vh s →
  let width := r_width (layout (dom s) w) in
  let x := (windowStartX (mgr s) + (clientX e - dragStartX (mgr s)))%Q in
  let y := (windowStartY (mgr s) + (clientY e - dragStartY (mgr s)))%Q in
  left_of (handleDrag layout e s).1 w
    = Some (Qmax (- width + 100) (Qmin x (vw - 100))) ∧
  top_of (handleDrag layout e s).1 w
    = Some (Qmax 0 (Qmin y (vh - 50))).
Proof.
  intros (Hd & Ha & [el Hel] & Hw & Hh). unfold left_of, top_of, handleDrag.
  rewrite Hd, Ha. simpl. rewrite lookup_alter_eq, Hel, Hw, Hh. done.
Qed.

(** Releasing the pointer moves nothing. *)
Lemma stopDrag_position up s w :
  left_of (stopDrag up s).1 w = left_of s w ∧
  top_of (stopDrag up s).1 w = top_of s w.
Proof.
  unfold left_of, top_of, stopDrag.
  destruct (isDragging (mgr s)); [|done]. simpl.
  destruct (activeWindow (mgr s)) as [a|]; simpl; [|done].
  destruct (decide (a = w)) as [->|Hne].
  - rewrite lookup_alter_eq. by destruct (elements (dom s) !! w).
  - by rewrite lookup_alter_ne.
Qed.

Lemma clamp_lower (lo x hi : Q) : (lo <= Qmax lo (Qmin x hi))%Q.
Proof. apply Q.le_max_l. Qed.

Lemma clamp_upper (lo x hi : Q) :
  (lo <= hi)%Q → (Qmax lo (Qmin x hi) <= hi)%Q.
Proof. intros H. apply Q.max_lub; [done | apply Q.le_min_r]. Qed.

Lemma drag_moves_snoc ms e s :
  drag_moves layout (ms ++ [e]) s
  = (handleDrag layout e (drag_moves layout ms s)).1.
Proof. unfold drag_moves. by rewrite fold_left_app. Qed.

Lemma clamp_low_wins (lo x hi : Q) :
  (hi < lo)%Q → (Qmax lo (Qmin x hi) == lo)%Q.
Proof.
  intros H. apply Q.max_l. apply Qle_trans with hi; [apply Q.le_min_r|].
  by apply Qlt_le_weak.
Qed.

(** Pressing the header writes the rectangle's position as it is. *)
Lemma startDrag_position w down s :
  is_Some (elements (dom s) !! w) →
  let rect :=
    layout (update_element w (set_header_cursor "grabbing") (dom s)) w in
  left_of (startDrag layout w down s).1 w = Some (r_left rect) ∧
  top_of (startDrag layout w down s).1 w = Some (r_top rect).
Proof.
  intros [el Hel]. unfold left_of, top_of, startDrag. cbv zeta. cbn [fst].
  cbn [with_dom dom mgr with_body_select with_doc_listeners
       elements innerWidth innerHeight].
  rewrite bringToFront_dom. simpl.
  rewrite !lookup_alter_eq, Hel. done.
Qed.

(** C1 (as amended).  During a drag session of window [w] (pointer-down,
    the moves [ms], then the move [e]) the position [handleDrag] writes for
    [e] has [left >= -(width - 100)] and [top >= 0]; it has
    [left <= viewportWidth - 100] when [width + viewportWidth >= 200] and
    [top <= viewportHeight - 50] when [viewportHeight >= 50]; otherwise the
    lower clamp wins: [left = -(width - 100)], respectively [top = 0]; and
    it is the position the session ends with once the pointer is released.
    [width] is the rendered width read at that move.  A session without a
    move ends at the position of the window's rectangle as read at the
    press, whatever it is: nothing clamps it. *)
Theorem drag_position_clamped w down ms e up s :
  is_Some (elements (dom s) !! w) →
  let before := drag_moves layout ms (startDrag layout w down s).1 in
  let moved := (handleDrag layout e before).1 in
  let final := drag_session layout w down (ms ++ [e]) up s in
  let width := r_width (layout (dom before) w) in
  let vw := innerWidth (dom s) in
  let vh := innerHeight (dom s) in
  let pressed := drag_session layout w down [] up s in
  let rect :=
    layout (update_element w (set_header_cursor "grabbing") (dom s)) w in
  (∃ l t : Q,
    left_of moved w = Some l ∧ top_of moved w = Some t ∧
    left_of final w = Some l ∧ top_of final w = Some t ∧
    (- (width - 100) <= l)%Q ∧ (0 <= t)%Q ∧
    ((200 <= width + vw)%Q → (l <= vw - 100)%Q) ∧
    ((50 <= vh)%Q → (t <= vh - 50)%Q) ∧
    ((width + vw < 200)%Q → (l == - (width - 100))%Q) ∧
    ((vh < 50)%Q → (t == 0)%Q)) ∧
  left_of pressed w = Some (r_left rect) ∧
  top_of pressed w = Some (r_top rect).
Proof.
  intros Hel before moved final width vw vh pressed rect. split.
  - assert (Hb : dragging w vw vh before).
    { apply drag_moves_dragging. by apply startDrag_dragging. }
    destruct (handleDrag_position w vw vh e before Hb) as [Hl Ht].
    fold moved in Hl, Ht. fold width in Hl.
    assert (Hfinal : final = (stopDrag up moved).1).
    { unfold final, drag_session. by rewrite drag_moves_snoc. }
    destruct (stopDrag_position up moved w) as [Hl' Ht'].
    eexists _, _. rewrite Hfinal, Hl', Ht'.
    split; [exact Hl|]. split; [exact Ht|]. split; [exact Hl|].
    split; [exact Ht|].
    split; [|split; [|split; [|split; [|split]]]].
    + apply Qle_trans with (- width + 100)%Q; [lra | apply clamp_lower].
    + apply clamp_lower.
    + intros H. apply clamp_upper. lra.
    + intros H. apply clamp_upper. lra.
    + intros H. rewrite clamp_low_wins; lra.
    + intros H. rewrite clamp_low_wins; lra.
  - unfold pressed, drag_session, drag_moves. cbn [fold_left].
    destruct (stopDrag_position up (startDrag layout w down s).1 w)
      as [-> ->].
    by apply startDrag_position.
Qed.

(** C10.  With no drag in progress ([isDragging] false) the pointer-move
    handler and the pointer-up/cancel handler return at their guard: the whole
    state (element positions, cursors, manager fields, document listeners)
    and the event are unchanged. *)
Theorem idle_drag_handlers_are_noops e s :
  isDragging (mgr s) = false →
  handleDrag layout e s = (s, e) ∧ stopDrag e s = (s, e).
Proof. intros H. unfold handleDrag, stopDrag. by rewrite H. Qed.

(** ** Showing a window *)

Lemma showWindow_shown windowId apps s :
  is_Some (elements (dom s) !! windowId) →
  (showWindow layout display_none windowId apps s).1
  = bringToFront (Some windowId)
      (centerWindowNow layout (Some windowId)
         (shown layout display_none windowId s)).
Proof. intros [el Hel]. unfold showWindow, shown. by rewrite Hel. Qed.

Lemma shown_frame windowId s :
  innerWidth (dom (shown layout display_none windowId s)) = innerWidth (dom s) ∧
  innerHeight (dom (shown layout display_none windowId s)) = innerHeight (dom s) ∧
  currentZIndex (mgr (shown layout display_none windowId s))
  = currentZIndex (mgr s).
Proof.
  unfold shown, setupWindow, makeWindowDraggable, centerWindowNow.
  destruct (windows (mgr s) !! windowId); [done|].
  by destruct (is_active (dom s) windowId || negb (display_none (dom s) windowId)).
Qed.

Lemma shown_active windowId s :
  is_Some (elements (dom s) !! windowId) →
  ∃ el, elements (dom (shown layout display_none windowId s)) !! windowId
        = Some el ∧ el_active el = true.
Proof.
  intros [el Hel].
  unfold shown, setupWindow, makeWindowDraggable, centerWindowNow.
  destruct (windows (mgr s) !! windowId).
  - simpl. rewrite lookup_alter_eq, Hel. simpl. eauto.
  - destruct (is_active (dom s) windowId || negb (display_none (dom s) windowId));
      simpl; rewrite !lookup_alter_eq, Hel; simpl; eauto.
Qed.

(** C4 (as amended).  [showWindow] marks the window active, places it at
    [left = (viewportWidth - renderedWidth) / 2] and
    [top = (viewportHeight - renderedHeight) / 2] with no clamp, and raises it
    to the front: its z-index is the incremented counter.  The rendered size
    is the one measured once the window carries the ['active'] class. *)
Theorem showWindow_centers windowId apps s :
  is_Some (elements (dom s) !! windowId) →
  let measured := layout (dom (shown layout display_none windowId s)) windowId in
  let s' := (showWindow layout display_none windowId apps s).1 in
  ∃ el, elements (dom s') !! windowId = Some el ∧
    el_active el = true ∧
    el_left el = Some ((innerWidth (dom s) - r_width measured) / 2)%Q ∧
    el_top el = Some ((innerHeight (dom s) - r_height measured) / 2)%Q ∧
    el_zIndex el = Some (currentZIndex (mgr s) + 1)%Z ∧
    currentZIndex (mgr s') = (currentZIndex (mgr s) + 1)%Z.
Proof.
  intros Hel measured s'. unfold s'. rewrite showWindow_shown by done.
  destruct (shown_frame windowId s) as (Hw & Hh & Hz).
  destruct (shown_active windowId s Hel) as (el & Hlook & Hact).
  fold measured. revert measured Hw Hh Hz Hlook.
  generalize (shown layout display_none windowId s). intros t measured Hw Hh Hz Hlook.
  unfold bringToFront, centerWindowNow. simpl.
  destruct (windows (mgr t) !! windowId); simpl;
    rewrite !lookup_alter_eq, Hlook; simpl;
    eexists; (split; [reflexivity|]); simpl;
    rewrite Hw, Hh, Hz; subst measured; done.
Qed.

(** ** Z-order *)

Lemma bringToFront_counter w s :
  currentZIndex (mgr (bringToFront (Some w) s)) = (currentZIndex (mgr s) + 1)%Z.
Proof. unfold bringToFront; simpl. by destruct (windows (mgr s) !! w). Qed.

Lemma bringToFront_zIndex w s :
  is_Some (elements (dom s) !! w) →
  zIndex_of (bringToFront (Some w) s) w = Some (currentZIndex (mgr s) + 1)%Z.
Proof.
  intros [el Hel]. unfold zIndex_of. rewrite bringToFront_dom.
  rewrite lookup_update_element, Hel. done.
Qed.

Lemma bringToFront_zIndex_ne w w' s :
  w ≠ w' → zIndex_of (bringToFront (Some w) s) w' = zIndex_of s w'.
Proof.
  intros Hne. unfold zIndex_of. rewrite bringToFront_dom.
  by rewrite lookup_update_element_ne.
Qed.

Lemma bringToFront_elements w w' s :
  is_Some (elements (dom s) !! w') →
  is_Some (elements (dom (bringToFront (Some w) s)) !! w').
Proof.
  intros [el Hel]. rewrite bringToFront_dom.
  destruct (decide (w = w')) as [->|Hne].
  - rewrite lookup_update_element, Hel. simpl. eauto.
  - rewrite lookup_update_element_ne, Hel by done. eauto.
Qed.

Lemma bringToFront_all_snoc ids w s :
  bringToFront_all (ids ++ [w]) s
  = bringToFront (Some w) (bringToFront_all ids s).
Proof. unfold bringToFront_all. by rewrite fold_left_app. Qed.

Lemma bringToFront_all_counter ids s :
  currentZIndex (mgr (bringToFront_all ids s))
  = (currentZIndex (mgr s) + Z.of_nat (length ids))%Z.
Proof.
  induction ids as [|w ids IH] using rev_ind; simpl; [lia|].
  rewrite bringToFront_all_snoc, bringToFront_counter, IH, length_app.
  simpl. lia.
Qed.

Lemma bringToFront_all_elements ids w' s :
  is_Some (elements (dom s) !! w') →
  is_Some (elements (dom (bringToFront_all ids s)) !! w').
Proof.
  intros H. induction ids as [|w ids IH] using rev_ind; [done|].
  rewrite bringToFront_all_snoc. by apply bringToFront_elements.
Qed.

Lemma below_counter_zIndex s w z :
  below_counter s → zIndex_of s w = Some z → (z ≤ currentZIndex (mgr s))%Z.
Proof.
  unfold below_counter, zIndex_of. intros Hs Hz.
  destruct (elements (dom s) !! w) as [el|] eqn:Hel; [|done].
  apply Hs in Hel. unfold zIndex_ok in Hel. simpl in Hz. rewrite Hz in Hel.
  lia.
Qed.

Lemma bringToFront_below_counter w s :
  below_counter s → below_counter (bringToFront (Some w) s).
Proof.
  unfold below_counter. intros Hs w' el'.
  rewrite bringToFront_counter, bringToFront_dom.
  destruct (decide (w = w')) as [->|Hne].
  - rewrite lookup_update_element.
    destruct (elements (dom s) !! w'); simpl; [|done].
    intros [= <-]. unfold zIndex_ok. simpl. lia.
  - rewrite lookup_update_element_ne by done. intros H%Hs.
    unfold zIndex_ok in *. destruct (el_zIndex el'); [lia|done].
Qed.

Lemma bringToFront_all_below_counter ids s :
  below_counter s → below_counter (bringToFront_all ids s).
Proof.
  intros H. induction ids as [|w ids IH] using rev_ind; [done|].
  rewrite bringToFront_all_snoc. by apply bringToFront_below_counter.
Qed.

(** C2.  In a run of [bringToFront] calls on windows of the page, call
    number [k] (from 0) adds one to the counter and assigns the new value,
    [counter0 + k + 1], to its window; the counter never goes down, so the
    assigned values increase strictly with [k]; and after the run the window
    of the last call carries the counter's value, above the z-index of every
    other element. *)
Theorem bringToFront_recency ids s :
  below_counter s →
  Forall (λ w, is_Some (elements (dom s) !! w)) ids →
  (∀ k w, ids !! k = Some w →
     let before := bringToFront_all (take k ids) s in
     let after := bringToFront_all (take (S k) ids) s in
     after = bringToFront (Some w) before ∧
     currentZIndex (mgr after) = (currentZIndex (mgr before) + 1)%Z ∧
     currentZIndex (mgr after) = (currentZIndex (mgr s) + Z.of_nat k + 1)%Z ∧
     zIndex_of after w = Some (currentZIndex (mgr after))) ∧
  (∀ j k, (j < k < length ids)%nat →
     (currentZIndex (mgr (bringToFront_all (take (S j) ids) s))
      < currentZIndex (mgr (bringToFront_all (take (S k) ids) s)))%Z) ∧
  (∀ w, last ids = Some w →
     let final := bringToFront_all ids s in
     zIndex_of final w = Some (currentZIndex (mgr final)) ∧
     ∀ w' z', w' ≠ w → zIndex_of final w' = Some z' →
       (z' < currentZIndex (mgr final))%Z).
Proof.
  intros Hbelow Hin. rewrite Forall_forall in Hin. split; [|split].
  - intros k w Hk before after.
    assert (Hafter : after = bringToFront (Some w) before).
    { unfold after, before.
      by rewrite (take_S_r _ _ _ Hk), bringToFront_all_snoc. }
    split; [done|]. rewrite Hafter, bringToFront_counter.
    split; [done|]. unfold before at 1.
    rewrite bringToFront_all_counter, length_take.
    apply lookup_lt_Some in Hk as Hlt. split; [lia|].
    rewrite bringToFront_zIndex; [done|].
    apply bringToFront_all_elements, Hin. by eapply list_elem_of_lookup_2.
  - intros j k Hjk. rewrite !bringToFront_all_counter, !length_take. lia.
  - intros w Hlast final.
    apply last_Some in Hlast as [ids' ->]. unfold final.
    rewrite bringToFront_all_snoc, bringToFront_counter. split.
    + apply bringToFront_zIndex, bringToFront_all_elements, Hin.
      set_solver.
    + intros w' z' Hne. rewrite bringToFront_zIndex_ne by done.
      intros H. eapply below_counter_zIndex in H;
        [lia | by apply bringToFront_all_below_counter].
Qed.

End WMFacts.

(* ===================================================================== *)
(** * Facts about the mode freeze controller                             *)
(* ===================================================================== *)

Section FreezeFacts.

Import Freeze.

(** ** Filtering *)

Lemma filter_keep_all {A} (P : A → Prop) `{!∀ x, Decision (P x)} (l : list A) :
  Forall P l → filter P l = l.
Proof.
  induction 1 as [|x l Hx _ IH]; [done|].
  by rewrite filter_cons_True, IH.
Qed.

Lemma filter_drop_all {A} (P : A → Prop) `{!∀ x, Decision (P x)} (l : list A) :
  Forall (λ x, ¬ P x) l → filter P l = [].
Proof.
  induction 1 as [|x l Hx _ IH]; [done|].
  by rewrite filter_cons_False, IH.
Qed.

(** ** Adding and removing the listeners of one callback *)

Ltac fields :=
  cbn [isDrawingMode interactionBlocker keyBlocker submitBlocker
       contextMenuBlocker body_drawn_mode toggleButton storage listeners
       next_closure set_listeners set_interactionBlocker set_keyBlocker
       set_submitBlocker set_contextMenuBlocker set_mode set_body_drawn_mode
       set_toggleButton set_storage app].

Lemma set_listeners_same s : set_listeners (listeners s) s = s.
Proof. by destruct s. Qed.

Lemma add_all_cons ty types cb s :
  add_all (ty :: types) cb s
  = add_all types cb
      (set_listeners (addEventListener ty cb true (listeners s)) s).
Proof. reflexivity. Qed.

Lemma remove_all_cons ty types cb s :
  remove_all (ty :: types) cb s
  = remove_all types cb
      (set_listeners (removeEventListener ty cb true (listeners s)) s).
Proof. reflexivity. Qed.

Lemma add_all_fresh types cb s :
  NoDup types →
  (∀ x, x ∈ listeners s → l_callback x = cb → l_type x ∉ types) →
  add_all types cb s
  = set_listeners (listeners s ++ (capturing cb <$> types))%list s.
Proof.
  revert s. induction types as [|ty types IH]; intros s Hnd Hfresh.
  - simpl. by rewrite app_nil_r, set_listeners_same.
  - apply NoDup_cons in Hnd as [Hty Hnd].
    rewrite add_all_cons. unfold addEventListener. fold (capturing cb ty).
    destruct (decide (capturing cb ty ∈ listeners s)) as [Hin|_].
    { apply Hfresh in Hin; [|done]. simpl in Hin. set_solver. }
    rewrite IH; [| done |].
    + simpl. by rewrite <- app_assoc.
    + simpl. intros x [Hx | ->%list_elem_of_singleton]%elem_of_app Hcb.
      * apply Hfresh in Hx; [|done]. set_solver.
      * done.
Qed.

Lemma remove_all_kept types cb s :
  remove_all types cb s
  = set_listeners (filter (kept types cb) (listeners s)) s.
Proof.
  revert s. induction types as [|ty types IH]; intros s.
  - simpl. rewrite filter_keep_all, set_listeners_same; [done|].
    apply Forall_forall. intros x _ (_ & _ & H). set_solver.
  - rewrite remove_all_cons, IH.
    transitivity (set_listeners (filter (kept types cb)
      (removeEventListener ty cb true (listeners s))) s); [done|].
    f_equal. unfold removeEventListener.
    rewrite list_filter_filter. apply list_filter_iff. intros x.
    unfold kept. destruct x as [t c p]. simpl. split.
    + intros [H1 H2] (-> & -> & [->|H]%elem_of_cons); [done|].
      apply H1. done.
    + intros H. split.
      * intros (-> & -> & Ht). apply H. set_solver.
      * intros [= -> -> ->]. apply H. set_solver.
Qed.

Lemma NoDup_click_family : NoDup click_family.
Proof. by apply (bool_decide_unpack _). Qed.

Lemma NoDup_key_family : NoDup key_family.
Proof. by apply (bool_decide_unpack _). Qed.

Lemma foreign_callback L x cb :
  all_foreign L → x ∈ L → cl_code cb ≠ Foreign → l_callback x ≠ cb.
Proof.
  intros HL Hx Hcb <-. unfold all_foreign in HL.
  rewrite Forall_forall in HL. apply HL in Hx.
  unfold is_interceptor in Hx. by apply bool_decide_eq_false in Hx.
Qed.

Lemma fresh_after L extra cb (types : list string) :
  all_foreign L → cl_code cb ≠ Foreign →
  Forall (λ x, l_callback x ≠ cb) extra →
  ∀ x, x ∈ (L ++ extra)%list → l_callback x = cb → l_type x ∉ types.
Proof.
  intros HL Hcb Hextra x [Hx|Hx]%elem_of_app Heq.
  - by destruct (foreign_callback L x cb).
  - rewrite Forall_forall in Hextra. by apply Hextra in Hx.
Qed.

Lemma kept_foreign L (types : list string) cb :
  all_foreign L → cl_code cb ≠ Foreign → filter (kept types cb) L = L.
Proof.
  intros HL Hcb. apply filter_keep_all, Forall_forall.
  intros x Hx (Heq & _). by destruct (foreign_callback L x cb).
Qed.

Lemma kept_other (types : list string) cb cb' (tys : list string) :
  cb' ≠ cb → filter (kept types cb) (capturing cb' <$> tys) = capturing cb' <$> tys.
Proof.
  intros Hne. apply filter_keep_all, Forall_forall.
  intros x (ty & -> & _)%list_elem_of_fmap (Heq & _). done.
Qed.

Lemma kept_own (types : list string) cb :
  filter (kept types cb) (capturing cb <$> types) = [].
Proof.
  apply filter_drop_all, Forall_forall.
  intros x (ty & -> & Hty)%list_elem_of_fmap H. apply H. done.
Qed.

(** [blockInteractions] on a page that carries no interceptor. *)
Lemma blockInteractions_clean s :
  all_foreign (listeners s) →
  let n := next_closure s in
  blockInteractions s =
  {| isDrawingMode := isDrawingMode s;
     interactionBlocker := Some {| cl_code := InteractionBlocker; cl_id := n |};
     keyBlocker := Some {| cl_code := KeyBlocker; cl_id := n + 1 |};
     submitBlocker := Some {| cl_code := SubmitBlocker; cl_id := n + 2 |};
     contextMenuBlocker :=
       Some {| cl_code := ContextMenuBlocker; cl_id := n + 3 |};
     body_drawn_mode := body_drawn_mode s; toggleButton := toggleButton s;
     storage := storage s;
     listeners := listeners s ++
       installed {| cl_code := InteractionBlocker; cl_id := n |}
                 {| cl_code := KeyBlocker; cl_id := n + 1 |}
                 {| cl_code := SubmitBlocker; cl_id := n + 2 |}
                 {| cl_code := ContextMenuBlocker; cl_id := n + 3 |};
     next_closure := n + 4 |}.
Proof.
  intros HL n. subst n. destruct s as [m i0 k0 b0 c0 bd bi st L n].
  cbn in HL. unfold blockInteractions, new_closure.
  cbn -[add_all Nat.add].
  rewrite (add_all_fresh click_family); [| apply NoDup_click_family |];
    cbn -[add_all Nat.add].
  2:{ rewrite <- (app_nil_r L).
      apply fresh_after; [done | done | constructor]. }
  rewrite (add_all_fresh key_family); [| apply NoDup_key_family |];
    cbn -[add_all Nat.add].
  2:{ apply (fresh_after L [_; _; _; _]); [done | done |].
      repeat constructor; done. }
  rewrite (add_all_fresh ["submit"]); [| by apply (bool_decide_unpack _) |];
    cbn -[add_all Nat.add].
  2:{ rewrite <- app_assoc.
      apply (fresh_after L); [done | done |]. repeat constructor; done. }
  rewrite (add_all_fresh ["contextmenu"]); [| by apply (bool_decide_unpack _) |];
    cbn -[add_all Nat.add].
  2:{ rewrite <- !app_assoc.
      apply (fresh_after L); [done | done |]. repeat constructor; done. }
  rewrite <- !app_assoc. unfold set_listeners, set_contextMenuBlocker.
  cbn -[Nat.add].
  replace (n + 1) with (S n) by lia.
  replace (n + 2) with (S (S n)) by lia.
  replace (n + 3) with (S (S (S n))) by lia.
  replace (n + 4) with (S (S (S (S n)))) by lia.
  reflexivity.
Qed.

(** [unblockInteractions] takes the nine listeners of the held callbacks
    out of the list and nothing else. *)
Lemma unblockInteractions_armed pre post s :
  all_foreign pre → all_foreign post → armed pre post s →
  unblockInteractions s =
  {| isDrawingMode := isDrawingMode s;
     interactionBlocker := None; keyBlocker := None;
     submitBlocker := None; contextMenuBlocker := None;
     body_drawn_mode := body_drawn_mode s; toggleButton := toggleButton s;
     storage := storage s; listeners := (pre ++ post)%list;
     next_closure := next_closure s |}.
Proof.
  intros Hpre Hpost (n & Hb & Hl).
  destruct s as [m i0 k0 b0 c0 bd bi st L nx].
  unfold blockers in Hb. cbn in Hb. cbn [listeners] in Hl.
  injection Hb as -> -> -> ->. subst L.
  unfold unblockInteractions, installed. fields.
  rewrite (remove_all_kept click_family). fields.
  rewrite !filter_app, (kept_foreign pre), (kept_foreign post), kept_own,
    !kept_other by done.
  fields.
  rewrite (remove_all_kept key_family). fields.
  rewrite !filter_app, (kept_foreign pre), (kept_foreign post), kept_own,
    !kept_other by done.
  fields.
  rewrite (remove_all_kept ["submit"]). fields.
  rewrite !filter_app, (kept_foreign pre), (kept_foreign post), kept_own,
    !kept_other by done.
  fields.
  rewrite (remove_all_kept ["contextmenu"]). fields.
  rewrite !filter_app, (kept_foreign pre), (kept_foreign post), kept_own
    by done.
  reflexivity.
Qed.

Lemma unblockInteractions_idle s :
  blockers s = [None; None; None; None] → unblockInteractions s = s.
Proof.
  destruct s as [m i0 k0 b0 c0 bd bi st L nx]. unfold blockers. cbn.
  by intros [= -> -> -> ->].
Qed.

Lemma unblockInteractions_steps s :
  unblockInteractions s
  = unblock_step contextMenuBlocker set_contextMenuBlocker ["contextmenu"]
      (unblock_step submitBlocker set_submitBlocker ["submit"]
         (unblock_step keyBlocker set_keyBlocker key_family
            (unblock_step interactionBlocker set_interactionBlocker
               click_family s))).
Proof. reflexivity. Qed.

Lemma unblock_step_cleared get set types s :
  (∀ v t, get (set v t) = v) → get (unblock_step get set types s) = None.
Proof.
  intros Hset. unfold unblock_step.
  destruct (get s) eqn:E; [apply Hset | done].
Qed.

Lemma unblock_step_other {A} (get' : state → A) get set types s :
  (∀ v t, get' (set v t) = get' t) →
  (∀ l t, get' (set_listeners l t) = get' t) →
  get' (unblock_step get set types s) = get' s.
Proof.
  intros Hset Hl. unfold unblock_step. destruct (get s); [|done].
  by rewrite Hset, remove_all_kept, Hl.
Qed.

Lemma unblockInteractions_blockers s :
  blockers (unblockInteractions s) = [None; None; None; None].
Proof.
  rewrite unblockInteractions_steps. unfold blockers.
  do 3 rewrite (unblock_step_other interactionBlocker) by done.
  rewrite (unblock_step_cleared interactionBlocker) by done.
  do 2 rewrite (unblock_step_other keyBlocker) by done.
  rewrite (unblock_step_cleared keyBlocker) by done.
  rewrite (unblock_step_other submitBlocker) by done.
  rewrite (unblock_step_cleared submitBlocker) by done.
  by rewrite (unblock_step_cleared contextMenuBlocker).
Qed.

Lemma blockInteractions_armed s :
  all_foreign (listeners s) → armed (listeners s) [] (blockInteractions s).
Proof.
  intros HL. rewrite blockInteractions_clean by done.
  exists (next_closure s). fields. by rewrite app_nil_r.
Qed.

(** ** The two states of the page under [toggle] *)

Lemma all_foreign_app l1 l2 :
  all_foreign l1 → all_foreign l2 → all_foreign (l1 ++ l2)%list.
Proof. unfold all_foreign. intros. by apply Forall_app. Qed.

Lemma toggle_unfrozen s :
  is_Some (toggleButton s) → unfrozen s →
  ∃ s', toggle s = Returns s' ∧ frozen s' ∧ is_Some (toggleButton s').
Proof.
  intros [b Hbt] (Hm & Hb & HL).
  unfold toggle, enableDrawingMode, updateButtonIcon, savePreference.
  rewrite Hm. simpl negb. fields. rewrite Hbt. cbn [and_then].
  rewrite blockInteractions_clean by done.
  eexists. split; [reflexivity|]. fields. split; [|done].
  split; [done|]. exists (listeners s), [].
  split; [done|]. split; [constructor|].
  exists (next_closure s). fields. by rewrite app_nil_r.
Qed.

Lemma toggle_frozen s :
  is_Some (toggleButton s) → frozen s →
  ∃ s', toggle s = Returns s' ∧ unfrozen s' ∧ is_Some (toggleButton s').
Proof.
  intros [b Hbt] (Hm & pre & post & Hpre & Hpost & n & Hb & Hl).
  unfold toggle, disableDrawingMode, updateButtonIcon, savePreference.
  rewrite Hm. simpl negb. fields. rewrite Hbt. cbn [and_then].
  rewrite (unblockInteractions_armed pre post); [| done | done |].
  - eexists. split; [reflexivity|]. fields. split; [|done].
    repeat split; [done..|]. fields. by apply all_foreign_app.
  - exists n. destruct s. by fields.
Qed.

(** Without the button [toggle] flips the flag, writes the class of [body]
    and throws. *)
Lemma toggle_no_button s :
  toggleButton s = None →
  toggle s
  = Throws (set_body_drawn_mode (negb (isDrawingMode s))
              (set_mode (negb (isDrawingMode s)) s)).
Proof.
  intros Hbt.
  unfold toggle, enableDrawingMode, disableDrawingMode, updateButtonIcon.
  fields. rewrite Hbt. by destruct (isDrawingMode s).
Qed.

Lemma loadSavedPreference_state s :
  is_Some (toggleButton s) → unfrozen s →
  is_Some (toggleButton (loadSavedPreference s)) ∧
  (unfrozen (loadSavedPreference s) ∨ frozen (loadSavedPreference s)).
Proof.
  intros [b Hbt] (Hm & Hb & HL). unfold loadSavedPreference.
  destruct (storage s) as [v|]; [|by rewrite Hbt; split; [|left]].
  destruct (String.eqb v "enabled"); [|by rewrite Hbt; split; [|left]].
  unfold updateButtonIcon. fields. rewrite Hbt.
  rewrite blockInteractions_clean by done. fields.
  split; [done|]. right.
  split; [done|]. exists (listeners s), [].
  split; [done|]. split; [constructor|].
  exists (next_closure s). fields. by rewrite app_nil_r.
Qed.

(** One more listener that is no interceptor changes neither state. *)
Lemma add_foreign_state ty cb s :
  cl_code cb = Foreign →
  let s' := set_listeners (addEventListener ty cb false (listeners s))
              (new_closure Foreign s).2 in
  toggleButton s' = toggleButton s ∧
  (unfrozen s → unfrozen s') ∧ (frozen s → frozen s').
Proof.
  intros Hcb s'. unfold s', addEventListener. split; [done|]. split.
  - intros (Hm & Hb & HL). destruct s. unfold blockers in *. cbn in *.
    repeat split; [done..|].
    case_decide; [done|]. apply all_foreign_app; [done|].
    repeat constructor. unfold is_interceptor. simpl.
    apply bool_decide_eq_false. rewrite Hcb. by intros [].
  - intros (Hm & pre & post & Hpre & Hpost & n & Hb & Hl).
    destruct s. unfold blockers in *. cbn -[installed Nat.add] in *.
    split; [done|]. case_decide.
    + exists pre, post. repeat split; [done..|]. exists n. by fields.
    + exists pre, (post ++ [{| l_type := ty; l_callback := cb;
                               l_capture := false |}])%list.
      split; [done|]. split.
      * apply all_foreign_app; [done|]. repeat constructor.
        unfold is_interceptor. simpl.
        apply bool_decide_eq_false. rewrite Hcb. by intros [].
      * exists n. fields. split; [done|]. rewrite Hl.
        by rewrite <- !app_assoc.
Qed.

Lemma constructed_state b saved others fresh :
  all_foreign others →
  let s := constructed (Some b) saved others fresh in
  is_Some (toggleButton s) ∧ (unfrozen s ∨ frozen s).
Proof.
  intros HL. unfold constructed, setup. cbv zeta.
  set (s0 := set_toggleButton (Some b) _).
  change (toggleButton s0) with (Some b). cbv iota.
  assert (H0 : unfrozen s0) by done.
  assert (Hb0 : is_Some (toggleButton s0)) by done.
  destruct (add_foreign_state "keydown"
              {| cl_code := Foreign;
                 cl_id := next_closure (loadSavedPreference s0) |}
              (loadSavedPreference s0) eq_refl) as (Hbt & Hu & Hf).
  destruct (loadSavedPreference_state s0 Hb0 H0) as [Hb1 H].
  split; [exact Hb1|].
  destruct H as [H|H]; [left|right]; auto.
Qed.

Lemma toggles_state b saved others fresh n :
  all_foreign others →
  let s := toggles n (constructed (Some b) saved others fresh) in
  is_Some (toggleButton s) ∧ (unfrozen s ∨ frozen s).
Proof.
  intros HL. induction n as [|n IH]; [by apply constructed_state|].
  unfold toggles in *. simpl. destruct IH as [Hb [IH|IH]].
  - destruct (toggle_unfrozen _ Hb IH) as (s' & -> & Hs' & Hb').
    split; [done | by right].
  - destruct (toggle_frozen _ Hb IH) as (s' & -> & Hs' & Hb').
    split; [done | by left].
Qed.

(** Without the button no preference is loaded, no listener is added, and
    every call of [toggle] only flips the flag and the class of [body]. *)
Lemma toggles_no_button saved others fresh n :
  let s := toggles n (constructed None saved others fresh) in
  toggleButton s = None ∧ isDrawingMode s = Nat.odd n ∧
  listeners s = others ∧ blockers s = [None; None; None; None] ∧
  storage s = saved.
Proof.
  induction n as [|n IH]; [done|].
  unfold toggles in *. rewrite Nat.iter_succ. cbv zeta in IH.
  destruct IH as (Hbt & Hm & Hl & Hb & Hst).
  rewrite (toggle_no_button _ Hbt). cbn [state_of]. unfold blockers in *.
  fields. rewrite Hm, Nat.odd_succ, <- Nat.negb_odd. done.
Qed.

(** ** Counting interceptors *)

Lemma interceptors_foreign L :
  all_foreign L → filter (λ x, is_interceptor x = true) L = [].
Proof.
  intros HL. apply filter_drop_all. eapply Forall_impl; [exact HL|].
  simpl. intros x ->. done.
Qed.

Lemma interceptors_unfrozen s : unfrozen s → interceptors s = [].
Proof. intros (_ & _ & HL). by apply interceptors_foreign. Qed.




(** C8.  On a manager that holds no callback, on a page without
    interceptors (no enable yet): [unblockInteractions] changes nothing and
    leaves zero interceptors; after one [blockInteractions] it gives back the
    listener list as it was before, so it removes exactly what was installed,
    leaves zero interceptors and clears the four callback fields.  From any
    state a second [unblockInteractions] in a row changes nothing.  The
    function has no failing path: it is total. *)
Theorem unblockInteractions_exact s :
  blockers s = [None; None; None; None] →
  all_foreign (listeners s) →
  unblockInteractions s = s ∧
  interceptors (unblockInteractions s) = [] ∧
  listeners (unblockInteractions (blockInteractions s)) = listeners s ∧
  interceptors (unblockInteractions (blockInteractions s)) = [] ∧
  blockers (unblockInteractions (blockInteractions s))
  = [None; None; None; None] ∧
  (∀ t, unblockInteractions (unblockInteractions t) = unblockInteractions t).
Proof.
  intros Hb HL.
  pose proof (blockInteractions_armed s HL) as Harmed.
  split; [by apply unblockInteractions_idle|].
  split.
  { rewrite unblockInteractions_idle by done. by apply interceptors_foreign. }
  rewrite (unblockInteractions_armed (listeners s) []);
    [| done | constructor | done].
  fields. rewrite app_nil_r.
  split; [done|]. split; [by apply interceptors_foreign|]. split; [done|].
  intros t. apply unblockInteractions_idle, unblockInteractions_blockers.
Qed.

End FreezeFacts.

(* ===================================================================== *)
(** * Facts about the gallery                                            *)
(* ===================================================================== *)

Section GalleryFacts.

Import Gallery.

Variable bitmap : Type.
Variable toDataURL : string → bitmap → string.
Variable fill_white : bitmap → bitmap.

Abbreviation apps := (apps bitmap).
Abbreviation submitDrawing := (submitDrawing bitmap toDataURL fill_white).
Abbreviation run := (run bitmap toDataURL fill_white).

Lemma renderGallery_drawings (a : apps) :
  drawings (renderGallery a) = drawings a.
Proof. unfold Gallery.renderGallery. by destruct (galleryGrid a). Qed.

Lemma items_of_imap (l : list drawing) :
  filter (λ n, is_item n = true) (imap render_item l) = imap render_item l.
Proof.
  apply filter_keep_all, Forall_lookup. intros i n.
  rewrite list_lookup_imap. destruct (l !! i); [|done]. by intros [= <-].
Qed.

Lemma renderGallery_items (a : apps) :
  is_Some (galleryGrid a) →
  gallery_items (renderGallery a) = imap render_item (drawings a).
Proof.
  intros [g Hg]. unfold gallery_items, Gallery.renderGallery. rewrite Hg.
  simpl. destruct (drawings a) as [|d l] eqn:Hd; [done|].
  apply items_of_imap.
Qed.

Lemma step_prefix (a : apps) o :
  drawings a `prefix_of` drawings (step bitmap toDataURL fill_white a o).
Proof.
  destruct o as [now stamp| | |]; simpl.
  - unfold Gallery.submitDrawing. destruct (canvas a); [|done].
    unfold openGallery. simpl. rewrite renderGallery_drawings. simpl.
    by apply prefix_app_r.
  - done.
  - unfold openGallery. by rewrite renderGallery_drawings.
  - by rewrite renderGallery_drawings.
Qed.

Lemma lookup_imap_render (l : list drawing) i d :
  l !! i = Some d →
  imap render_item l !! i
  = Some (Item (dataURL d) ("Drawing " ++ pretty (i + 1)%nat) (timestamp d)).
Proof. intros H. by rewrite list_lookup_imap, H. Qed.

Lemma submitDrawing_items now stamp (a : apps) c :
  canvas a = Some c → is_Some (galleryGrid a) →
  gallery_items (submitDrawing now stamp a)
  = imap render_item
      (drawings a ++ [{| id := now; dataURL := toDataURL "image/png" c;
                         timestamp := stamp |}])%list.
Proof.
  intros Hc [g Hg]. unfold Gallery.submitDrawing. rewrite Hc.
  unfold openGallery, alert, gallery_items. simpl.
  set (a' := clearNotepad _ _ _).
  pose proof (renderGallery_items a') as H. unfold gallery_items in H.
  rewrite H; [done|]. unfold a'. simpl. by rewrite Hg.
Qed.

(** C9.  No operation of the session removes or reorders a stored drawing.
    On a page that has the gallery grid, rendering produces as many items as
    there are stored drawings, and the item at position [i] shows the
    drawing stored at position [i]: its image source is that drawing's data
    URL, its alternative text is its rank and its caption its time stamp.
    A submission with a canvas encodes the bitmap with
    [toDataURL('image/png')] and appends the record to [drawings]; the
    gallery it renders shows the drawings stored before at their positions
    and the new one last.  A submission without a canvas stores nothing. *)
Theorem gallery_shows_submissions now stamp (a : apps) :
  (∀ os, drawings a `prefix_of` drawings (run os a)) ∧
  (is_Some (galleryGrid a) →
   length (gallery_items (renderGallery a)) = length (drawings a) ∧
   ∀ i d, drawings a !! i = Some d →
     gallery_items (renderGallery a) !! i
     = Some (Item (dataURL d) ("Drawing " ++ pretty (i + 1)%nat)
                  (timestamp d))) ∧
  match canvas a with
  | Some c =>
    let d := {| id := now; dataURL := toDataURL "image/png" c;
                timestamp := stamp |} in
    let shown := gallery_items (submitDrawing now stamp a) in
    drawings (submitDrawing now stamp a) = (drawings a ++ [d])%list ∧
    (is_Some (galleryGrid a) →
     length shown = S (length (drawings a)) ∧
     shown !! length (drawings a)
     = Some (Item (toDataURL "image/png" c)
                  ("Drawing " ++ pretty (length (drawings a) + 1)%nat)
                  stamp) ∧
     ∀ i d', drawings a !! i = Some d' →
       shown !! i
       = Some (Item (dataURL d') ("Drawing " ++ pretty (i + 1)%nat)
                    (timestamp d')))
  | None => drawings (submitDrawing now stamp a) = drawings a
  end.
Proof.
  split; [|split].
  - intros os. induction os as [|o os IH] using rev_ind; [done|].
    unfold Gallery.run. rewrite fold_left_app. simpl.
    etrans; [apply IH | apply step_prefix].
  - intros Hg. rewrite renderGallery_items by done.
    split; [by rewrite length_imap|].
    intros i d Hd. by apply lookup_imap_render.
  - destruct (canvas a) as [c|] eqn:Hc.
    + cbv zeta. split.
      * unfold Gallery.submitDrawing. rewrite Hc.
        unfold openGallery, alert. simpl. by rewrite renderGallery_drawings.
      * intros Hg. rewrite (submitDrawing_items now stamp a c Hc Hg).
        split; [|split].
        -- rewrite length_imap, length_app. simpl. lia.
        -- apply (lookup_imap_render _ _
                    {| id := now; dataURL := toDataURL "image/png" c;
                       timestamp := stamp |}).
           by rewrite lookup_app_r, Nat.sub_diag.
        -- intros i d' Hd'. apply lookup_imap_render.
           by rewrite lookup_app_l by (by eapply lookup_lt_Some).
    + unfold Gallery.submitDrawing. by rewrite Hc.
Qed.

End GalleryFacts.

(* ===================================================================== *)
(** * Facts about the pixel filter                                       *)
(* ===================================================================== *)

Section SketchFacts.

Import Sketch.

(** ** The loops as one pass over the visited pixels *)

Lemma process_row_visits d w out y :
  process_row d w out y
  = fold_left (process_pixel d w) ((λ x, (x, y)) <$> seq 1 (w - 2)) out.
Proof.
  unfold process_row. generalize (seq 1 (w - 2)). intros xs. revert out.
  induction xs as [|x xs IH]; intros out; [done|]. simpl. apply IH.
Qed.

Lemma applySketchFilter_visits img :
  applySketchFilter img
  = fold_left (process_pixel (data img) (width img))
      (visited (width img) (height img))
      (createImageData (width img) (height img)).
Proof.
  unfold applySketchFilter, visited.
  generalize (createImageData (width img) (height img)).
  generalize (seq 1 (height img - 2)). intros ys.
  induction ys as [|y ys IH]; intros out; [done|].
  simpl. rewrite fold_left_app, <- process_row_visits. apply IH.
Qed.

Lemma elem_of_visited w h x y :
  (x, y) ∈ visited w h ↔ (1 ≤ x ∧ x + 1 < w ∧ 1 ≤ y ∧ y + 1 < h)%nat.
Proof.
  unfold visited. rewrite list_elem_of_bind. split.
  - intros (y' & (x' & [= -> ->] & Hx%elem_of_seq)%list_elem_of_fmap
               & Hy%elem_of_seq). lia.
  - intros H. exists y. split.
    + apply list_elem_of_fmap. exists x. split; [done|].
      apply elem_of_seq. lia.
    + apply elem_of_seq. lia.
Qed.

(** ** Byte lookups after the pass *)

Lemma process_pixel_length d w out p :
  length (process_pixel d w out p) = length out.
Proof. destruct p as [x y]. unfold process_pixel, put. by rewrite !length_insert. Qed.

Lemma pass_length d w ps out :
  length (fold_left (process_pixel d w) ps out) = length out.
Proof.
  revert out. induction ps as [|p ps IH]; intros out; [done|].
  simpl. by rewrite IH, process_pixel_length.
Qed.

Lemma process_pixel_other d w out p i :
  ¬ covers w p i → process_pixel d w out p !! i = out !! i.
Proof.
  destruct p as [x y]. unfold covers, process_pixel, put. simpl. intros H.
  rewrite !list_lookup_insert_ne by lia. done.
Qed.

Lemma pass_other d w ps out i :
  (∀ p, p ∈ ps → ¬ covers w p i) →
  fold_left (process_pixel d w) ps out !! i = out !! i.
Proof.
  revert out. induction ps as [|p ps IH]; intros out H; [done|].
  simpl. rewrite IH by (intros; apply H; set_solver).
  apply process_pixel_other, H. set_solver.
Qed.

(** The bytes [process_pixel] leaves at pixel [(x, y)]. *)
Lemma process_pixel_at d w out x y :
  (index w x y + 3 < length out)%nat →
  let out' := process_pixel d w out (x, y) in
  let v := to_uint8_clamp (value d w x y) in
  out' !! index w x y = Some v ∧
  out' !! (index w x y + 1)%nat = Some v ∧
  out' !! (index w x y + 2)%nat = Some v ∧
  out' !! (index w x y + 3)%nat = Some 255%Z.
Proof.
  intros Hlen. unfold process_pixel, put. cbv zeta.
  repeat split.
  - rewrite !list_lookup_insert_ne by lia.
    apply list_lookup_insert_eq. lia.
  - rewrite !list_lookup_insert_ne by lia.
    apply list_lookup_insert_eq. rewrite length_insert. lia.
  - rewrite !list_lookup_insert_ne by lia.
    apply list_lookup_insert_eq. rewrite !length_insert. lia.
  - apply list_lookup_insert_eq. rewrite !length_insert. lia.
Qed.

Lemma index_inj w x y x' y' i :
  (x < w)%nat → (x' < w)%nat →
  covers w (x, y) i → covers w (x', y') i → x = x' ∧ y = y'.
Proof.
  unfold covers, index. simpl. intros Hx Hx' H H'.
  assert (y * w + x = y' * w + x')%nat as Heq by lia.
  destruct (decide (y = y')) as [->|Hne]; [lia|].
  exfalso. destruct (decide (y < y')%nat).
  - assert ((y + 1) * w ≤ y' * w)%nat by (apply Nat.mul_le_mono_r; lia). lia.
  - assert ((y' + 1) * w ≤ y * w)%nat by (apply Nat.mul_le_mono_r; lia). lia.
Qed.

Lemma pass_at d w h ps out x y :
  (∀ p, p ∈ ps → p ∈ visited w h) →
  (x, y) ∈ ps →
  (index w x y + 3 < length out)%nat →
  let out' := fold_left (process_pixel d w) ps out in
  let v := to_uint8_clamp (value d w x y) in
  out' !! index w x y = Some v ∧
  out' !! (index w x y + 1)%nat = Some v ∧
  out' !! (index w x y + 2)%nat = Some v ∧
  out' !! (index w x y + 3)%nat = Some 255%Z.
Proof.
  revert out. induction ps as [|p ps IH]; intros out Hps Hin Hlen.
  { by apply elem_of_nil in Hin. }
  simpl. destruct (decide ((x, y) ∈ ps)) as [Hlater|Hlast].
  - apply IH; [intros p' Hp'; apply Hps, elem_of_cons; by right | done |].
    by rewrite process_pixel_length.
  - apply elem_of_cons in Hin as [<-|Hin]; [|done].
    assert (Hxy : (x, y) ∈ visited w h) by (apply Hps, elem_of_cons; by left).
    apply elem_of_visited in Hxy.
    assert (Hfree : ∀ c, (c < 4)%nat → ∀ p, p ∈ ps →
              ¬ covers w p (index w x y + c)).
    { intros c Hc [x' y'] Hp Hcov.
      assert (Hp' : (x', y') ∈ visited w h)
        by (apply Hps, elem_of_cons; by right).
      apply elem_of_visited in Hp'.
      destruct (index_inj w x y x' y' (index w x y + c)) as [-> ->];
        [lia | lia | unfold covers; simpl; lia | done | done]. }
    pose proof (Hfree 0%nat) as H0. rewrite Nat.add_0_r in H0.
    rewrite !pass_other by (first [apply H0 | apply Hfree]; lia).
    by apply process_pixel_at.
Qed.

Lemma index_bound w h x y :
  (x < w)%nat → (y < h)%nat → (index w x y + 3 < 4 * w * h)%nat.
Proof.
  intros Hx Hy. unfold index.
  assert ((y + 1) * w ≤ h * w)%nat by (apply Nat.mul_le_mono_r; lia). lia.
Qed.

(** The four bytes of an interior pixel of the output. *)
Lemma interior_bytes img x y :
  interior img x y →
  let out := applySketchFilter img in
  let idx := index (width img) x y in
  let v := to_uint8_clamp (value (data img) (width img) x y) in
  out !! idx = Some v ∧ out !! (idx + 1)%nat = Some v ∧
  out !! (idx + 2)%nat = Some v ∧ out !! (idx + 3)%nat = Some 255%Z.
Proof.
  intros Hint. rewrite applySketchFilter_visits.
  apply (pass_at _ _ (height img)); [done | by apply elem_of_visited |].
  unfold createImageData. rewrite length_replicate.
  unfold interior in Hint. apply index_bound; lia.
Qed.

(** The bytes of a border pixel are the zeros of the new buffer. *)
Lemma border_bytes img x y c :
  border img x y → (c < 4)%nat →
  applySketchFilter img !! (index (width img) x y + c)%nat = Some 0%Z.
Proof.
  intros [[Hx Hy] Hedge] Hc. rewrite applySketchFilter_visits.
  rewrite pass_other.
  - unfold createImageData. apply lookup_replicate_2.
    pose proof (index_bound _ _ _ _ Hx Hy). lia.
  - intros [x' y'] Hp%elem_of_visited Hcov.
    destruct (index_inj (width img) x y x' y' (index (width img) x y + c))
      as [-> ->]; [lia | lia | unfold covers; simpl; lia | done | lia].
Qed.

(** ** Numbers *)

(** The three weights are the doubles nearest to 0.299, 0.587 and 0.114:
    [0x1.322d0e5604189p-2], [0x1.2c8b439581062p-1], [0x1.d2f1a9fbe76c9p-4]. *)
Lemma luminance_weights :
  thousandths 299 = S754_finite false 5386305154335113 (-54) ∧
  thousandths 587 = S754_finite false 5287225962532962 (-53) ∧
  thousandths 114 = S754_finite false 8214565720323785 (-56).
Proof. by vm_compute. Qed.

(** Storing into the 8-bit buffer clamps and rounds half to even. *)
Lemma to_uint8_clamp_samples :
  to_uint8_clamp (div (of_Z 1) (of_Z 2)) = 0%Z ∧
  to_uint8_clamp (div (of_Z 3) (of_Z 2)) = 2%Z ∧
  to_uint8_clamp (div (of_Z 5) (of_Z 2)) = 2%Z ∧
  to_uint8_clamp (div (of_Z 509) (of_Z 2)) = 254%Z ∧
  to_uint8_clamp (of_Z 300) = 255%Z ∧
  to_uint8_clamp (of_Z (-3)) = 0%Z ∧
  to_uint8_clamp NaN = 0%Z.
Proof. by vm_compute. Qed.

(** ** Flat frames *)

(** A number minus itself is [+0], or [NaN] when it is not finite. *)
Lemma sub_diag (a : number) : sub a a = S754_zero false ∨ sub a a = NaN.
Proof.
  destruct a as [[]|[]| |sg m e]; simpl; auto.
  left. unfold sub, SFsub. by rewrite Z.sub_diag.
Qed.

Lemma flat_magnitude (a : number) :
  let g := sub (add a a) (add a a) in
  gt (sqrt (add (mul g g) (mul g g))) threshold = false.
Proof.
  intros g. unfold g. by destruct (sub_diag (add a a)) as [-> | ->].
Qed.

Lemma uniform_gray img r g b x y :
  uniform img r g b → (x < width img)%nat → (y < height img)%nat →
  gray_at (data img) (index (width img) x y) = luminance r g b.
Proof.
  intros Hu Hx Hy. unfold gray_at, luminance, get, index.
  destruct (Hu (y * width img + x)%nat) as (Hr & Hg & Hb).
  { assert ((y + 1) * width img ≤ height img * width img)%nat
      by (apply Nat.mul_le_mono_r; lia). lia. }
  replace ((y * width img + x) * 4)%nat with (4 * (y * width img + x))%nat
    by lia.
  by rewrite Hr, Hg, Hb.
Qed.

Lemma solid_lookup n (r g b a : Z) k :
  (k < n)%nat →
  mjoin (replicate n [r; g; b; a]) !! (4 * k)%nat = Some r ∧
  mjoin (replicate n [r; g; b; a]) !! (4 * k + 1)%nat = Some g ∧
  mjoin (replicate n [r; g; b; a]) !! (4 * k + 2)%nat = Some b.
Proof.
  revert k. induction n as [|n IH]; intros k Hk; [lia|].
  destruct k as [|k]; [done|].
  replace (4 * S k)%nat with (S (S (S (S (4 * k))))) by lia.
  apply IH. lia.
Qed.

Lemma solid_uniform w h r g b a : uniform (solid w h r g b a) r g b.
Proof. intros k Hk. by apply solid_lookup. Qed.

Lemma uniform_flat img r g b x y :
  uniform img r g b → interior img x y →
  isEdge (data img) (width img) x y = false.
Proof.
  intros Hu (Hx1 & Hx2 & Hy1 & Hy2). unfold isEdge, magnitude.
  do 4 rewrite (uniform_gray img r g b) by (done || lia).
  apply flat_magnitude.
Qed.

(** C5 (as amended).  At an interior pixel whose gradient magnitude [m],
    computed from the luminance of the four diagonal neighbours, exceeds 30,
    the three colour bytes of the output all hold [max(0, 255 - m)] as the
    8-bit buffer stores it (rounded to the nearest integer, ties to even)
    and the alpha byte is 255. *)
Theorem edge_pixel_bytes img x y :
  interior img x y →
  let out := applySketchFilter img in
  let idx := index (width img) x y in
  let m := magnitude (data img) (width img) x y in
  gt m threshold = true →
  let v := to_uint8_clamp (Math_max (of_Z 0) (sub (of_Z 255) m)) in
  out !! idx = Some v ∧ out !! (idx + 1)%nat = Some v ∧
  out !! (idx + 2)%nat = Some v ∧ out !! (idx + 3)%nat = Some 255%Z.
Proof.
  intros Hint out idx m Hedge v.
  pose proof (interior_bytes img x y Hint) as H. cbv zeta in H.
  unfold value, isEdge in H. fold m in H. rewrite Hedge in H. exact H.
Qed.

(** C6 (as amended).  In a frame all of whose pixels have the colour
    [(r, g, b)], no interior pixel is classified as an edge, and the three
    colour bytes of the output hold [min(255, Y + 30)], [Y] the luminance of
    the colour, as the 8-bit buffer stores it (rounded to the nearest
    integer, ties to even); the alpha byte is 255. *)
Theorem uniform_pixel_bytes img r g b x y :
  uniform img r g b → interior img x y →
  let out := applySketchFilter img in
  let idx := index (width img) x y in
  let v := to_uint8_clamp
             (Math_min (of_Z 255) (add (luminance r g b) (of_Z 30))) in
  isEdge (data img) (width img) x y = false ∧
  out !! idx = Some v ∧ out !! (idx + 1)%nat = Some v ∧
  out !! (idx + 2)%nat = Some v ∧ out !! (idx + 3)%nat = Some 255%Z.
Proof.
  intros Hu Hint out idx v.
  pose proof (uniform_flat img r g b x y Hu Hint) as Hflat.
  split; [done|].
  pose proof (interior_bytes img x y Hint) as H. cbv zeta in H.
  unfold value in H. rewrite Hflat in H.
  rewrite (uniform_gray img r g b) in H;
    [exact H | done | unfold interior in Hint; lia ..].
Qed.

(** C7 (as amended).  The output buffer has the dimensions of the input,
    [4 * width * height] bytes; the alpha byte of every interior pixel is
    255; the four bytes of every border pixel are the zeros of the new
    buffer, which the loops never write. *)
Theorem output_frame_shape img :
  length (applySketchFilter img) = (4 * width img * height img)%nat ∧
  (∀ x y, interior img x y →
     applySketchFilter img !! (index (width img) x y + 3)%nat = Some 255%Z) ∧
  (∀ x y c, border img x y → (c < 4)%nat →
     applySketchFilter img !! (index (width img) x y + c)%nat = Some 0%Z).
Proof.
  split; [|split].
  - rewrite applySketchFilter_visits, pass_length.
    unfold createImageData. by rewrite length_replicate.
  - intros x y Hint. by apply (interior_bytes img x y Hint).
  - intros x y c. apply border_bytes.
Qed.

End SketchFacts.

(* ===================================================================== *)
(** * The facts at concrete pages and frames                             *)
(* ===================================================================== *)

Section Instances.

Import Examples.

(** The gallery window, at (100, 100) and 300 wide on a 1200 by 800
    viewport, is dragged by (50, -30) in two moves. *)
Lemma drag_position_clamped_witness :
  let s := desktop 1200 800 in
  let lay := sized 300 200 in
  let w := "galleryWindow" in
  let down := pointer 400 110 in
  let ms := [pointer 420 100] in
  let e := pointer 450 80 in
  let before := WM.drag_moves lay ms (WM.startDrag lay w down s).1 in
  let moved := (WM.handleDrag lay e before).1 in
  let final := WM.drag_session lay w down (ms ++ [e]) e s in
  let width := WM.r_width (lay (WM.dom before) w) in
  let vw := WM.innerWidth (WM.dom s) in
  let vh := WM.innerHeight (WM.dom s) in
  let pressed := WM.drag_session lay w down [] e s in
  let rect :=
    lay (WM.update_element w (WM.set_header_cursor "grabbing") (WM.dom s))
        w in
  (∃ l t : Q,
    WM.left_of moved w = Some l ∧ WM.top_of moved w = Some t ∧
    WM.left_of final w = Some l ∧ WM.top_of final w = Some t ∧
    (- (width - 100) <= l)%Q ∧ (0 <= t)%Q ∧
    ((200 <= width + vw)%Q → (l <= vw - 100)%Q) ∧
    ((50 <= vh)%Q → (t <= vh - 50)%Q) ∧
    ((width + vw < 200)%Q → (l == - (width - 100))%Q) ∧
    ((vh < 50)%Q → (t == 0)%Q)) ∧
  WM.left_of pressed w = Some (WM.r_left rect) ∧
  WM.top_of pressed w = Some (WM.r_top rect).
Proof.
  apply (drag_position_clamped (sized 300 200) "galleryWindow"
           (pointer 400 110) [pointer 420 100] (pointer 450 80)
           (pointer 450 80) (desktop 1200 800)).
  vm_compute. eauto.
Defined.

(** The scenario of the specification: the window at (100, 100), 300 wide,
    dragged by (50, -30) on a 1200 by 800 viewport ends at (150, 70). *)
Example drag_scenario :
  let final := WM.drag_session (sized 300 200) "galleryWindow"
                 (pointer 400 110) [pointer 420 100; pointer 450 80]
                 (pointer 450 80) (desktop 1200 800) in
  WM.left_of final "galleryWindow" = Some 150%Q ∧
  WM.top_of final "galleryWindow" = Some 70%Q ∧
  WM.isDragging (WM.mgr final) = false ∧
  WM.doc_listeners (WM.dom final) = [].
Proof. by vm_compute. Qed.

(** C1, as stated, fails in two ways.  On a 120 by 40 viewport with a
    window 60 wide the lower clamps win, and the session ends at
    left = 40 > 120 - 100 and top = 0 > 40 - 50.  And a session without a
    pointer move ends where it started: a window 900 tall shown on a 1200 by
    800 viewport sits at top = -50, and pressing and releasing its header
    leaves it there. *)
Lemma drag_position_clamped_counterexample :
  let final := WM.drag_session (sized 60 30) "galleryWindow"
                 (pointer 110 110) [pointer 90 105] (pointer 90 105)
                 (desktop 120 40) in
  let tall := sized 300 900 in
  let opened := (WM.showWindow tall never_hidden "galleryWindow" true
                   (desktop 1200 800)).1 in
  let pressed := WM.drag_session tall "galleryWindow"
                   (pointer 600 (-40)) [] (pointer 600 (-40)) opened in
  (∃ l t : Q,
     WM.left_of final "galleryWindow" = Some l ∧
     WM.top_of final "galleryWindow" = Some t ∧
     ¬ (l <= 120 - 100)%Q ∧ ¬ (t <= 40 - 50)%Q) ∧
  (∃ t : Q, WM.top_of pressed "galleryWindow" = Some t ∧ ¬ (0 <= t)%Q).
Proof.
  split.
  - exists 40%Q, 0%Q. repeat split; try (vm_compute; reflexivity).
    + unfold Qle. simpl. lia.
    + unfold Qle. simpl. lia.
  - eexists. split; [vm_compute; reflexivity|]. unfold Qle. simpl. lia.
Qed.

Lemma bringToFront_recency_witness :
  let s := desktop 1200 800 in
  let ids := ["galleryWindow"; "notepadWindow"; "galleryWindow"] in
  (∀ k w, ids !! k = Some w →
     let before := WM.bringToFront_all (take k ids) s in
     let after := WM.bringToFront_all (take (S k) ids) s in
     after = WM.bringToFront (Some w) before ∧
     WM.currentZIndex (WM.mgr after)
     = (WM.currentZIndex (WM.mgr before) + 1)%Z ∧
     WM.currentZIndex (WM.mgr after)
     = (WM.currentZIndex (WM.mgr s) + Z.of_nat k + 1)%Z ∧
     WM.zIndex_of after w = Some (WM.currentZIndex (WM.mgr after))) ∧
  (∀ j k, (j < k < length ids)%nat →
     (WM.currentZIndex (WM.mgr (WM.bringToFront_all (take (S j) ids) s))
      < WM.currentZIndex (WM.mgr (WM.bringToFront_all (take (S k) ids) s)))%Z) ∧
  (∀ w, last ids = Some w →
     let final := WM.bringToFront_all ids s in
     WM.zIndex_of final w = Some (WM.currentZIndex (WM.mgr final)) ∧
     ∀ w' z', w' ≠ w → WM.zIndex_of final w' = Some z' →
       (z' < WM.currentZIndex (WM.mgr final))%Z).
Proof.
  apply (bringToFront_recency
           ["galleryWindow"; "notepadWindow"; "galleryWindow"]
           (desktop 1200 800)).
  - unfold WM.below_counter. apply (bool_decide_unpack _). vm_compute.
    exact I.
  - apply (bool_decide_unpack _). vm_compute. exact I.
Defined.

(** A gallery window 300 by 200 is shown on a 1200 by 800 viewport. *)
Lemma showWindow_centers_witness :
  let s := desktop 1200 800 in
  let measured :=
    sized 300 200
      (WM.dom (WM.shown (sized 300 200) never_hidden "galleryWindow" s))
      "galleryWindow" in
  let s' := (WM.showWindow (sized 300 200) never_hidden "galleryWindow"
               true s).1 in
  ∃ el, WM.elements (WM.dom s') !! "galleryWindow" = Some el ∧
    WM.el_active el = true ∧
    WM.el_left el
    = Some ((WM.innerWidth (WM.dom s) - WM.r_width measured) / 2)%Q ∧
    WM.el_top el
    = Some ((WM.innerHeight (WM.dom s) - WM.r_height measured) / 2)%Q ∧
    WM.el_zIndex el = Some (WM.currentZIndex (WM.mgr s) + 1)%Z ∧
    WM.currentZIndex (WM.mgr s') = (WM.currentZIndex (WM.mgr s) + 1)%Z.
Proof.
  apply (showWindow_centers (sized 300 200) never_hidden "galleryWindow"
           true (desktop 1200 800)).
  vm_compute. eauto.
Defined.

(** C4, as stated, fails for a window 1000 by 700 shown on an 800 by 600
    viewport: it is placed at left = -100, top = -50. *)
Lemma showWindow_centers_counterexample :
  let s' := (WM.showWindow (sized 1000 700) never_hidden "galleryWindow"
               true (desktop 800 600)).1 in
  ∃ l t : Q,
    WM.left_of s' "galleryWindow" = Some l ∧
    WM.top_of s' "galleryWindow" = Some t ∧
    (l == -100)%Q ∧ (t == -50)%Q ∧ (l < 0)%Q ∧ (t < 0)%Q.
Proof.
  eexists _, _. split; [vm_compute; reflexivity|].
  split; [vm_compute; reflexivity|]. by repeat split.
Qed.

Lemma idle_drag_handlers_witness :
  WM.handleDrag (sized 300 200) (pointer 450 80) (desktop 1200 800)
  = (desktop 1200 800, pointer 450 80) ∧
  WM.stopDrag (pointer 450 80) (desktop 1200 800)
  = (desktop 1200 800, pointer 450 80).
Proof.
  apply (idle_drag_handlers_are_noops (sized 300 200) (pointer 450 80)
           (desktop 1200 800)).
  reflexivity.
Defined.

(** ** The freeze controller *)



Lemma unblockInteractions_exact_witness :
  let s := Freeze.constructed toggle_button None [menu_closer] 1 in
  Freeze.unblockInteractions s = s ∧
  Freeze.interceptors (Freeze.unblockInteractions s) = [] ∧
  Freeze.listeners (Freeze.unblockInteractions (Freeze.blockInteractions s))
  = Freeze.listeners s ∧
  Freeze.interceptors
    (Freeze.unblockInteractions (Freeze.blockInteractions s)) = [] ∧
  Freeze.blockers (Freeze.unblockInteractions (Freeze.blockInteractions s))
  = [None; None; None; None] ∧
  (∀ t, Freeze.unblockInteractions (Freeze.unblockInteractions t)
        = Freeze.unblockInteractions t).
Proof.
  apply (unblockInteractions_exact (Freeze.constructed toggle_button None [menu_closer] 1)).
  - reflexivity.
  - repeat constructor.
Defined.

(** ** The gallery *)

Lemma gallery_shows_submissions_witness :
  let submit :=
    Gallery.submitDrawing string encode (λ _, "") 1700000000000 "10:00:00" in
  let d := {| Gallery.id := 1700000000000;
              Gallery.dataURL := encode "image/png" "iVBORw0KGgo=";
              Gallery.timestamp := "10:00:00" |} in
  let shown := Gallery.gallery_items (submit notepad) in
  (∀ os, Gallery.drawings notepad `prefix_of`
         Gallery.drawings (Gallery.run string encode (λ _, "") os notepad)) ∧
  (is_Some (Gallery.galleryGrid notepad) →
   length (Gallery.gallery_items (Gallery.renderGallery notepad))
   = length (Gallery.drawings notepad) ∧
   ∀ i d, Gallery.drawings notepad !! i = Some d →
     Gallery.gallery_items (Gallery.renderGallery notepad) !! i
     = Some (Gallery.Item (Gallery.dataURL d)
               ("Drawing " ++ pretty (i + 1)%nat) (Gallery.timestamp d))) ∧
  Gallery.drawings (submit notepad)
  = (Gallery.drawings notepad ++ [d])%list ∧
  (is_Some (Gallery.galleryGrid notepad) →
   length shown = S (length (Gallery.drawings notepad)) ∧
   shown !! length (Gallery.drawings notepad)
   = Some (Gallery.Item (encode "image/png" "iVBORw0KGgo=")
             ("Drawing " ++ pretty (length (Gallery.drawings notepad) + 1)%nat)
             "10:00:00") ∧
   ∀ i d', Gallery.drawings notepad !! i = Some d' →
     shown !! i
     = Some (Gallery.Item (Gallery.dataURL d')
               ("Drawing " ++ pretty (i + 1)%nat) (Gallery.timestamp d'))).
Proof.
  apply (gallery_shows_submissions string encode (λ _, "") 1700000000000
           "10:00:00" notepad).
Defined.

(** Two submissions in a row are shown in order. *)
Example two_submissions :
  let a := Gallery.run string encode (λ _, "")
             [Gallery.Submit 1 "10:00:00"; Gallery.Submit 2 "10:05:00"]
             notepad in
  Gallery.galleryGrid a
  = Some [Gallery.Item "data:image/png;base64,iVBORw0KGgo=" "Drawing 1"
            "10:00:00";
          Gallery.Item "data:image/png;base64," "Drawing 2" "10:05:00"].
Proof. by vm_compute. Qed.

(** ** The pixel filter *)

(** The scenario of the specification: on a 3 by 3 frame with a black left
    column and white elsewhere the centre has magnitude 510 > 30 and is
    written as [max(0, 255 - 510) = 0], opaque. *)
Example boundary_scenario :
  let img := {| Sketch.width := 3; Sketch.height := 3;
                Sketch.data :=
                  [0; 0; 0; 255;   255; 255; 255; 255;   255; 255; 255; 255;
                   0; 0; 0; 255;   255; 255; 255; 255;   255; 255; 255; 255;
                   0; 0; 0; 255;   255; 255; 255; 255;   255; 255; 255; 255]%Z
             |} in
  Sketch.magnitude (Sketch.data img) 3 1 1 = Sketch.of_Z 510 ∧
  Sketch.isEdge (Sketch.data img) 3 1 1 = true ∧
  take 4 (drop 16 (Sketch.applySketchFilter img)) = [0; 0; 0; 255]%Z.
Proof. by vm_compute. Qed.

(** The centre of [corner_frame] is an edge pixel. *)
Lemma edge_pixel_bytes_witness :
  let out := Sketch.applySketchFilter corner_frame in
  let idx := Sketch.index (Sketch.width corner_frame) 1 1 in
  let m := Sketch.magnitude (Sketch.data corner_frame)
             (Sketch.width corner_frame) 1 1 in
  let v := Sketch.to_uint8_clamp
             (Sketch.Math_max (Sketch.of_Z 0)
                (Sketch.sub (Sketch.of_Z 255) m)) in
  out !! idx = Some v ∧ out !! (idx + 1)%nat = Some v ∧
  out !! (idx + 2)%nat = Some v ∧ out !! (idx + 3)%nat = Some 255%Z.
Proof.
  apply (edge_pixel_bytes corner_frame 1 1).
  - unfold Sketch.interior. simpl. lia.
  - vm_compute. reflexivity.
Defined.

(** C5, as stated, fails at the centre of [corner_frame]: the pixel is an
    edge, [max(0, 255 - m)] is 113.578..., the bytes written are 114. *)
Lemma edge_pixel_bytes_counterexample :
  let d := Sketch.data corner_frame in
  let m := Sketch.magnitude d 3 1 1 in
  let claimed := Sketch.Math_max (Sketch.of_Z 0)
                   (Sketch.sub (Sketch.of_Z 255) m) in
  Sketch.interior corner_frame 1 1 ∧
  Sketch.gt m Sketch.threshold = true ∧
  claimed = S754_finite false 7992386526982800 (-46) ∧
  Sketch.applySketchFilter corner_frame !! Sketch.index 3 1 1 = Some 114%Z ∧
  SFeqb (Sketch.of_Z 114) claimed = false.
Proof.
  split; [unfold Sketch.interior; simpl; lia|]. by vm_compute.
Qed.

(** A grey frame. *)
Lemma uniform_pixel_bytes_witness :
  let img := Sketch.solid 4 3 200 200 200 255 in
  let out := Sketch.applySketchFilter img in
  let idx := Sketch.index (Sketch.width img) 2 1 in
  let v := Sketch.to_uint8_clamp
             (Sketch.Math_min (Sketch.of_Z 255)
                (Sketch.add (Sketch.luminance 200 200 200)
                   (Sketch.of_Z 30))) in
  Sketch.isEdge (Sketch.data img) (Sketch.width img) 2 1 = false ∧
  out !! idx = Some v ∧ out !! (idx + 1)%nat = Some v ∧
  out !! (idx + 2)%nat = Some v ∧ out !! (idx + 3)%nat = Some 255%Z.
Proof.
  apply (uniform_pixel_bytes (Sketch.solid 4 3 200 200 200 255)
           200 200 200 2 1).
  - apply solid_uniform.
  - unfold Sketch.interior. simpl. lia.
Defined.

(** C6, as stated, fails on the frame of colour (1, 0, 0): the pixel is
    flat, [min(255, Y + 30)] is 30.299, the bytes written are 30. *)
Lemma uniform_pixel_bytes_counterexample :
  let img := Sketch.solid 3 3 1 0 0 255 in
  let claimed := Sketch.Math_min (Sketch.of_Z 255)
                   (Sketch.add (Sketch.luminance 1 0 0) (Sketch.of_Z 30)) in
  Sketch.uniform img 1 0 0 ∧ Sketch.interior img 1 1 ∧
  Sketch.isEdge (Sketch.data img) 3 1 1 = false ∧
  claimed = S754_finite false 8528410319356166 (-48) ∧
  Sketch.applySketchFilter img !! Sketch.index 3 1 1 = Some 30%Z ∧
  SFeqb (Sketch.of_Z 30) claimed = false.
Proof.
  split; [apply solid_uniform|].
  split; [unfold Sketch.interior; simpl; lia|]. by vm_compute.
Qed.

Lemma output_frame_shape_witness :
  let out := Sketch.applySketchFilter corner_frame in
  length out = 36%nat ∧ out !! 19%nat = Some 255%Z ∧ out !! 11%nat = Some 0%Z.
Proof.
  destruct (output_frame_shape corner_frame) as (Hlen & Hin & Hout).
  split; [exact Hlen|]. split.
  - apply (Hin 1%nat 1%nat). unfold Sketch.interior. simpl. lia.
  - apply (Hout 2%nat 0%nat 3%nat); [|lia].
    unfold Sketch.border. simpl. lia.
Defined.

(** C7, as stated, fails at the top-left pixel of an opaque frame: its alpha
    byte in the output is 0. *)
Lemma output_frame_shape_counterexample :
  let img := Sketch.solid 3 3 10 20 30 255 in
  Sketch.data img !! 3%nat = Some 255%Z ∧
  Sketch.applySketchFilter img !! 3%nat = Some 0%Z ∧
  Sketch.applySketchFilter img !! 3%nat ≠ Some 255%Z.
Proof. by vm_compute. Qed.

End Instances.

(* ===================================================================== *)
(** * More facts about the window manager                                *)
(* ===================================================================== *)

Section WindowsFacts.

Import WM Windows.

Variable layout : browser → string → rect.
Variable display_none : browser → string → bool.

(** ** A drag session from pointer-down to pointer-up *)

Lemma startDrag_doc_listeners w down s :
  doc_listeners (dom (startDrag layout w down s).1)
  = addEventListener "pointercancel" StopDrag
      (addEventListener "pointerup" StopDrag
         (addEventListener "pointermove" HandleDrag (doc_listeners (dom s)))).
Proof.
  unfold startDrag. cbv zeta. cbn [fst].
  cbn [with_dom dom with_body_select with_doc_listeners doc_listeners].
  by rewrite bringToFront_dom.
Qed.

Lemma handleDrag_doc_listeners e s :
  doc_listeners (dom (handleDrag layout e s).1) = doc_listeners (dom s).
Proof.
  unfold handleDrag.
  by destruct (isDragging (mgr s)), (activeWindow (mgr s)).
Qed.

Lemma drag_moves_doc_listeners ms s :
  doc_listeners (dom (drag_moves layout ms s)) = doc_listeners (dom s).
Proof.
  revert s. induction ms as [|e ms IH]; intros s; [done|].
  simpl. by rewrite IH, handleDrag_doc_listeners.
Qed.

Lemma removed_drag_listeners l :
  removeEventListener "pointercancel" StopDrag
    (removeEventListener "pointerup" StopDrag
       (removeEventListener "pointermove" HandleDrag l))
  = filter (λ p, p ∉ drag_listeners) l.
Proof.
  unfold removeEventListener. rewrite !list_filter_filter.
  apply list_filter_iff. intros p. unfold drag_listeners.
  rewrite !not_elem_of_cons. pose proof (not_elem_of_nil p). tauto.
Qed.

Lemma added_drag_listener ty h l :
  (ty, h) ∈ drag_listeners →
  filter (λ p, p ∉ drag_listeners) (addEventListener ty h l)
  = filter (λ p, p ∉ drag_listeners) l.
Proof.
  intros Hin. unfold addEventListener. case_decide; [done|].
  rewrite filter_app, filter_singleton_False by tauto.
  by rewrite app_nil_r.
Qed.

Lemma stopDrag_after up t :
  isDragging (mgr t) = true →
  let r := (stopDrag up t).1 in
  isDragging (mgr r) = false ∧ activeWindow (mgr r) = None ∧
  body_userSelect (dom r) = "" ∧
  doc_listeners (dom r)
  = filter (λ p, p ∉ drag_listeners) (doc_listeners (dom t)) ∧
  ∀ w, transition_of r w = transition_of t w.
Proof.
  intros Hd. unfold stopDrag. rewrite Hd. cbn [fst].
  cbn [with_dom with_mgr dom mgr with_body_select with_doc_listeners
       doc_listeners isDragging activeWindow set_drag body_userSelect].
  rewrite removed_drag_listeners.
  repeat split.
  - by destruct (activeWindow (mgr t)).
  - intros w. unfold transition_of.
    destruct (activeWindow (mgr t)) as [a|]; simpl; [|done].
    destruct (decide (a = w)) as [->|Hne].
    + rewrite lookup_alter_eq. by destruct (elements (dom t) !! w).
    + by rewrite lookup_alter_ne.
Qed.

(** X1.  A drag session, whatever the moves, ends idle: no window is
    active, text selection is on again, and [document] carries none of the
    three drag listeners, so that sessions do not pile listeners up; the
    other listeners of [document] are as before. *)
Theorem drag_session_returns_to_idle w down ms up s :
  is_Some (elements (dom s) !! w) →
  let final := drag_session layout w down ms up s in
  isDragging (mgr final) = false ∧
  activeWindow (mgr final) = None ∧
  body_userSelect (dom final) = "" ∧
  doc_listeners (dom final)
  = filter (λ p, p ∉ drag_listeners) (doc_listeners (dom s)).
Proof.
  intros Hel final.
  pose proof (drag_moves_dragging layout w _ _ ms _
                (startDrag_dragging layout w down s Hel)) as (Hd & _).
  destruct (stopDrag_after up _ Hd) as (H1 & H2 & H3 & H4 & _).
  unfold final, drag_session. repeat split; [done..|].
  rewrite H4, drag_moves_doc_listeners, startDrag_doc_listeners.
  rewrite !added_drag_listener; [done | | |]; unfold drag_listeners;
    set_solver.
Qed.

(** ** What pointer-down does to the window *)

Lemma startDrag_element w down s el :
  elements (dom s) !! w = Some el →
  ∃ x y,
    elements (dom (startDrag layout w down s).1) !! w
    = Some (set_zIndex (currentZIndex (mgr s) + 1)
              (set_transition "none"
                 (set_transform_margin "none" "0"
                    (set_position x y (set_header_cursor "grabbing" el))))).
Proof.
  intros Hel. unfold startDrag. cbv zeta. cbn [fst].
  cbn [with_dom dom with_body_select with_doc_listeners elements].
  rewrite bringToFront_dom. simpl.
  rewrite !lookup_alter_eq, Hel. simpl. eauto.
Qed.

Lemma startDrag_element_ne w w' down s :
  w ≠ w' →
  elements (dom (startDrag layout w down s).1) !! w'
  = elements (dom s) !! w'.
Proof.
  intros Hne. unfold startDrag. cbv zeta. cbn [fst].
  cbn [with_dom dom with_body_select with_doc_listeners elements].
  rewrite bringToFront_dom. simpl.
  by rewrite !lookup_alter_ne.
Qed.

Lemma startDrag_counter w down s :
  currentZIndex (mgr (startDrag layout w down s).1)
  = (currentZIndex (mgr s) + 1)%Z.
Proof.
  unfold startDrag. cbv zeta. cbn [fst].
  cbn [with_dom mgr]. by rewrite bringToFront_counter.
Qed.

(** X2.  Pressing a window's drag handle raises it: the window gets the
    incremented counter as z-index, strictly above the z-index of every
    other element (none of which changes), provided no z-index exceeded the
    counter before. *)
Theorem startDrag_raises w down s :
  below_counter s →
  is_Some (elements (dom s) !! w) →
  let s' := (startDrag layout w down s).1 in
  currentZIndex (mgr s') = (currentZIndex (mgr s) + 1)%Z ∧
  zIndex_of s' w = Some (currentZIndex (mgr s')) ∧
  ∀ w' z', w' ≠ w →
    zIndex_of s' w' = Some z' →
    zIndex_of s w' = Some z' ∧ (z' < currentZIndex (mgr s'))%Z.
Proof.
  intros Hbelow [el Hel] s'. unfold s'. rewrite startDrag_counter.
  split; [done|]. split.
  - unfold zIndex_of.
    destruct (startDrag_element w down s el Hel) as (x & y & ->). done.
  - intros w' z' Hne. unfold zIndex_of.
    rewrite startDrag_element_ne by done. intros Hz. split; [done|].
    pose proof (below_counter_zIndex s w' z' Hbelow Hz). lia.
Qed.

(** ** The timer of [stopDrag] *)

Lemma handleDrag_transition e s w :
  transition_of (handleDrag layout e s).1 w = transition_of s w.
Proof.
  unfold transition_of, handleDrag.
  destruct (isDragging (mgr s)); [|done].
  destruct (activeWindow (mgr s)) as [a|]; [|done]. simpl.
  destruct (decide (a = w)) as [->|Hne].
  - rewrite lookup_alter_eq. by destruct (elements (dom s) !! w).
  - by rewrite lookup_alter_ne.
Qed.

Lemma drag_moves_transition ms s w :
  transition_of (drag_moves layout ms s) w = transition_of s w.
Proof.
  revert s. induction ms as [|e ms IH]; intros s; [done|].
  simpl. by rewrite IH, handleDrag_transition.
Qed.

Lemma fire_timer_idle s w :
  activeWindow (mgr s) = None →
  activeWindow (mgr (fire_timer s)) = None ∧
  transition_of (fire_timer s) w = transition_of s w.
Proof.
  intros Ha. unfold fire_timer, restore_transition.
  destruct (timers (dom s)); simpl; by rewrite Ha.
Qed.

(** X3.  After a drag session the window's [transition] style stays
    ['none']: the timer callback reads [this.activeWindow] when it fires,
    and [stopDrag] has set it to [null] by then, so the callback restores
    nothing, however many timers fire. *)
Theorem transition_stays_off w down ms up k s :
  is_Some (elements (dom s) !! w) →
  let final := drag_session layout w down ms up s in
  (0 < timers (dom final))%nat ∧
  transition_of (Nat.iter k fire_timer final) w = Some "none".
Proof.
  intros Hel final.
  pose proof (drag_moves_dragging layout w _ _ ms _
                (startDrag_dragging layout w down s Hel)) as (Hd & Ha & _).
  destruct (stopDrag_after up _ Hd) as (_ & Hnone & _ & _ & Htr).
  fold (drag_session layout w down ms up s) in Hnone, Htr.
  fold final in Hnone, Htr. split.
  - unfold final, drag_session, stopDrag. rewrite Hd. cbn [fst].
    cbn [with_dom with_mgr dom mgr activeWindow set_drag].
    rewrite Ha. simpl. lia.
  - assert (Hk : activeWindow (mgr (Nat.iter k fire_timer final)) = None ∧
              transition_of (Nat.iter k fire_timer final) w
              = transition_of final w).
    { induction k as [|k [IH1 IH2]]; [done|]. simpl.
      destruct (fire_timer_idle (Nat.iter k fire_timer final) w IH1)
        as [H1 H2].
      split; [done|]. by rewrite H2. }
    destruct Hk as [_ ->]. rewrite Htr, drag_moves_transition.
    destruct Hel as [el Hel]. unfold transition_of.
    destruct (startDrag_element w down s el Hel) as (x & y & ->). done.
Qed.

(** ** Resizing the viewport *)

Lemma centerWindowNow_element w s :
  elements (dom (centerWindowNow layout (Some w) s)) !! w
  = (λ el, set_transform_margin "none" "0"
       (set_position
          ((innerWidth (dom s) - r_width (layout (dom s) w)) / 2)%Q
          ((innerHeight (dom s) - r_height (layout (dom s) w)) / 2)%Q el))
    <$> elements (dom s) !! w.
Proof. unfold centerWindowNow. simpl. by rewrite lookup_alter_eq. Qed.

Lemma resize_window_frame w s :
  mgr (resize_window layout w s) = mgr s ∧
  innerWidth (dom (resize_window layout w s)) = innerWidth (dom s) ∧
  innerHeight (dom (resize_window layout w s)) = innerHeight (dom s) ∧
  doc_listeners (dom (resize_window layout w s)) = doc_listeners (dom s).
Proof.
  unfold resize_window. destruct (is_active (dom s) w); [|done].
  by destruct (out_of_bounds (dom s) (layout (dom s) w)).
Qed.

Lemma resize_window_ne w w' s :
  w ≠ w' →
  elements (dom (resize_window layout w s)) !! w' = elements (dom s) !! w'.
Proof.
  intros Hne. unfold resize_window. destruct (is_active (dom s) w); [|done].
  destruct (out_of_bounds (dom s) (layout (dom s) w)); [|done].
  unfold centerWindowNow. simpl. by rewrite lookup_alter_ne.
Qed.

(** What a resize may change of an element: its position, [transform] and
    [margin]. *)
Lemma resize_window_keeps w w' s el :
  elements (dom s) !! w' = Some el →
  ∃ el', elements (dom (resize_window layout w s)) !! w' = Some el' ∧
    el_active el' = el_active el ∧ el_zIndex el' = el_zIndex el ∧
    el_transition el' = el_transition el ∧ el_header el' = el_header el ∧
    el_listeners el' = el_listeners el ∧
    (el_active el = false → el' = el).
Proof.
  intros Hel. destruct (decide (w = w')) as [->|Hne].
  - unfold resize_window, is_active. rewrite Hel.
    destruct (el_active el) eqn:Hact; [|by exists el].
    destruct (out_of_bounds (dom s) (layout (dom s) w')); [|by exists el].
    rewrite centerWindowNow_element, Hel. simpl. eexists. split; [done|].
    by repeat split.
  - rewrite resize_window_ne by done. by exists el.
Qed.

Lemma handleResize_cons w order s :
  handleResize layout (w :: order) s
  = handleResize layout order (resize_window layout w s).
Proof. reflexivity. Qed.

(** X4.  [handleResize] touches nothing but the position, [transform] and
    [margin] of windows: the manager's fields, the viewport and the
    listeners of [document] are unchanged; every element keeps its active
    flag, z-index, transition, header and listeners; and an element that is
    not active is not changed at all. *)
Theorem handleResize_frame order s :
  let s' := handleResize layout order s in
  mgr s' = mgr s ∧
  innerWidth (dom s') = innerWidth (dom s) ∧
  innerHeight (dom s') = innerHeight (dom s) ∧
  doc_listeners (dom s') = doc_listeners (dom s) ∧
  ∀ w el, elements (dom s) !! w = Some el →
    ∃ el', elements (dom s') !! w = Some el' ∧
      el_active el' = el_active el ∧ el_zIndex el' = el_zIndex el ∧
      el_transition el' = el_transition el ∧ el_header el' = el_header el ∧
      el_listeners el' = el_listeners el ∧
      (el_active el = false → el' = el).
Proof.
  revert s. induction order as [|w0 order IH]; intros s.
  { repeat split. intros w el Hel. exists el. by repeat split. }
  destruct (IH (resize_window layout w0 s)) as (H1 & H2 & H3 & H4 & H5).
  destruct (resize_window_frame w0 s) as (F1 & F2 & F3 & F4).
  cbv zeta. rewrite handleResize_cons.
  rewrite H1, H2, H3, H4, F1, F2, F3, F4. repeat split.
  intros w el Hel.
  destruct (resize_window_keeps w0 w s el Hel)
    as (el1 & Hel1 & A1 & Z1 & T1 & Hd1 & L1 & I1).
  destruct (H5 w el1 Hel1) as (el2 & Hel2 & A2 & Z2 & T2 & Hd2 & L2 & I2).
  exists el2. split; [done|].
  rewrite A2, Z2, T2, Hd2, L2, A1, Z1, T1, Hd1, L1. repeat split.
  intros Hoff. rewrite I2, I1; [done | done |]. by rewrite A1.
Qed.

Lemma resize_window_local w s t :
  local_layout layout →
  elements (dom s) !! w = elements (dom t) !! w →
  innerWidth (dom s) = innerWidth (dom t) →
  innerHeight (dom s) = innerHeight (dom t) →
  elements (dom (resize_window layout w s)) !! w
  = elements (dom (resize_window layout w t)) !! w.
Proof.
  intros Hloc Hel Hw Hh.
  pose proof (Hloc (dom s) (dom t) w Hel Hw Hh) as Hlay.
  unfold resize_window, is_active, out_of_bounds.
  rewrite Hel, Hlay, Hw, Hh.
  destruct (elements (dom t) !! w) as [el|] eqn:Ht; [|by rewrite Hel].
  destruct (el_active el); [|by rewrite Hel].
  match goal with |- context [if ?c then _ else _] => destruct c end;
    [|by rewrite Hel].
  by rewrite !centerWindowNow_element, Hel, Ht, Hlay, Hw, Hh.
Qed.

Lemma handleResize_not_listed order w s :
  w ∉ order →
  elements (dom (handleResize layout order s)) !! w = elements (dom s) !! w.
Proof.
  revert s. induction order as [|w0 order IH]; intros s Hw; [done|].
  apply not_elem_of_cons in Hw as [Hne Hw].
  rewrite handleResize_cons, IH by done. by apply resize_window_ne.
Qed.

(** X5.  When the layout of a window depends on its own element and the
    viewport only, [handleResize] treats the registered windows
    independently of each other and of the traversal order: an active
    window whose box reaches more than 100px past the left, right or bottom
    edge of the viewport, or above its top edge, ends centered on the size
    measured before the pass; every other element is unchanged. *)
Theorem handleResize_recenters order w s :
  local_layout layout →
  NoDup order →
  let s' := handleResize layout order s in
  let r := layout (dom s) w in
  if bool_decide (w ∈ order) && is_active (dom s) w
     && out_of_bounds (dom s) r
  then left_of s' w = Some ((innerWidth (dom s) - r_width r) / 2)%Q ∧
       top_of s' w = Some ((innerHeight (dom s) - r_height r) / 2)%Q
  else elements (dom s') !! w = elements (dom s) !! w.
Proof.
  intros Hloc Hnd s' r.
  assert (Hstep : w ∈ order →
            elements (dom s') !! w
            = elements (dom (resize_window layout w s)) !! w).
  { unfold s'. clear s' r. revert s.
    induction order as [|w0 order IH]; intros s Hin.
    { by apply elem_of_nil in Hin. }
    apply NoDup_cons in Hnd as [Hw0 Hnd].
    rewrite handleResize_cons.
    destruct (decide (w = w0)) as [->|Hne].
    - by rewrite handleResize_not_listed.
    - apply elem_of_cons in Hin as [?|Hin]; [done|].
      rewrite (IH Hnd) by done.
      destruct (resize_window_frame w0 s) as (_ & Hw & Hh & _).
      apply resize_window_local; [done | | done | done].
      by apply resize_window_ne. }
  case_bool_decide as Hin; cbn [andb]; [|by apply handleResize_not_listed].
  assert (Hres : elements (dom (resize_window layout w s)) !! w
            = if is_active (dom s) w && out_of_bounds (dom s) r
              then elements (dom (centerWindowNow layout (Some w) s)) !! w
              else elements (dom s) !! w).
  { unfold resize_window. fold r.
    by destruct (is_active (dom s) w), (out_of_bounds (dom s) r). }
  destruct (is_active (dom s) w) eqn:Hact; cbn [andb] in *;
    [|by rewrite Hstep, Hres].
  destruct (out_of_bounds (dom s) r); [|by rewrite Hstep, Hres].
  unfold left_of, top_of.
  rewrite (Hstep Hin), Hres, centerWindowNow_element. fold r.
  unfold is_active in Hact.
  destruct (elements (dom s) !! w); [done | discriminate].
Qed.

(** ** Showing, hiding and resetting *)








(** X7.  [resetWindowPosition] drops the inline position and sets the
    window up again: a window that is active or displayed ends centered on
    the size measured after the inline position is dropped, any other
    window ends with no inline position; the z-index recorded in
    [this.windows] goes back to the base value while the inline z-index of
    the element and the counter stay as they are. *)
Theorem resetWindowPosition_effect w s el :
  elements (dom s) !! w = Some el →
  let s0 := with_dom (update_element w clear_position) s in
  let r := layout (dom s0) w in
  let s' := resetWindowPosition layout display_none w s in
  stored_zIndex s' w = Some (baseZIndex (mgr s)) ∧
  zIndex_of s' w = el_zIndex el ∧
  currentZIndex (mgr s') = currentZIndex (mgr s) ∧
  if el_active el || negb (display_none (dom s0) w)
  then left_of s' w = Some ((innerWidth (dom s) - r_width r) / 2)%Q ∧
       top_of s' w = Some ((innerHeight (dom s) - r_height r) / 2)%Q
  else left_of s' w = None ∧ top_of s' w = None.
Proof.
  intros Hel s0 r s'.
  assert (H0 : elements (dom s0) !! w = Some (clear_position el)).
  { unfold s0. simpl. by rewrite lookup_alter_eq, Hel. }
  unfold s', resetWindowPosition. rewrite Hel. fold s0.
  unfold setupWindow, is_active. rewrite H0. simpl el_active.
  unfold stored_zIndex, zIndex_of, left_of, top_of.
  destruct (el_active el || negb (display_none (dom s0) w)); simpl.
  - by rewrite lookup_insert_eq, !lookup_alter_eq, Hel.
  - by rewrite lookup_insert_eq, lookup_alter_eq, Hel.
Qed.

End WindowsFacts.

(* ===================================================================== *)
(** * Facts about the interceptors                                       *)
(* ===================================================================== *)

Section BlockersFacts.

Import Freeze Blockers.

Lemma interceptors_frozen_codes s :
  frozen s →
  ∃ n, interceptors s
       = installed {| cl_code := InteractionBlocker; cl_id := n |}
                   {| cl_code := KeyBlocker; cl_id := n + 1 |}
                   {| cl_code := SubmitBlocker; cl_id := n + 2 |}
                   {| cl_code := ContextMenuBlocker; cl_id := n + 3 |}.
Proof.
  intros (_ & pre & post & Hpre & Hpost & n & _ & Hl). exists n.
  unfold interceptors. rewrite Hl, !filter_app.
  rewrite (interceptors_foreign pre), (interceptors_foreign post) by done.
  by rewrite app_nil_r.
Qed.

Lemma blocker_for_other ty : ty ∉ intercepted → blocker_for ty = None.
Proof.
  intros Hout. unfold blocker_for, intercepted in *.
  rewrite !elem_of_app in Hout.
  repeat case_bool_decide; try tauto.
  destruct (String.eqb_spec ty "submit") as [->|_];
    [rewrite !elem_of_cons in Hout; tauto|].
  destruct (String.eqb_spec ty "contextmenu") as [->|_];
    [rewrite !elem_of_cons in Hout; tauto|].
  done.
Qed.

Lemma installed_on f k b c ty :
  filter (λ x, l_type x = ty) (installed f k b c)
  = match blocker_for ty with
    | Some InteractionBlocker => [capturing f ty]
    | Some KeyBlocker => [capturing k ty]
    | Some SubmitBlocker => [capturing b ty]
    | Some ContextMenuBlocker => [capturing c ty]
    | _ => []
    end.
Proof.
  destruct (decide (ty ∈ intercepted)) as [Hin|Hout].
  - unfold intercepted, click_family, key_family in Hin.
    repeat (apply elem_of_cons in Hin as [->|Hin]; [reflexivity|]).
    by apply elem_of_nil in Hin.
  - rewrite (blocker_for_other ty Hout). apply filter_drop_all, Forall_forall.
    intros x Hx Hty. apply Hout. subst ty.
    unfold installed, intercepted, click_family, key_family in *.
    simpl in Hx.
    repeat (apply elem_of_cons in Hx as [->|Hx];
            [simpl; rewrite !elem_of_cons; tauto|]).
    by apply elem_of_nil in Hx.
Qed.

(** In freeze mode one interceptor, chosen by the type of the event, is
    called once; outside freeze mode none is. *)
Lemma run_interceptors_toggles b saved others fresh n e :
  all_foreign others →
  let s := toggles n (constructed (Some b) saved others fresh) in
  ev_immediateStopped e = false →
  run_interceptors e s
  = if isDrawingMode s
    then match blocker_for (ev_type e) with
         | Some InteractionBlocker => interactionBlocker e
         | Some KeyBlocker => keyBlocker e
         | Some SubmitBlocker => submitBlocker e
         | Some ContextMenuBlocker => contextMenuBlocker e
         | _ => e
         end
    else e.
Proof.
  intros HL s Hlive. unfold run_interceptors, interceptors_on.
  destruct (toggles_state b saved others fresh n HL) as [_ [Hs|Hs]];
    fold s in Hs.
  - rewrite (interceptors_unfrozen s Hs). by destruct Hs as (-> & _).
  - destruct (interceptors_frozen_codes s Hs) as (k & ->).
    destruct Hs as (-> & _). rewrite installed_on.
    destruct (blocker_for (ev_type e)) as [[]|]; simpl; by rewrite ?Hlive.
Qed.

Lemma run_interceptors_stopped e s :
  ev_immediateStopped e = true → run_interceptors e s = e.
Proof.
  intros Hstop. unfold run_interceptors.
  induction (interceptors_on (ev_type e) s) as [|l ls IH]; [done|].
  simpl. by rewrite Hstop.
Qed.

Lemma interactionBlocker_allowed e :
  interactionBlocker e
  = if allowed e then e
    else stopImmediatePropagation (stopPropagation (preventDefault e)).
Proof.
  unfold interactionBlocker, allowed, allow_list. simpl.
  by repeat (match goal with |- context [closest ?i e] =>
                destruct (closest i e); simpl end).
Qed.

(** X8.  On a page with the toggle button, in freeze mode a click, double click, mouse-down or mouse-up whose
    target lies in none of the eight allow-listed elements leaves the
    interceptors with its default prevented and its propagation stopped,
    also to the later listeners of [document]; one whose target lies in an
    allow-listed element is left untouched. *)
Theorem clicks_in_freeze_mode b saved others fresh n e :
  all_foreign others →
  let s := toggles n (constructed (Some b) saved others fresh) in
  isDrawingMode s = true →
  ev_type e ∈ click_family →
  ev_immediateStopped e = false →
  run_interceptors e s
  = if allowed e then e
    else stopImmediatePropagation (stopPropagation (preventDefault e)).
Proof.
  intros HL s Hon Hty Hlive. subst s.
  rewrite (run_interceptors_toggles b saved others fresh n e HL Hlive).
  rewrite Hon. unfold blocker_for.
  rewrite bool_decide_eq_true_2 by done. apply interactionBlocker_allowed.
Qed.

(** X9.  On a page with the toggle button, in freeze mode a key event with Ctrl or Cmd held and key ['d'] is
    never touched; any other key event aimed at an input, a text area or an
    editable element has its default prevented and its propagation stopped,
    wherever that element sits (the allow-list is not consulted); the
    remaining key events are left untouched. *)
Theorem keys_in_freeze_mode b saved others fresh n e :
  all_foreign others →
  let s := toggles n (constructed (Some b) saved others fresh) in
  isDrawingMode s = true →
  ev_type e ∈ key_family →
  ev_immediateStopped e = false →
  run_interceptors e s
  = if shortcut e then e
    else if text_target e then stopPropagation (preventDefault e)
    else e.
Proof.
  intros HL s Hon Hty Hlive. subst s.
  rewrite (run_interceptors_toggles b saved others fresh n e HL Hlive).
  rewrite Hon. unfold blocker_for.
  rewrite bool_decide_eq_false_2.
  - by rewrite bool_decide_eq_true_2.
  - unfold key_family, click_family in *.
    repeat (apply elem_of_cons in Hty as [->|Hty];
            [rewrite !elem_of_cons; intros H;
             repeat (destruct H as [H|H]; [discriminate|]);
             by apply elem_of_nil in H|]).
    by apply elem_of_nil in Hty.
Qed.

(** X10.  On a page with the toggle button, in freeze mode every form
    submission has its default prevented
    and its propagation stopped, whatever its target; a context-menu event
    has its default prevented unless its target lies in the toggle control,
    and its propagation is not stopped. *)
Theorem submit_and_menu_in_freeze_mode b saved others fresh n e :
  all_foreign others →
  let s := toggles n (constructed (Some b) saved others fresh) in
  isDrawingMode s = true →
  ev_immediateStopped e = false →
  (ev_type e = "submit" →
   run_interceptors e s = stopPropagation (preventDefault e)) ∧
  (ev_type e = "contextmenu" →
   run_interceptors e s
   = if closest "drawingModeToggle" e then e else preventDefault e).
Proof.
  intros HL s Hon Hlive. subst s.
  rewrite (run_interceptors_toggles b saved others fresh n e HL Hlive).
  rewrite Hon. split; intros ->; simpl.
  - done.
  - unfold contextMenuBlocker. by destruct (closest "drawingModeToggle" e).
Qed.

(** X11.  The interceptors touch no event while the mode is off, and in
    freeze mode they touch no event of a type other than the nine they are
    registered for: pointer, touch, wheel and input events pass.  On a page
    without the toggle button they touch no event at all. *)
Theorem untouched_events button saved others fresh n e :
  all_foreign others →
  let s := toggles n (constructed button saved others fresh) in
  isDrawingMode s = false ∨ ev_type e ∉ intercepted ∨ button = None →
  run_interceptors e s = e.
Proof.
  intros HL s Hcase. subst s.
  destruct (ev_immediateStopped e) eqn:Hlive;
    [by apply run_interceptors_stopped|].
  destruct button as [b|].
  - rewrite (run_interceptors_toggles b saved others fresh n e HL Hlive).
    destruct Hcase as [->|[Hout|?]]; [done| |done].
    rewrite (blocker_for_other _ Hout). by destruct (isDrawingMode _).
  - destruct (toggles_no_button saved others fresh n) as (_ & _ & Hl & _).
    unfold run_interceptors, interceptors_on, interceptors.
    rewrite Hl, interceptors_foreign by done. done.
Qed.

End BlockersFacts.

(* ===================================================================== *)
(** * More facts about the mode freeze controller                        *)
(* ===================================================================== *)

Section ModeFacts.

Import Freeze Mode.

Ltac fields :=
  cbn [isDrawingMode interactionBlocker keyBlocker submitBlocker
       contextMenuBlocker body_drawn_mode toggleButton storage listeners
       next_closure set_listeners set_interactionBlocker set_keyBlocker
       set_submitBlocker set_contextMenuBlocker set_mode set_body_drawn_mode
       set_toggleButton set_storage app].

Ltac fields_in H :=
  cbn [isDrawingMode interactionBlocker keyBlocker submitBlocker
       contextMenuBlocker body_drawn_mode toggleButton storage listeners
       next_closure] in H.















(** ** Two enables in a row *)

Lemma fresh_after_older L extra cb (types : list string) :
  Forall (λ x, l_callback x ≠ cb) L →
  Forall (λ x, l_callback x ≠ cb) extra →
  ∀ x, x ∈ (L ++ extra)%list → l_callback x = cb → l_type x ∉ types.
Proof.
  intros HL Hextra x [Hx|Hx]%elem_of_app Heq.
  - rewrite Forall_forall in HL. by apply HL in Hx.
  - rewrite Forall_forall in Hextra. by apply Hextra in Hx.
Qed.

(** [blockInteractions] on a page whose interceptors, if any, are older
    than the functions it is about to make. *)
Lemma blockInteractions_older s :
  older s →
  let n := next_closure s in
  blockInteractions s =
  {| isDrawingMode := isDrawingMode s;
     interactionBlocker := Some {| cl_code := InteractionBlocker; cl_id := n |};
     keyBlocker := Some {| cl_code := KeyBlocker; cl_id := n + 1 |};
     submitBlocker := Some {| cl_code := SubmitBlocker; cl_id := n + 2 |};
     contextMenuBlocker :=
       Some {| cl_code := ContextMenuBlocker; cl_id := n + 3 |};
     body_drawn_mode := body_drawn_mode s; toggleButton := toggleButton s;
     storage := storage s;
     listeners := listeners s ++ installed_by n;
     next_closure := n + 4 |}.
Proof.
  intros HL n. subst n. destruct s as [m i0 k0 b0 c0 bd bi st L n].
  unfold older in HL. cbn in HL.
  assert (Hne : ∀ cb, cl_code cb ≠ Foreign → (n ≤ cl_id cb)%nat →
            Forall (λ x, l_callback x ≠ cb) L).
  { intros cb Hcb Hid. apply Forall_forall. intros x Hx Heq.
    specialize (HL x Hx). rewrite Heq in HL. specialize (HL Hcb). lia. }
  unfold blockInteractions, new_closure, installed_by.
  cbn -[add_all Nat.add].
  rewrite (add_all_fresh click_family); [| apply NoDup_click_family |];
    cbn -[add_all Nat.add].
  2:{ rewrite <- (app_nil_r L).
      apply fresh_after_older; [apply Hne; [done | simpl; lia] | constructor]. }
  rewrite (add_all_fresh key_family); [| apply NoDup_key_family |];
    cbn -[add_all Nat.add].
  2:{ apply (fresh_after_older L [_; _; _; _]);
        [apply Hne; [done | simpl; lia] | repeat constructor; done]. }
  rewrite (add_all_fresh ["submit"]); [| by apply (bool_decide_unpack _) |];
    cbn -[add_all Nat.add].
  2:{ rewrite <- app_assoc.
      apply (fresh_after_older L);
        [apply Hne; [done | simpl; lia] | repeat constructor; done]. }
  rewrite (add_all_fresh ["contextmenu"]); [| by apply (bool_decide_unpack _) |];
    cbn -[add_all Nat.add].
  2:{ rewrite <- !app_assoc.
      apply (fresh_after_older L);
        [apply Hne; [done | simpl; lia] | repeat constructor; done]. }
  rewrite <- !app_assoc. unfold set_listeners, set_contextMenuBlocker.
  cbn -[Nat.add].
  replace (n + 1)%nat with (S n) by lia.
  replace (n + 2)%nat with (S (S n)) by lia.
  replace (n + 3)%nat with (S (S (S n))) by lia.
  replace (n + 4)%nat with (S (S (S (S n)))) by lia.
  reflexivity.
Qed.

Lemma unblock_step_listeners get set types s f :
  get s = Some f →
  (∀ v t, listeners (set v t) = listeners t) →
  listeners (unblock_step get set types s)
  = filter (kept types f) (listeners s).
Proof.
  intros Hget Hset. unfold unblock_step. rewrite Hget.
  by rewrite Hset, remove_all_kept.
Qed.

(** With all four callbacks held, [unblockInteractions] removes the listeners
    of these four functions and of no other. *)
Lemma unblockInteractions_listeners s f k b c :
  blockers s = [Some f; Some k; Some b; Some c] →
  listeners (unblockInteractions s)
  = filter (kept ["contextmenu"] c)
      (filter (kept ["submit"] b)
         (filter (kept key_family k)
            (filter (kept click_family f) (listeners s)))).
Proof.
  unfold blockers. intros [= Hf Hk Hb Hc].
  rewrite unblockInteractions_steps.
  rewrite (unblock_step_listeners _ _ _ _ c); [| | done].
  2:{ by do 3 rewrite (unblock_step_other contextMenuBlocker) by done. }
  rewrite (unblock_step_listeners _ _ _ _ b); [| | done].
  2:{ by do 2 rewrite (unblock_step_other submitBlocker) by done. }
  rewrite (unblock_step_listeners _ _ _ _ k); [| | done].
  2:{ by rewrite (unblock_step_other keyBlocker) by done. }
  by rewrite (unblock_step_listeners _ _ _ _ f).
Qed.

Lemma kept_others L (types : list string) cb :
  Forall (λ x, l_callback x ≠ cb) L → filter (kept types cb) L = L.
Proof.
  intros HL. apply filter_keep_all. eapply Forall_impl; [exact HL|].
  intros x Hx (Heq & _). done.
Qed.

Lemma installed_by_callbacks n x :
  x ∈ installed_by n →
  cl_code (l_callback x) ≠ Foreign ∧
  (n ≤ cl_id (l_callback x) < n + 4)%nat.
Proof.
  unfold installed_by, installed, click_family, key_family. simpl.
  intros Hx.
  repeat (apply elem_of_cons in Hx as [->|Hx]; [simpl; split; [done|lia]|]).
  by apply elem_of_nil in Hx.
Qed.

Lemma interceptors_installed_by n :
  filter (λ x, is_interceptor x = true) (installed_by n) = installed_by n.
Proof.
  apply filter_keep_all, Forall_forall. intros x Hx.
  apply installed_by_callbacks in Hx as [Hx _].
  unfold is_interceptor. by apply bool_decide_eq_true.
Qed.

Lemma unblockInteractions_iter k t :
  blockers t = [None; None; None; None] →
  Nat.iter k unblockInteractions t = t.
Proof.
  intros Ht. induction k as [|k IH]; [done|].
  rewrite Nat.iter_succ, IH. by apply unblockInteractions_idle.
Qed.

(** X13.  [blockInteractions] has no guard: called twice in a row on a page
    without interceptors it leaves the nine listeners of the first call
    beside the nine of the second, and the manager keeps the callbacks of
    the second call only.  From then on [unblockInteractions], called once
    or many times, removes the second nine and never the first: these stay
    on [document] with no field left to reach them. *)
Theorem double_enable_leaks s k :
  all_foreign (listeners s) →
  let first := installed_by (next_closure s) in
  let twice := blockInteractions (blockInteractions s) in
  let after := Nat.iter (S k) unblockInteractions twice in
  interceptors twice
  = (first ++ installed_by (next_closure s + 4))%list ∧
  blockers twice = Some <$> made (next_closure s + 4) ∧
  listeners after = (listeners s ++ first)%list ∧
  interceptors after = first ∧
  blockers after = [None; None; None; None].
Proof.
  intros HL first twice after.
  set (n := next_closure s) in *.
  assert (H1 : older s).
  { intros x Hx Hc. by destruct (foreign_callback _ x (l_callback x) HL Hx). }
  pose proof (blockInteractions_older s H1) as E1. cbv zeta in E1.
  fold n in E1. fold first in E1.
  assert (H2 : older (blockInteractions s)).
  { rewrite E1. intros x [Hx|Hx]%elem_of_app Hc; cbn [next_closure].
    - by destruct (foreign_callback _ x (l_callback x) HL Hx).
    - apply installed_by_callbacks in Hx. lia. }
  pose proof (blockInteractions_older _ H2) as E2. cbv zeta in E2.
  fold twice in E2. rewrite E1 in E2. fields_in E2.
  assert (Hint : interceptors twice = (first ++ installed_by (n + 4))%list).
  { unfold interceptors. rewrite E2. fields. rewrite !filter_app.
    rewrite interceptors_foreign by done.
    by rewrite !interceptors_installed_by. }
  assert (Hbl : blockers twice = Some <$> made (n + 4)).
  { by rewrite E2. }
  assert (Hone : listeners (unblockInteractions twice)
                 = (listeners s ++ first)%list).
  { rewrite (unblockInteractions_listeners twice _ _ _ _ Hbl).
    rewrite E2. fields.
    assert (Hfirst : ∀ (types : list string) cb,
              (n + 4 ≤ cl_id cb)%nat → filter (kept types cb) first = first).
    { intros types cb Hid. apply kept_others, Forall_forall.
      intros x Hx Heq.
      apply installed_by_callbacks in Hx. rewrite Heq in Hx. lia. }
    clearbody first n. unfold installed_by, installed.
    rewrite !filter_app.
    repeat first
      [ rewrite kept_own
      | rewrite kept_other by done
      | rewrite filter_nil
      | rewrite (kept_foreign (listeners s)) by done
      | rewrite Hfirst by (simpl; lia) ].
    by rewrite !app_nil_r. }
  assert (Hafter : after = unblockInteractions twice).
  { unfold after. rewrite Nat.iter_succ_r.
    apply unblockInteractions_iter, unblockInteractions_blockers. }
  split; [done|]. split; [done|]. rewrite Hafter.
  split; [done|]. split; [|apply unblockInteractions_blockers].
  unfold interceptors. rewrite Hone, filter_app.
  rewrite interceptors_foreign by done. apply interceptors_installed_by.
Qed.

End ModeFacts.

(* ===================================================================== *)
(** * More facts about the pixel filter                                  *)
(* ===================================================================== *)

Section FilterFacts.

Import Sketch.

Lemma round_half_even_nonneg m e : (0 ≤ round_half_even m e)%Z.
Proof.
  unfold round_half_even. destruct e as [|p|p]; [lia | |].
  - apply Z.mul_nonneg_nonneg; [lia|]. apply Z.pow_nonneg. lia.
  - assert (0 ≤ Z.pos m / Z.pow_pos 2 p)%Z.
    { apply Z.div_pos; [lia|]. rewrite Z.pow_pos_fold.
      apply Z.pow_pos_nonneg; lia. }
    destruct (_ ?= _)%Z; [destruct (Z.even _)| |]; lia.
Qed.

Lemma to_uint8_clamp_range v : (0 ≤ to_uint8_clamp v ≤ 255)%Z.
Proof.
  destruct v as [sg|[]| |[] m e]; simpl; try lia.
  pose proof (round_half_even_nonneg m e). lia.
Qed.

Lemma visited_nil w h : (w < 3 ∨ h < 3)%nat → visited w h = [].
Proof.
  intros H. unfold visited.
  destruct (decide (h < 3)%nat) as [Hh|Hh].
  - by replace (h - 2)%nat with 0%nat by lia.
  - replace (w - 2)%nat with 0%nat by lia.
    generalize (seq 1 (h - 2)). intros ys.
    induction ys as [|y ys IH]; [done|]. done.
Qed.

Lemma gray_at_ext d d' k :
  (∀ j c, (c < 3)%nat → d !! (4 * j + c)%nat = d' !! (4 * j + c)%nat) →
  gray_at d (k * 4) = gray_at d' (k * 4).
Proof.
  intros H. unfold gray_at, get.
  pose proof (H k 0%nat ltac:(lia)) as H0.
  pose proof (H k 1%nat ltac:(lia)) as H1.
  pose proof (H k 2%nat ltac:(lia)) as H2.
  replace (4 * k + 0)%nat with (k * 4)%nat in H0 by lia.
  replace (4 * k + 1)%nat with (k * 4 + 1)%nat in H1 by lia.
  replace (4 * k + 2)%nat with (k * 4 + 2)%nat in H2 by lia.
  by rewrite H0, H1, H2.
Qed.

Lemma value_ext d d' w x y :
  (∀ j c, (c < 3)%nat → d !! (4 * j + c)%nat = d' !! (4 * j + c)%nat) →
  value d w x y = value d' w x y.
Proof.
  intros H. unfold value, isEdge, magnitude, index.
  by rewrite !(gray_at_ext d d' _ H).
Qed.

Lemma pass_ext d d' w ps out :
  (∀ j c, (c < 3)%nat → d !! (4 * j + c)%nat = d' !! (4 * j + c)%nat) →
  fold_left (process_pixel d w) ps out = fold_left (process_pixel d' w) ps out.
Proof.
  intros H. revert out. induction ps as [|[x y] ps IH]; intros out; [done|].
  simpl. rewrite IH. unfold process_pixel. by rewrite (value_ext d d' w x y H).
Qed.

(** X14.  The output is a grey-scale picture with proper bytes: at every
    pixel of the frame the three colour bytes are one and the same value
    between 0 and 255, and the alpha byte is 255 (interior) or 0
    (border). *)
Theorem output_monochrome img x y :
  (x < width img)%nat → (y < height img)%nat →
  let out := applySketchFilter img in
  let idx := index (width img) x y in
  ∃ v a : Z,
    (0 ≤ v ≤ 255)%Z ∧
    out !! idx = Some v ∧ out !! (idx + 1)%nat = Some v ∧
    out !! (idx + 2)%nat = Some v ∧ out !! (idx + 3)%nat = Some a ∧
    (a = 255 ∨ (a = 0 ∧ v = 0))%Z.
Proof.
  intros Hx Hy out idx.
  destruct (decide (interior img x y)) as [Hin|Hout].
  - destruct (interior_bytes img x y Hin) as (H0 & H1 & H2 & H3).
    eexists _, _. split; [apply to_uint8_clamp_range|].
    repeat (split; [eassumption|]). by left.
  - assert (Hb : border img x y).
    { unfold interior, border in *. lia. }
    exists 0%Z, 0%Z. split; [lia|].
    pose proof (border_bytes img x y 0 Hb ltac:(lia)) as H0.
    rewrite Nat.add_0_r in H0.
    split; [exact H0|].
    split; [apply (border_bytes img x y 1 Hb); lia|].
    split; [apply (border_bytes img x y 2 Hb); lia|].
    split; [apply (border_bytes img x y 3 Hb); lia|]. by right.
Qed.

(** X15.  The filter never reads the alpha channel of its input, nor the
    length of the input buffer: two frames of the same dimensions whose
    colour bytes agree give the same output. *)
Theorem alpha_is_ignored img img' :
  width img = width img' → height img = height img' →
  (∀ j c, (c < 3)%nat →
     data img !! (4 * j + c)%nat = data img' !! (4 * j + c)%nat) →
  applySketchFilter img = applySketchFilter img'.
Proof.
  intros Hw Hh H. rewrite !applySketchFilter_visits, <- Hw, <- Hh.
  by apply pass_ext.
Qed.

(** X16.  A frame fewer than three pixels wide or high has no interior:
    the loops do not run and the output is the freshly created buffer,
    transparent black throughout. *)
Theorem small_frame_stays_blank img :
  (width img < 3 ∨ height img < 3)%nat →
  applySketchFilter img = replicate (4 * width img * height img) 0%Z.
Proof.
  intros H. rewrite applySketchFilter_visits, visited_nil by done. done.
Qed.

End FilterFacts.

(* ===================================================================== *)
(** * More facts about the gallery                                       *)
(* ===================================================================== *)

Section ShelfFacts.

Import Gallery.

Variable bitmap : Type.
Variable toDataURL : string → bitmap → string.
Variable fill_white : bitmap → bitmap.

Abbreviation submit := (submitDrawing bitmap toDataURL fill_white).

(** X17.  Rendering the gallery replaces whatever the grid held: it is
    idempotent; with no stored drawing the grid holds the placeholder
    paragraph alone and no item; with stored drawings it holds items only,
    as many as there are drawings.  Without the grid element it does
    nothing. *)
Theorem renderGallery_replaces (a : apps bitmap) :
  renderGallery (renderGallery a) = renderGallery a ∧
  (galleryGrid a = None → renderGallery a = a) ∧
  (is_Some (galleryGrid a) →
   (drawings a = [] →
    galleryGrid (renderGallery a) = Some [Placeholder] ∧
    gallery_items (renderGallery a) = []) ∧
   (drawings a ≠ [] →
    ∃ children, galleryGrid (renderGallery a) = Some children ∧
      (Placeholder ∉ children) ∧ length children = length (drawings a))).
Proof.
  split; [|split].
  - unfold renderGallery. destruct (galleryGrid a) as [g|] eqn:Hg.
    + simpl. done.
    + by rewrite Hg.
  - intros Hg. unfold renderGallery. by rewrite Hg.
  - intros [g Hg]. unfold gallery_items, renderGallery. rewrite Hg. split.
    + intros ->. done.
    + intros Hne. destruct (drawings a) as [|d l] eqn:Hd; [done|].
      eexists. split; [reflexivity|]. split.
      * intros (i & Hi)%list_elem_of_lookup.
        rewrite list_lookup_imap in Hi.
        destruct ((d :: l) !! i); [|done]. done.
      * by rewrite length_imap.
Qed.

(** X18.  A submission clears the canvas, so a second submission right
    after the first stores the picture of the cleared canvas: the two
    records are appended in order, the second holding the encoding of the
    whitened bitmap, and each submission raises one alert. *)
Theorem two_submissions_in_a_row now1 stamp1 now2 stamp2 (a : apps bitmap) c :
  canvas a = Some c →
  let a2 := submit now2 stamp2 (submit now1 stamp1 a) in
  drawings a2
  = (drawings a ++
     [ {| id := now1; dataURL := toDataURL "image/png" c;
          timestamp := stamp1 |};
       {| id := now2; dataURL := toDataURL "image/png" (fill_white c);
          timestamp := stamp2 |} ])%list ∧
  canvas a2 = Some (fill_white (fill_white c)) ∧
  alerts a2
  = (alerts a ++ ["Drawing submitted to gallery!";
                  "Drawing submitted to gallery!"])%list.
Proof.
  intros Hc a2. unfold a2, submitDrawing. rewrite Hc.
  unfold openGallery, alert, clearNotepad. cbn [canvas drawings alerts].
  set (a1 := renderGallery _).
  assert (H1 : drawings a1
               = (drawings a ++ [ {| id := now1;
                                     dataURL := toDataURL "image/png" c;
                                     timestamp := stamp1 |} ])%list).
  { unfold a1. by rewrite renderGallery_drawings. }
  assert (H2 : canvas a1 = Some (fill_white c) ∧ alerts a1 = alerts a).
  { unfold a1, renderGallery. cbn [galleryGrid drawings canvas alerts].
    by destruct (galleryGrid a). }
  destruct H2 as [H2 H3]. rewrite H2. cbn [fmap option_fmap option_map].
  rewrite renderGallery_drawings. cbn [drawings].
  rewrite H1, <- app_assoc. split; [done|].
  split.
  - unfold renderGallery. cbn [galleryGrid canvas].
    destruct (galleryGrid a1); [|done]. done.
  - unfold renderGallery. cbn [galleryGrid alerts].
    destruct (galleryGrid a1); cbn [alerts]; by rewrite H3, <- app_assoc.
Qed.

End ShelfFacts.

(* ===================================================================== *)
(** * Facts about the desktop icons                                      *)
(* ===================================================================== *)

Section IconsFacts.

Import Icons.

Lemma read_assign k k' v o :
  read k (assign k' v o) = if bool_decide (k = k') then Some v else read k o.
Proof.
  induction o as [|[k0 v0] o IH]; simpl.
  - destruct (String.eqb_spec k' k) as [->|Hne].
    + by rewrite bool_decide_eq_true_2.
    + by rewrite bool_decide_eq_false_2.
  - destruct (String.eqb_spec k0 k') as [->|Hne]; simpl.
    + destruct (String.eqb_spec k' k) as [->|Hne'].
      * by rewrite bool_decide_eq_true_2.
      * by rewrite bool_decide_eq_false_2.
    + destruct (String.eqb_spec k0 k) as [->|Hne'].
      * by rewrite bool_decide_eq_false_2.
      * exact IH.
Qed.

Lemma keys_assign k k' v o :
  k ∈ (assign k' v o).*1 ↔ k = k' ∨ k ∈ o.*1.
Proof.
  induction o as [|[k0 v0] o IH]; simpl.
  - rewrite list_elem_of_singleton, elem_of_nil. tauto.
  - destruct (String.eqb_spec k0 k') as [->|Hne]; simpl.
    + rewrite !elem_of_cons. tauto.
    + rewrite !elem_of_cons, IH. tauto.
Qed.

(** One step of the swap, seen from the icon [id]. *)
Lemma swap_icon_icons p k path id :
  icons (swap_icon p (k, path)) !! id
  = if bool_decide (id = k)
    then fmap (fmap (λ _, drawn path)) (icons p !! id)
    else icons p !! id.
Proof.
  unfold swap_icon. case_bool_decide as H.
  - subst id. destruct (icons p !! k) as [[img|]|] eqn:E; simpl;
      by rewrite ?lookup_insert_eq, ?E.
  - destruct (icons p !! k) as [[img|]|] eqn:E; simpl;
      by rewrite ?lookup_insert_ne.
Qed.

Lemma swap_icon_saved p k path :
  originalIcons (swap_icon p (k, path))
  = match text_of p k with
    | Some t => assign k t (originalIcons p)
    | None => originalIcons p
    end.
Proof.
  unfold swap_icon, text_of. by destruct (icons p !! k) as [[img|]|].
Qed.

Lemma swap_icon_text p k path id :
  id ≠ k → text_of (swap_icon p (k, path)) id = text_of p id.
Proof.
  intros H. unfold text_of. rewrite swap_icon_icons.
  by rewrite bool_decide_eq_false_2.
Qed.

Lemma restore_icon_icons saved p k id :
  icons (restore_icon saved p k) !! id
  = if bool_decide (id = k)
    then fmap (fmap (restored (default "" (read k saved)))) (icons p !! id)
    else icons p !! id.
Proof.
  unfold restore_icon. case_bool_decide as H.
  - subst id. destruct (icons p !! k) as [[img|]|] eqn:E; simpl;
      by rewrite ?lookup_insert_eq, ?E.
  - destruct (icons p !! k) as [[img|]|] eqn:E; simpl;
      by rewrite ?lookup_insert_ne.
Qed.

Lemma restore_fold saved keys p id :
  icons (fold_left (restore_icon saved) keys p) !! id
  = if bool_decide (id ∈ keys)
    then fmap (fmap (restored (default "" (read id saved)))) (icons p !! id)
    else icons p !! id.
Proof.
  revert p. induction keys as [|k keys IH]; intros p; [done|].
  cbn [fold_left]. rewrite IH, restore_icon_icons.
  destruct (decide (id = k)) as [->|Hne].
  - rewrite (bool_decide_eq_true_2 (k = k)) by done.
    rewrite (bool_decide_eq_true_2 (k ∈ k :: keys)) by (rewrite elem_of_cons; tauto).
    case_bool_decide; [|done].
    by destruct (icons p !! k) as [[img|]|].
  - rewrite (bool_decide_eq_false_2 (id = k)) by done.
    by rewrite (bool_decide_ext (id ∈ keys) (id ∈ k :: keys))
      by (rewrite elem_of_cons; tauto).
Qed.

Lemma restoreOriginalIcons_icons p id :
  icons (restoreOriginalIcons p) !! id
  = if bool_decide (id ∈ (originalIcons p).*1)
    then fmap (fmap (restored (default "" (read id (originalIcons p)))))
              (icons p !! id)
    else icons p !! id.
Proof. unfold restoreOriginalIcons. cbv zeta. apply restore_fold. Qed.

Lemma mapped_cases id :
  mapped id = false ∧ id ≠ "cameraIcon" ∧ id ≠ "notepadIcon" ∧
    id ≠ "galleryIcon" ∨
  mapped id = true ∧
    (id = "cameraIcon" ∨ id = "notepadIcon" ∨ id = "galleryIcon").
Proof.
  unfold mapped, iconMappings. simpl. case_bool_decide as H.
  - right. split; [done|]. rewrite !elem_of_cons in H.
    destruct H as [H|[H|[H|H]]]; auto. by apply elem_of_nil in H.
  - left. split; [done|]. rewrite !elem_of_cons in H. tauto.
Qed.

(** What one run of [swapToDrawnIcons] does to the icon [id] and to what is
    stored for it. *)
Lemma swapToDrawnIcons_icon p id :
  let swapped := swapToDrawnIcons p in
  (mapped id = false →
   icons swapped !! id = icons p !! id ∧
   read id (originalIcons swapped) = read id (originalIcons p) ∧
   (id ∈ (originalIcons swapped).*1 ↔ id ∈ (originalIcons p).*1)) ∧
  (mapped id = true →
   (∃ path, icons swapped !! id
            = fmap (fmap (λ _, drawn path)) (icons p !! id)) ∧
   read id (originalIcons swapped)
   = match text_of p id with
     | Some t => Some t
     | None => read id (originalIcons p)
     end ∧
   (id ∈ (originalIcons swapped).*1
    ↔ is_Some (text_of p id) ∨ id ∈ (originalIcons p).*1)).
Proof.
  intros swapped. subst swapped.
  unfold swapToDrawnIcons, iconMappings. cbn [fold_left].
  set (p1 := swap_icon p _). set (p2 := swap_icon p1 _).
  assert (Hstep : ∀ q k path,
    (id ≠ k →
     icons (swap_icon q (k, path)) !! id = icons q !! id ∧
     read id (originalIcons (swap_icon q (k, path)))
     = read id (originalIcons q) ∧
     (id ∈ (originalIcons (swap_icon q (k, path))).*1
      ↔ id ∈ (originalIcons q).*1)) ∧
    (id = k →
     icons (swap_icon q (k, path)) !! id
     = fmap (fmap (λ _, drawn path)) (icons q !! id) ∧
     read id (originalIcons (swap_icon q (k, path)))
     = match text_of q id with
       | Some t => Some t
       | None => read id (originalIcons q)
       end ∧
     (id ∈ (originalIcons (swap_icon q (k, path))).*1
      ↔ is_Some (text_of q id) ∨ id ∈ (originalIcons q).*1))).
  { intros q k path. rewrite swap_icon_icons, swap_icon_saved. split.
    - intros Hne. rewrite bool_decide_eq_false_2 by done.
      split; [done|]. destruct (text_of q k) as [t|]; [|done].
      rewrite read_assign, keys_assign, bool_decide_eq_false_2 by done.
      split; [done|]. tauto.
    - intros ->. rewrite bool_decide_eq_true_2 by done.
      split; [done|]. destruct (text_of q k) as [t|].
      + rewrite read_assign, keys_assign, bool_decide_eq_true_2 by done.
        split; [done|]. split; [eauto | tauto].
      + split; [done|]. split; [tauto|]. intros [[? [=]]|?]. done. }
  pose proof (Hstep p2 "galleryIcon" "assets/drawn/drawn-gallery-frame.png")
    as [G0 G1].
  pose proof (Hstep p1 "notepadIcon" "assets/drawn/drawn-pencil.png")
    as [N0 N1].
  pose proof (Hstep p "cameraIcon" "assets/drawn/drawn-camera.png")
    as [C0 C1].
  subst p2 p1. clear Hstep.
  destruct (mapped_cases id) as [(Hm & H1 & H2 & H3)|(Hm & Hid)];
    rewrite Hm; (split; intros Hc); try done; clear Hc.
  - destruct (G0 H3) as (-> & -> & Gk). destruct (N0 H2) as (-> & -> & Nk).
    destruct (C0 H1) as (-> & -> & Ck). rewrite Gk, Nk, Ck. done.
  - destruct Hid as [Hid|[Hid|Hid]].
    + assert (id ≠ "galleryIcon" ∧ id ≠ "notepadIcon") as [H3 H2]
        by (by subst id).
      destruct (G0 H3) as (-> & -> & Gk). destruct (N0 H2) as (-> & -> & Nk).
      destruct (C1 Hid) as (-> & -> & Ck). rewrite Gk, Nk, Ck.
      split; [by eexists | split; [done | tauto]].
    + assert (id ≠ "galleryIcon" ∧ id ≠ "cameraIcon") as [H3 H1]
        by (by subst id).
      destruct (G0 H3) as (-> & -> & Gk). rewrite Gk.
      destruct (N1 Hid) as (-> & -> & Nk). rewrite Nk.
      rewrite !swap_icon_text by done.
      destruct (C0 H1) as (-> & -> & Ck). rewrite Ck.
      split; [by eexists | split; [done | tauto]].
    + assert (id ≠ "notepadIcon" ∧ id ≠ "cameraIcon") as [H2 H1]
        by (by subst id).
      destruct (G1 Hid) as (-> & -> & Gk). rewrite Gk.
      rewrite !swap_icon_text by done.
      destruct (N0 H2) as (-> & -> & Nk).
      destruct (C0 H1) as (-> & -> & Ck). rewrite Nk, Ck.
      split; [by eexists | split; [done | tauto]].
Qed.

(** X19.  On a page where nothing is stored yet, swapping the icons and
    restoring them gives every icon its text back and forgets the stored
    texts; in between a mapped icon shows no text but its drawn image.  The
    restore clears the background image of the mapped icons and leaves
    their other background styles as the swap set them; icons that are not
    mapped, or lack the image element, are not touched. *)
Theorem icons_round_trip p id :
  originalIcons p = [] →
  let swapped := swapToDrawnIcons p in
  let back := restoreOriginalIcons swapped in
  originalIcons back = [] ∧
  text_of back id = text_of p id ∧
  (mapped id = true →
   text_of swapped id = (λ _, "") <$> text_of p id ∧
   icons back !! id
   = fmap (fmap (λ img,
        {| textContent := textContent img; backgroundImage := "";
           backgroundSize := "contain"; backgroundRepeat := "no-repeat";
           backgroundPosition := "center" |})) (icons p !! id)) ∧
  (mapped id = false →
   icons swapped !! id = icons p !! id ∧ icons back !! id = icons p !! id).
Proof.
  intros Hempty swapped back. subst back.
  split; [done|].
  destruct (swapToDrawnIcons_icon p id) as [Hout Hin]. fold swapped in Hout, Hin.
  rewrite Hempty in Hout, Hin.
  unfold text_of at 1. rewrite restoreOriginalIcons_icons.
  destruct (mapped id) eqn:Hm.
  - destruct (Hin eq_refl) as ((path & Hic) & Hread & Hkeys).
    rewrite Hic, Hread. unfold text_of in *.
    destruct (icons p !! id) as [[img|]|] eqn:E; simpl in *.
    + rewrite bool_decide_eq_true_2 by (apply Hkeys; eauto).
      repeat split; try done. by rewrite Hic.
    + rewrite bool_decide_eq_false_2.
      * repeat split; try done. by rewrite Hic.
      * rewrite Hkeys. intros [[? [=]]|[]%elem_of_nil].
    + rewrite bool_decide_eq_false_2.
      * repeat split; try done. by rewrite Hic.
      * rewrite Hkeys. intros [[? [=]]|[]%elem_of_nil].
  - destruct (Hout eq_refl) as (Hic & Hread & Hkeys).
    rewrite bool_decide_eq_false_2
      by (rewrite Hkeys; apply not_elem_of_nil).
    rewrite Hic. repeat split; done.
Qed.

(** X20.  The swap is not idempotent: a second swap in a row stores the
    empty text the first one left, so that the restore then gives the mapped
    icons an empty text, not their emoji. *)
Theorem double_swap_loses_text p id img :
  originalIcons p = [] →
  mapped id = true →
  icons p !! id = Some (Some img) →
  let back := restoreOriginalIcons (swapToDrawnIcons (swapToDrawnIcons p)) in
  text_of back id = Some "" ∧ originalIcons back = [].
Proof.
  intros Hempty Hm Hid back. subst back. split; [|done].
  set (once := swapToDrawnIcons p).
  destruct (swapToDrawnIcons_icon p id) as [_ Hin].
  destruct (Hin Hm) as ((path & Hic) & _ & _). fold once in Hic.
  rewrite Hid in Hic. simpl in Hic.
  destruct (swapToDrawnIcons_icon once id) as [_ Hin2].
  destruct (Hin2 Hm) as ((path2 & Hic2) & Hread2 & Hkeys2).
  unfold text_of in Hread2, Hkeys2. rewrite Hic in Hread2, Hkeys2.
  simpl in Hread2, Hkeys2.
  unfold text_of. rewrite restoreOriginalIcons_icons.
  rewrite bool_decide_eq_true_2 by (apply Hkeys2; eauto).
  by rewrite Hic2, Hread2, Hic.
Qed.

End IconsFacts.

(* ===================================================================== *)
(** * Facts about the illustration and the notepad                       *)
(* ===================================================================== *)

Section IllustrationFacts.

Import Illustration.

Lemma showDrawnComputer_element p el :
  drawnComputer p = Some el →
  drawnComputer (showDrawnComputer p)
  = Some (let el' := set_position
                       (Qmax 0 ((innerWidth p - 900) / 2))
                       (Qmax 0 ((innerHeight p - 600) / 2)) el in
          if windowManager p then makeDrawnComputerDraggable el' else el').
Proof. intros H. unfold showDrawnComputer. by rewrite H. Qed.

Lemma showDrawnComputer_frame p :
  innerWidth (showDrawnComputer p) = innerWidth p ∧
  innerHeight (showDrawnComputer p) = innerHeight p ∧
  windowManager (showDrawnComputer p) = windowManager p.
Proof. unfold showDrawnComputer. by destruct (drawnComputer p). Qed.

(** X21.  Unlike the windows, the illustration is placed with a clamp: its
    position is never negative; it is the centre of a 900 by 600 box when
    the viewport is at least that large and 0 in a direction in which it is
    smaller.  With the window manager present every enabling adds one more
    [pointerdown] listener to it, and nothing removes them: after [k]
    enablings it carries [k] more than before. *)
Theorem showDrawnComputer_clamped p el k :
  drawnComputer p = Some el →
  ∃ el' l t,
    drawnComputer (Nat.iter (S k) showDrawnComputer p) = Some el' ∧
    left el' = Some l ∧ top el' = Some t ∧
    (0 <= l)%Q ∧ (0 <= t)%Q ∧
    ((900 <= innerWidth p)%Q → (l == (innerWidth p - 900) / 2)%Q) ∧
    ((innerWidth p < 900)%Q → (l == 0)%Q) ∧
    ((600 <= innerHeight p)%Q → (t == (innerHeight p - 600) / 2)%Q) ∧
    ((innerHeight p < 600)%Q → (t == 0)%Q) ∧
    pointerdown_listeners el'
    = if windowManager p then (pointerdown_listeners el + S k)%nat
      else pointerdown_listeners el.
Proof.
  intros Hel.
  assert (Hk : ∃ el0,
    drawnComputer (Nat.iter k showDrawnComputer p) = Some el0 ∧
    innerWidth (Nat.iter k showDrawnComputer p) = innerWidth p ∧
    innerHeight (Nat.iter k showDrawnComputer p) = innerHeight p ∧
    windowManager (Nat.iter k showDrawnComputer p) = windowManager p ∧
    pointerdown_listeners el0
    = if windowManager p then (pointerdown_listeners el + k)%nat
      else pointerdown_listeners el).
  { induction k as [|k (el0 & H0 & Hw & Hh & Hm & Hn)].
    - exists el. simpl. rewrite Nat.add_0_r. by destruct (windowManager p).
    - rewrite Nat.iter_succ.
      destruct (showDrawnComputer_frame (Nat.iter k showDrawnComputer p))
        as (-> & -> & ->).
      rewrite (showDrawnComputer_element _ el0 H0), Hm.
      eexists. split; [reflexivity|]. repeat split; [done..|].
      destruct (windowManager p); simpl; rewrite Hn; lia. }
  destruct Hk as (el0 & H0 & Hw & Hh & Hm & Hn).
  rewrite Nat.iter_succ, (showDrawnComputer_element _ el0 H0), Hw, Hh, Hm.
  eexists _, (Qmax 0 ((innerWidth p - 900) / 2)),
    (Qmax 0 ((innerHeight p - 600) / 2)).
  split; [reflexivity|].
  split; [by destruct (windowManager p)|].
  split; [by destruct (windowManager p)|].
  split; [apply Q.le_max_l|]. split; [apply Q.le_max_l|].
  split; [intros H; apply Q.max_r, Qle_shift_div_l; lra|].
  split; [intros H; apply Q.max_l, Qle_shift_div_r; lra|].
  split; [intros H; apply Q.max_r, Qle_shift_div_l; lra|].
  split; [intros H; apply Q.max_l, Qle_shift_div_r; lra|].
  destruct (windowManager p); simpl; rewrite Hn; lia.
Qed.

End IllustrationFacts.

Section NotepadFacts.

Import Notepad.

Lemma chained_snoc x y new s :
  chained x y new → (from_x s, from_y s) = end_of x y new →
  chained x y (new ++ [s]).
Proof.
  revert x y. induction new as [|a new IH]; intros x y Hch Hend.
  - unfold end_of in Hend. simpl in *. by injection Hend as -> ->.
  - destruct Hch as (Hx & Hy & Hch). simpl. split; [done|]. split; [done|].
    apply IH; [done|]. rewrite Hend. unfold end_of.
    rewrite last_cons. by destruct (last new).
Qed.

(** X22.  With a canvas, one pen stroke (press, moves, release) adds one
    segment per move; the segments form a connected line that starts at the
    press point, each beginning where the one before ended, in canvas
    coordinates, also when the canvas moves on the page between two events;
    the pen is up afterwards, and a move with the pen up draws nothing. *)
Theorem stroke_is_connected down moves p :
  canvas p = true →
  let p' := stroke down moves p in
  ∃ new,
    strokes p' = (strokes p ++ new)%list ∧
    length new = length moves ∧
    chained (clientX down - rect_left down) (clientY down - rect_top down)
            new ∧
    isDrawing p' = false ∧
    ∀ e, draw e p' = Returns p'.
Proof.
  destruct p as [d0 lx0 ly0 c0 st0 pc0 ps0]. cbn [canvas]. intros ->.
  cbv zeta.
  set (p := {| isDrawing := d0; lastX := lx0; lastY := ly0; canvas := true;
               strokes := st0; penColor := pc0; penSize := ps0 |}).
  unfold stroke, startDrawing.
  cbn [canvas set_isDrawing p state_of isDrawing strokes penColor penSize].
  change st0 with (strokes p). change pc0 with (penColor p).
  change ps0 with (penSize p).
  set (x := (clientX down - rect_left down)%Q).
  set (y := (clientY down - rect_top down)%Q).
  assert (Hgen : ∀ ms new lx ly,
    chained x y new → (lx, ly) = end_of x y new →
    ∃ new' lx' ly',
      fold_left (λ p e, state_of (draw e p)) ms
        {| isDrawing := true; lastX := lx; lastY := ly; canvas := true;
           strokes := strokes p ++ new;
           penColor := penColor p; penSize := penSize p |}
      = {| isDrawing := true; lastX := lx'; lastY := ly'; canvas := true;
           strokes := strokes p ++ new';
           penColor := penColor p; penSize := penSize p |} ∧
      length new' = (length new + length ms)%nat ∧ chained x y new').
  { induction ms as [|e ms IH]; intros new lx ly Hch Hend.
    - exists new, lx, ly. rewrite Nat.add_0_r. done.
    - cbn [fold_left]. unfold draw at 2.
      cbn [isDrawing canvas negb lastX lastY strokes penColor penSize
           state_of].
      rewrite <- app_assoc.
      set (s := {| from_x := lx; from_y := ly;
                   to_x := clientX e - rect_left e;
                   to_y := clientY e - rect_top e;
                   strokeStyle := default "#000000" (penColor p);
                   lineWidth := default 3%Z (penSize p) |}).
      destruct (IH (new ++ [s])%list (clientX e - rect_left e)%Q
                  (clientY e - rect_top e)%Q)
        as (new' & lx' & ly' & Hfold & Hlen & Hch').
      + by apply chained_snoc.
      + unfold end_of. by rewrite last_snoc.
      + exists new', lx', ly'. split; [exact Hfold|]. split; [|done].
        rewrite Hlen, length_app. simpl. lia. }
  destruct (Hgen moves [] x y) as (new & lx & ly & Hfold & Hlen & Hch);
    [done | done |].
  rewrite app_nil_r in Hfold. rewrite Hfold. exists new.
  unfold stopDrawing, set_isDrawing. simpl.
  repeat split; done.
Qed.

End NotepadFacts.

(* ===================================================================== *)
(** * The further facts at concrete pages and events                     *)
(* ===================================================================== *)

Section MoreInstances.

Import WM Examples Scenes.

Lemma sized_local w h : Windows.local_layout (sized w h).
Proof.
  intros b b' id He Hw Hh. unfold sized. by rewrite He, Hw, Hh.
Qed.

(** ** The window manager *)

Lemma drag_session_returns_to_idle_witness :
  let s := desktop 1200 800 in
  let final := WM.drag_session (sized 300 200) "galleryWindow"
                 (pointer 400 110) [pointer 420 100] (pointer 450 80) s in
  WM.isDragging (WM.mgr final) = false ∧
  WM.activeWindow (WM.mgr final) = None ∧
  WM.body_userSelect (WM.dom final) = "" ∧
  WM.doc_listeners (WM.dom final)
  = filter (λ p, p ∉ Windows.drag_listeners) (WM.doc_listeners (WM.dom s)).
Proof.
  apply (drag_session_returns_to_idle (sized 300 200) "galleryWindow"
           (pointer 400 110) [pointer 420 100] (pointer 450 80)
           (desktop 1200 800)).
  vm_compute. eauto.
Defined.

Lemma startDrag_raises_witness :
  let s := desktop 1200 800 in
  let s' := (WM.startDrag (sized 300 200) "galleryWindow"
               (pointer 400 110) s).1 in
  WM.currentZIndex (WM.mgr s') = (WM.currentZIndex (WM.mgr s) + 1)%Z ∧
  WM.zIndex_of s' "galleryWindow" = Some (WM.currentZIndex (WM.mgr s')) ∧
  ∀ w' z', w' ≠ "galleryWindow" →
    WM.zIndex_of s' w' = Some z' →
    WM.zIndex_of s w' = Some z' ∧ (z' < WM.currentZIndex (WM.mgr s'))%Z.
Proof.
  apply (startDrag_raises (sized 300 200) "galleryWindow" (pointer 400 110)
           (desktop 1200 800)).
  - unfold WM.below_counter. apply (bool_decide_unpack _). vm_compute.
    exact I.
  - vm_compute. eauto.
Defined.

Lemma transition_stays_off_witness :
  let final := WM.drag_session (sized 300 200) "galleryWindow"
                 (pointer 400 110) [pointer 420 100] (pointer 450 80)
                 (desktop 1200 800) in
  (0 < WM.timers (WM.dom final))%nat ∧
  Windows.transition_of (Nat.iter 2 Windows.fire_timer final) "galleryWindow"
  = Some "none".
Proof.
  apply (transition_stays_off (sized 300 200) "galleryWindow"
           (pointer 400 110) [pointer 420 100] (pointer 450 80) 2
           (desktop 1200 800)).
  vm_compute. eauto.
Defined.

(** The gallery window hangs out of the viewport on the right and is
    centered again by the resize handler. *)
Lemma handleResize_recenters_witness :
  let order := ["galleryWindow"; "notepadWindow"] in
  let w := "galleryWindow" in
  let s := stray_desktop in
  let s' := Windows.handleResize (sized 300 200) order s in
  let r := sized 300 200 (WM.dom s) w in
  if bool_decide (w ∈ order) && WM.is_active (WM.dom s) w
     && Windows.out_of_bounds (WM.dom s) r
  then WM.left_of s' w
       = Some ((WM.innerWidth (WM.dom s) - WM.r_width r) / 2)%Q ∧
       WM.top_of s' w
       = Some ((WM.innerHeight (WM.dom s) - WM.r_height r) / 2)%Q
  else WM.elements (WM.dom s') !! w = WM.elements (WM.dom s) !! w.
Proof.
  apply (handleResize_recenters (sized 300 200)
           ["galleryWindow"; "notepadWindow"] "galleryWindow" stray_desktop).
  - apply sized_local.
  - apply (bool_decide_unpack _). vm_compute. exact I.
Defined.


Lemma resetWindowPosition_effect_witness :
  let w := "galleryWindow" in
  let s := desktop 1200 800 in
  let el := window_at 100 100 in
  let s0 := WM.with_dom (WM.update_element w Windows.clear_position) s in
  let r := sized 300 200 (WM.dom s0) w in
  let s' := Windows.resetWindowPosition (sized 300 200) never_hidden w s in
  Windows.stored_zIndex s' w = Some (WM.baseZIndex (WM.mgr s)) ∧
  WM.zIndex_of s' w = WM.el_zIndex el ∧
  WM.currentZIndex (WM.mgr s') = WM.currentZIndex (WM.mgr s) ∧
  if WM.el_active el || negb (never_hidden (WM.dom s0) w)
  then WM.left_of s' w
       = Some ((WM.innerWidth (WM.dom s) - WM.r_width r) / 2)%Q ∧
       WM.top_of s' w
       = Some ((WM.innerHeight (WM.dom s) - WM.r_height r) / 2)%Q
  else WM.left_of s' w = None ∧ WM.top_of s' w = None.
Proof.
  apply (resetWindowPosition_effect (sized 300 200) never_hidden
           "galleryWindow" (desktop 1200 800) (window_at 100 100)).
  by vm_compute.
Defined.

(** ** The interceptors *)

(** A click on the desktop background is swallowed. *)
Lemma clicks_in_freeze_mode_witness :
  let e := event_on "click" ["wallpaper"; "desktop"] in
  Blockers.run_interceptors e frozen_page
  = if Blockers.allowed e then e
    else Blockers.stopImmediatePropagation
           (Blockers.stopPropagation (Blockers.preventDefault e)).
Proof.
  apply (clicks_in_freeze_mode (Some Freeze.Pencil) (Some "enabled")
           [menu_closer] 1 0 (event_on "click" ["wallpaper"; "desktop"])).
  - repeat constructor.
  - reflexivity.
  - apply (bool_decide_unpack _). vm_compute. exact I.
  - reflexivity.
Defined.

(** A letter typed into the search field of the browser window. *)
Lemma keys_in_freeze_mode_witness :
  let e := typing "a" ["searchInput"; "browserWindow"] in
  Blockers.run_interceptors e frozen_page
  = if Blockers.shortcut e then e
    else if Blockers.text_target e
         then Blockers.stopPropagation (Blockers.preventDefault e)
         else e.
Proof.
  apply (keys_in_freeze_mode (Some Freeze.Pencil) (Some "enabled")
           [menu_closer] 1 0 (typing "a" ["searchInput"; "browserWindow"])).
  - repeat constructor.
  - reflexivity.
  - apply (bool_decide_unpack _). vm_compute. exact I.
  - reflexivity.
Defined.

Lemma submit_and_menu_in_freeze_mode_witness :
  let e := event_on "contextmenu" ["wallpaper"; "desktop"] in
  (Blockers.ev_type e = "submit" →
   Blockers.run_interceptors e frozen_page
   = Blockers.stopPropagation (Blockers.preventDefault e)) ∧
  (Blockers.ev_type e = "contextmenu" →
   Blockers.run_interceptors e frozen_page
   = if Blockers.closest "drawingModeToggle" e then e
     else Blockers.preventDefault e).
Proof.
  apply (submit_and_menu_in_freeze_mode (Some Freeze.Pencil) (Some "enabled")
           [menu_closer] 1 0
           (event_on "contextmenu" ["wallpaper"; "desktop"])).
  - repeat constructor.
  - reflexivity.
  - reflexivity.
Defined.

(** A wheel event in freeze mode. *)
Lemma untouched_events_witness :
  let e := event_on "wheel" ["wallpaper"; "desktop"] in
  Blockers.run_interceptors e frozen_page = e.
Proof.
  apply (untouched_events toggle_button (Some "enabled") [menu_closer] 1 0
           (event_on "wheel" ["wallpaper"; "desktop"])).
  - repeat constructor.
  - right. left. apply (bool_decide_unpack _). vm_compute. exact I.
Defined.

(** ** Two enables in a row, then two disables *)

Lemma double_enable_leaks_witness :
  let s := Freeze.constructed toggle_button None [menu_closer] 1 in
  let first := Mode.installed_by (Freeze.next_closure s) in
  let twice := Freeze.blockInteractions (Freeze.blockInteractions s) in
  let after := Nat.iter 2 Freeze.unblockInteractions twice in
  Freeze.interceptors twice
  = (first ++ Mode.installed_by (Freeze.next_closure s + 4))%list ∧
  Freeze.blockers twice = Some <$> Freeze.made (Freeze.next_closure s + 4) ∧
  Freeze.listeners after = (Freeze.listeners s ++ first)%list ∧
  Freeze.interceptors after = first ∧
  Freeze.blockers after = [None; None; None; None].
Proof.
  apply (double_enable_leaks
           (Freeze.constructed toggle_button None [menu_closer] 1) 1).
  repeat constructor.
Defined.

(** ** The pixel filter *)

Lemma output_monochrome_witness :
  let out := Sketch.applySketchFilter corner_frame in
  let idx := Sketch.index 3 1 1 in
  ∃ v a : Z,
    (0 ≤ v ≤ 255)%Z ∧
    out !! idx = Some v ∧ out !! (idx + 1)%nat = Some v ∧
    out !! (idx + 2)%nat = Some v ∧ out !! (idx + 3)%nat = Some a ∧
    (a = 255 ∨ (a = 0 ∧ v = 0))%Z.
Proof.
  apply (output_monochrome corner_frame 1 1); simpl; lia.
Defined.

Lemma alpha_is_ignored_witness :
  Sketch.applySketchFilter corner_frame
  = Sketch.applySketchFilter clear_corner_frame.
Proof.
  apply (alpha_is_ignored corner_frame clear_corner_frame).
  - reflexivity.
  - reflexivity.
  - intros j c Hc.
    do 9 (destruct j as [|j];
          [do 3 (destruct c as [|c]; [reflexivity|]); lia|]).
    rewrite !lookup_ge_None_2; [done | simpl; lia | simpl; lia].
Defined.

Lemma small_frame_stays_blank_witness :
  Sketch.applySketchFilter strip = replicate (4 * 2 * 5) 0%Z.
Proof.
  apply (small_frame_stays_blank strip). left. simpl. lia.
Defined.

(** ** The gallery *)

Lemma two_submissions_in_a_row_witness :
  let submit := Gallery.submitDrawing string encode (λ _, "") in
  let a2 := submit 2%Z "10:05:00" (submit 1%Z "10:00:00" notepad) in
  Gallery.drawings a2
  = (Gallery.drawings notepad ++
     [ {| Gallery.id := 1%Z;
          Gallery.dataURL := encode "image/png" "iVBORw0KGgo=";
          Gallery.timestamp := "10:00:00" |};
       {| Gallery.id := 2%Z; Gallery.dataURL := encode "image/png" "";
          Gallery.timestamp := "10:05:00" |} ])%list ∧
  Gallery.canvas a2 = Some "" ∧
  Gallery.alerts a2
  = (Gallery.alerts notepad ++ ["Drawing submitted to gallery!";
                                "Drawing submitted to gallery!"])%list.
Proof.
  apply (two_submissions_in_a_row string encode (λ _, "") 1%Z "10:00:00"
           2%Z "10:05:00" notepad "iVBORw0KGgo=").
  reflexivity.
Defined.

(** ** The desktop icons *)

Lemma icons_round_trip_witness :
  let id := "cameraIcon" in
  let swapped := Icons.swapToDrawnIcons desk_icons in
  let back := Icons.restoreOriginalIcons swapped in
  Icons.originalIcons back = [] ∧
  Icons.text_of back id = Icons.text_of desk_icons id ∧
  (Icons.mapped id = true →
   Icons.text_of swapped id = (λ _, "") <$> Icons.text_of desk_icons id ∧
   Icons.icons back !! id
   = fmap (fmap (λ img,
        {| Icons.textContent := Icons.textContent img;
           Icons.backgroundImage := "";
           Icons.backgroundSize := "contain";
           Icons.backgroundRepeat := "no-repeat";
           Icons.backgroundPosition := "center" |}))
       (Icons.icons desk_icons !! id)) ∧
  (Icons.mapped id = false →
   Icons.icons swapped !! id = Icons.icons desk_icons !! id ∧
   Icons.icons back !! id = Icons.icons desk_icons !! id).
Proof.
  apply (icons_round_trip desk_icons "cameraIcon"). reflexivity.
Defined.

Lemma double_swap_loses_text_witness :
  let back := Icons.restoreOriginalIcons
                (Icons.swapToDrawnIcons (Icons.swapToDrawnIcons desk_icons)) in
  Icons.text_of back "notepadIcon" = Some "" ∧ Icons.originalIcons back = [].
Proof.
  apply (double_swap_loses_text desk_icons "notepadIcon"
           {| Icons.textContent := "pencil"; Icons.backgroundImage := "";
              Icons.backgroundSize := ""; Icons.backgroundRepeat := "";
              Icons.backgroundPosition := "" |}).
  - reflexivity.
  - by vm_compute.
  - by vm_compute.
Defined.

(** ** The illustration and the notepad *)

Lemma showDrawnComputer_clamped_witness :
  let p := small_screen in
  ∃ el' l t,
    Illustration.drawnComputer
      (Nat.iter 3 Illustration.showDrawnComputer p) = Some el' ∧
    Illustration.left el' = Some l ∧ Illustration.top el' = Some t ∧
    (0 <= l)%Q ∧ (0 <= t)%Q ∧
    ((900 <= Illustration.innerWidth p)%Q →
     (l == (Illustration.innerWidth p - 900) / 2)%Q) ∧
    ((Illustration.innerWidth p < 900)%Q → (l == 0)%Q) ∧
    ((600 <= Illustration.innerHeight p)%Q →
     (t == (Illustration.innerHeight p - 600) / 2)%Q) ∧
    ((Illustration.innerHeight p < 600)%Q → (t == 0)%Q) ∧
    Illustration.pointerdown_listeners el'
    = if Illustration.windowManager p
      then (Illustration.pointerdown_listeners hidden_computer + 3)%nat
      else Illustration.pointerdown_listeners hidden_computer.
Proof.
  apply (showDrawnComputer_clamped small_screen hidden_computer 2).
  reflexivity.
Defined.

Lemma stroke_is_connected_witness :
  let down := pen 50 70 in
  let p' := Notepad.stroke down [pen 55 75; pen 60 72] blank_pad in
  ∃ new,
    Notepad.strokes p' = (Notepad.strokes blank_pad ++ new)%list ∧
    length new = 2%nat ∧
    Notepad.chained (Notepad.clientX down - Notepad.rect_left down)
      (Notepad.clientY down - Notepad.rect_top down) new ∧
    Notepad.isDrawing p' = false ∧
    ∀ e, Notepad.draw e p' = Notepad.Returns p'.
Proof.
  apply (stroke_is_connected (pen 50 70) [pen 55 75; pen 60 72] blank_pad).
  reflexivity.
Defined.

End MoreInstances.
